(** * uchroma: framebuffer, wire encoding and animation loop

    A shallow embedding of [uchroma/frame.py] and [uchroma/anim.py].

    Python integers are [Z]; numpy index arrays are lists of [Z] tagged
    with their dtype; Python floats and the float32 channel values of
    the framebuffer are values of [float], a rational rounded to the
    binary format at hand, an infinity or NaN.  Exceptions are values of
    [exn]; a method that mutates [self] and may raise is a function from
    the object to an outcome paired with the object as the call leaves
    it. *)

From Stdlib Require Import String Strings.Byte.
From Stdlib Require Import ZArith QArith Qround Qabs List Bool Lia Arith.
Import ListNotations.
Local Open Scope Z_scope.

(** ** Python basics *)

Inductive exn : Type :=
| ValueError
| TypeError
| AttributeError
| IndexError
| ImportError
| QueueFull
| OverflowError
| ZeroDivisionError
| MemoryError
| DeviceError (code : Z).

Inductive result (A : Type) : Type :=
| Ok (a : A)
| Raise (e : exn).
Arguments Ok {A} a.
Arguments Raise {A} e.

(** [range(0, n)] *)
Definition py_range (n : Z) : list Z := map Z.of_nat (seq 0 (Z.to_nat n)).

(** [l[:n]] *)
Definition slice_to {A} (n : Z) (l : list A) : list A :=
  if 0 <=? n then firstn (Z.to_nat n) l
  else firstn (length l - Z.to_nat (- n)) l.

(** numpy keeps dimensions and indices in a signed 64-bit C integer, and
    builds an unsigned 64-bit array for the integers just above. *)
Abbreviation intp_limit := 9223372036854775808 (only parsing).
Abbreviation uintp_limit := 18446744073709551616 (only parsing).

Definition fits_intp (i : Z) : bool := (- intp_limit <=? i) && (i <? intp_limit).

(** [a[i]] on an axis of length [n] of a numpy array: an index that does
    not fit a C integer raises [OverflowError]; negative indices count
    from the end; anything else out of range raises [IndexError]. *)
Definition py_index (n : nat) (i : Z) : result nat :=
  if negb (fits_intp i) then Raise OverflowError
  else if (0 <=? i) && (i <? Z.of_nat n) then Ok (Z.to_nat i)
  else if (- Z.of_nat n <=? i) && (i <? 0) then Ok (Z.to_nat (Z.of_nat n + i))
  else Raise IndexError.

(** Replace the [i]-th element; nothing happens out of range (callers
    only pass indices they have checked). *)
Fixpoint list_set {A} (i : nat) (v : A) (l : list A) : list A :=
  match l, i with
  | [], _ => []
  | _ :: t, O => v :: t
  | h :: t, S j => h :: list_set j v t
  end.

(** A method of an object of type [S]: outcome and the object afterwards. *)
Definition M (S A : Type) : Type := S -> result A * S.

Definition ret {S A} (a : A) : M S A := fun s => (Ok a, s).
Definition raise {S A} (e : exn) : M S A := fun s => (Raise e, s).
Definition bind {S A B} (m : M S A) (k : A -> M S B) : M S B :=
  fun s => match m s with
           | (Ok a, s') => k a s'
           | (Raise e, s') => (Raise e, s')
           end.

(** [try: body finally: fin] *)
Definition try_finally {S A} (body : M S A) (fin : M S unit) : M S A :=
  fun s => let '(r, s1) := body s in
           match fin s1 with
           | (Ok _, s2) => (r, s2)
           | (Raise e, s2) => (Raise e, s2)
           end.

Declare Scope py_scope.
Delimit Scope py_scope with py.
Notation "x <- m ;; k" := (bind m (fun x => k))
  (at level 61, m at next level, right associativity) : py_scope.
Notation "m ;; k" := (bind m (fun _ => k))
  (at level 61, right associativity) : py_scope.
Local Open Scope py_scope.

(** ** Floating-point numbers *)

(** A Python [float] or a numpy [float32] or [float64] value: a finite
    number, an infinity or NaN.  A finite value is the rational it
    stands for; the two zeros are one value (they compare equal, and
    nothing here divides by a cell). *)
Inductive float : Type :=
| Finite (q : Q)
| PosInf
| NegInf
| NaN.
Arguments Finite q%_Q.

(** A binary format: bits of precision and the exponents of the
    smallest and the largest normal numbers. *)
Record format : Type := mkFormat { prec : Z; emin : Z; emax : Z }.

Definition binary32 : format := mkFormat 24 (-126) 127.
Definition binary64 : format := mkFormat 53 (-1022) 1023.

Definition pow2 (e : Z) : Q :=
  if 0 <=? e then inject_Z (2 ^ e) else / inject_Z (2 ^ (- e)).

(** The exponent [e] with [2^e <= |q| < 2^(e+1)], for [q] not zero. *)
Definition ilog2 (q : Q) : Z :=
  let e := Z.log2 (Z.abs (Qnum q)) - Z.log2 (Zpos (Qden q)) in
  if Qle_bool (pow2 e) (Qabs q) then e else e - 1.

(** To the nearest integer, ties to even. *)
Definition round_half_even (x : Q) : Z :=
  let f := Qfloor x in
  match Qcompare (x - inject_Z f) (1 # 2) with
  | Lt => f
  | Gt => f + 1
  | Eq => if Z.even f then f else f + 1
  end.

(** The value of the format nearest to [q], ties to even: the spacing
    is that of the binade of [q], or of the subnormals below [emin], and
    what rounds to [2^(emax+1)] or beyond is an infinity. *)
Definition round_to (fmt : format) (q0 : Q) : float :=
  let q := Qred q0 in
  if Qnum q =? 0 then Finite 0
  else
    let e := Z.max (ilog2 q) (emin fmt) in
    let ulp := pow2 (e - prec fmt + 1) in
    let r := Qred (inject_Z (round_half_even (q / ulp)) * ulp) in
    if Qle_bool (pow2 (emax fmt + 1)) (Qabs r)
    then (if Qle_bool 0 q then PosInf else NegInf)
    else Finite r.

Definition is_zero (q : Q) : bool := Qnum q =? 0.

Definition fneg (x : float) : float :=
  match x with
  | Finite q => Finite (- q)
  | PosInf => NegInf
  | NegInf => PosInf
  | NaN => NaN
  end.

(** The infinity with the sign of [q], for [q] not zero. *)
Definition inf_like (q : Q) : float :=
  if Qle_bool 0 q then PosInf else NegInf.

Definition fadd (fmt : format) (x y : float) : float :=
  match x, y with
  | NaN, _ | _, NaN => NaN
  | PosInf, NegInf | NegInf, PosInf => NaN
  | PosInf, _ | _, PosInf => PosInf
  | NegInf, _ | _, NegInf => NegInf
  | Finite a, Finite b => round_to fmt (a + b)
  end.

Definition fsub (fmt : format) (x y : float) : float := fadd fmt x (fneg y).

Definition fmul (fmt : format) (x y : float) : float :=
  match x, y with
  | NaN, _ | _, NaN => NaN
  | Finite a, Finite b => round_to fmt (a * b)
  | Finite a, PosInf | PosInf, Finite a =>
      if is_zero a then NaN else inf_like a
  | Finite a, NegInf | NegInf, Finite a =>
      if is_zero a then NaN else inf_like (- a)
  | PosInf, PosInf | NegInf, NegInf => PosInf
  | PosInf, NegInf | NegInf, PosInf => NegInf
  end.

(** [float(n)] for a Python integer: an integer that rounds beyond the
    largest double raises [OverflowError]. *)
Definition float_of_int (n : Z) : result float :=
  match round_to binary64 (inject_Z n) with
  | Finite q => Ok (Finite q)
  | _ => Raise OverflowError
  end.

(** [x / y] on Python floats: a zero divisor raises
    [ZeroDivisionError]. *)
Definition py_truediv (x y : float) : result float :=
  match x, y with
  | _, Finite b =>
      if is_zero b then Raise ZeroDivisionError
      else match x with
           | Finite a => Ok (round_to binary64 (a / b))
           | PosInf => Ok (inf_like b)
           | NegInf => Ok (inf_like (- b))
           | NaN => Ok NaN
           end
  | NaN, _ | _, NaN => Ok NaN
  | Finite _, _ => Ok (Finite 0)
  | _, _ => Ok NaN
  end.

(** Conversion to [float32], as a store into a [float32] array does. *)
Definition to_float32 (x : float) : float :=
  match x with
  | Finite q => round_to binary32 q
  | other => other
  end.

(** [round(x)] on a Python float. *)
Definition py_round (x : float) : result Z :=
  match x with
  | Finite q => Ok (round_half_even q)
  | NaN => Raise ValueError
  | _ => Raise OverflowError
  end.

(** [x >= 0] and [x < n]: comparisons with NaN are false. *)
Definition float_in_range (n : nat) (x : float) : bool :=
  match x with
  | Finite q => Qle_bool 0 q && negb (Qle_bool (inject_Z (Z.of_nat n)) q)
  | _ => false
  end.

(** ** The device transport *)

Inductive Command : Type :=
| SET_FRAME_DATA_MATRIX   (* (0x03, 0x0B, None) *)
| SET_FRAME_DATA_SINGLE   (* (0x03, 0x0C, None) *)
| CUSTOM_FRAME.

Inductive arg : Type :=
| Int (z : Z)
| Bytes (b : list byte).

(** One call of [run_command]: the command, its positional arguments and
    the two keyword arguments when they are passed. *)
Record Transaction : Type := mkTransaction {
  command : Command;
  args : list arg;
  transaction_id : option Z;
  remaining_packets : option Z
}.

(** The driver object as the frame sees it.  [respond] is the device's
    behaviour: what [run_command] raises, if anything, given the calls
    made so far and the new one.  [issued] is the sequence of calls
    made.  The status [run_command] returns is discarded by every
    caller in [frame.py]. *)
Record Driver : Type := mkDriver {
  quirk_custom_frame_80 : bool;
  respond : list Transaction -> Transaction -> option exn;
  issued : list Transaction
}.

Definition run_command (t : Transaction) : M Driver unit :=
  fun d =>
    let d' := mkDriver (quirk_custom_frame_80 d) (respond d) (issued d ++ [t]) in
    match respond d (issued d) t with
    | Some e => (Raise e, d')
    | None => (Ok tt, d')
    end.

(** The driver after the calls [ts] have been made on it. *)
Definition sends (d : Driver) (ts : list Transaction) : Driver :=
  mkDriver (quirk_custom_frame_80 d) (respond d) (issued d ++ ts).

(** A transport that accepts every write. *)
Definition accepts (d : Driver) : Prop :=
  forall log t, respond d log t = None.

(** Modelled from the spec: [custom_frame] belongs to the device class,
    which is not among the sources; the spec has [commit()] issue one
    separate flip-to-display command through the transport. *)
Definition custom_frame : M Driver unit :=
  run_command (mkTransaction CUSTOM_FRAME [] None None).

(** ** numpy array backing a frame *)

(** One cell: the four float32 channels (red, green, blue, alpha). *)
Definition rgba : Type := (float * float * float * float)%type.

Definition rgba_zero : rgba := (Finite 0, Finite 0, Finite 0, Finite 0).

(** Two floats are the same value. *)
Definition float_eq (x y : float) : Prop :=
  match x, y with
  | Finite a, Finite b => (a == b)%Q
  | PosInf, PosInf | NegInf, NegInf | NaN, NaN => True
  | _, _ => False
  end.

(** Two cells hold the same channel values. *)
Definition rgba_eq (c1 c2 : rgba) : Prop :=
  let '(r1, g1, b1, a1) := c1 in
  let '(r2, g2, b2, a2) := c2 in
  float_eq r1 r2 /\ float_eq g1 g2 /\ float_eq b1 b2 /\ float_eq a1 a2.

(** An array of shape [(shape0, shape1, 4)] and dtype [float32], with
    its [writeable] flag. *)
Record ndarray : Type := mkArray {
  shape0 : nat;
  shape1 : nat;
  cells : list (list rgba);
  writeable : bool
}.

Definition array_ok (a : ndarray) : Prop :=
  length (cells a) = shape0 a /\
  Forall (fun r => length r = shape1 a) (cells a).

(** What numpy's allocator raises, if anything, for an array of shape
    [(height, width, 4)] whose dimensions are C integers: [ValueError]
    when the size in bytes is not one, [MemoryError] when the machine
    has no room.  It depends on the platform and is a parameter. *)
Definition allocator : Type := Z -> Z -> option exn.

(** [np.zeros(shape=(height, width, 4), dtype=np.float32)]: a negative
    dimension, and one that does not fit a C integer, raise
    [ValueError]. *)
Definition np_zeros (alloc : allocator) (height width : Z) : result ndarray :=
  if (height <? 0) || (width <? 0) then Raise ValueError
  else if negb (fits_intp height) || negb (fits_intp width) then Raise ValueError
  else match alloc height width with
       | Some e => Raise e
       | None =>
           Ok (mkArray (Z.to_nat height) (Z.to_nat width)
                 (repeat (repeat rgba_zero (Z.to_nat width)) (Z.to_nat height))
                 true)
       end.

(** [a.setflags(write=w)] *)
Definition setflags (w : bool) (a : ndarray) : ndarray :=
  mkArray (shape0 a) (shape1 a) (cells a) w.

(** [a.fill(0)]: numpy refuses to write a read-only array. *)
Definition fill_zero (a : ndarray) : result ndarray :=
  if writeable a
  then Ok (mkArray (shape0 a) (shape1 a)
             (map (map (fun _ => rgba_zero)) (cells a)) true)
  else Raise ValueError.

(** ** frame.py: class Frame *)

Module Frame.

(** A [grapefruit.Color] as the tuple it iterates to: red, green, blue,
    alpha. *)
Definition Color : Type := rgba.

Definition black : Color := (Finite 0, Finite 0, Finite 0, Finite 1).

(** The attributes of a [Frame] that the framebuffer and the encoder
    use.  [_fps], [_callback], [_running] and [_anim_task] only pace the
    frame's own animation task and are left out. *)
Record t : Type := mk {
  _driver : Driver;
  _width : Z;
  _height : Z;
  _matrix : ndarray;
  _base_color : Color
}.

Definition MAX_WIDTH : Z := 24.
Definition DEFAULT_FRAME_ID : Z := 255.

Definition with_driver (f : t) (d : Driver) : t :=
  mk d (_width f) (_height f) (_matrix f) (_base_color f).

Definition with_matrix (f : t) (a : ndarray) : t :=
  mk (_driver f) (_width f) (_height f) a (_base_color f).

(** A call on [self._driver]. *)
Definition driver_call {A} (m : M Driver A) : M t A :=
  fun f => let '(r, d) := m (_driver f) in (r, with_driver f d).

(** [Frame.__init__], with [fps] left out. *)
Definition init (alloc : allocator) (driver : Driver) (width height : Z)
    (base_color : option Color) : result t :=
  match np_zeros alloc height width with
  | Raise e => Raise e
  | Ok a => Ok (mk driver width height a
                  (match base_color with Some c => c | None => black end))
  end.

(** The matrix has the shape [__init__] gave it: no method resizes it,
    and the dimensions of a numpy array are C integers. *)
Definition shape_ok (f : t) : Prop :=
  0 <= _height f < intp_limit /\ 0 <= _width f < intp_limit /\
  shape0 (_matrix f) = Z.to_nat (_height f) /\
  shape1 (_matrix f) = Z.to_nat (_width f) /\
  array_ok (_matrix f).

(** A frame between two method calls: [__init__] leaves the matrix
    writable and [prepare] and [update] restore the flag on every path. *)
Definition frame_ok (f : t) : Prop :=
  shape_ok f /\ writeable (_matrix f) = true.

Definition clear : M t unit :=
  fun f => match fill_zero (_matrix f) with
           | Ok a => (Ok tt, with_matrix f a)
           | Raise e => (Raise e, f)
           end.

Definition set_write (w : bool) : M t unit :=
  fun f => (Ok tt, with_matrix f (setflags w (_matrix f))).

Definition commit : M t unit := driver_call custom_frame.

Section Encoder.

(** [ColorUtils.rgba2rgb] ([uchroma.color]) is not among the sources.
    It is taken as a parameter that maps each cell, given the base
    colour, to the bytes [tobytes()] later emits for it; the image keeps
    the shape of the matrix. *)
Variable rgba2rgb : Color -> rgba -> list byte.

Definition _as_img (f : t) : list (list (list byte)) :=
  map (map (rgba2rgb (_base_color f))) (cells (_matrix f)).

(** [row[:width].tobytes()] *)
Definition row_bytes (width : Z) (row : list (list byte)) : list byte :=
  concat (slice_to width row).

Definition _set_frame_data_single (frame_id : Z) : M t unit :=
  fun f =>
    let width := Z.min (_width f) MAX_WIDTH in
    match nth_error (_as_img f) 0 with
    | None => (Raise IndexError, f)
    | Some row =>
        driver_call
          (run_command
             (mkTransaction SET_FRAME_DATA_SINGLE
                [Int 0; Int width; Bytes (row_bytes width row)]
                (Some 128) None)) f
    end.

(** The call made for one row of the matrix: [data] is
    [img[row][:width].tobytes()] and [remaining] is
    [self._height - row - 1]. *)
Definition row_transaction (frame_id width height : Z) (tid : option Z)
    (row : Z) (r : list (list byte)) : Transaction :=
  let data := row_bytes width r in
  let remaining := height - row - 1 in
  mkTransaction SET_FRAME_DATA_MATRIX
    [Int frame_id; Int row; Int 0; Int width; Bytes data]
    tid (Some remaining).

(** The [for row in range(0, self._height)] loop. *)
Fixpoint send_rows (frame_id width height : Z) (tid : option Z)
    (img : list (list (list byte))) (rows : list Z) : M t unit :=
  match rows with
  | [] => ret tt
  | row :: rest =>
      (match nth_error img (Z.to_nat row) with
       | None => raise IndexError
       | Some r =>
           driver_call
             (run_command (row_transaction frame_id width height tid row r))
       end) ;;
      send_rows frame_id width height tid img rest
  end.

Definition _set_frame_data_matrix (frame_id : Z) : M t unit :=
  fun f =>
    let width := Z.min (_width f) MAX_WIDTH in
    let tid := if quirk_custom_frame_80 (_driver f) then Some 128 else None in
    let img := _as_img f in
    send_rows frame_id width (_height f) tid img (py_range (_height f)) f.

Definition _set_frame_data (frame_id : option Z) : M t unit :=
  fun f =>
    let frame_id :=
      match frame_id with None => DEFAULT_FRAME_ID | Some i => i end in
    if _height f =? 1 then _set_frame_data_single frame_id f
    else _set_frame_data_matrix frame_id f.

Definition prepare (frame_id : option Z) : M t unit :=
  try_finally (set_write false ;; _set_frame_data frame_id)
              (set_write true) ;;
  clear.

Definition update (frame_id : option Z) : M t unit :=
  try_finally (set_write false ;; _set_frame_data frame_id ;; commit)
              (set_write true).

(** [flip] and [reset] *)
Definition flip (do_clear : bool) (frame_id : option Z) : M t unit :=
  update frame_id ;; (if do_clear then clear else ret tt).

Definition reset (frame_id : option Z) : M t unit :=
  clear ;; update frame_id.

End Encoder.

(** *** Drawing *)

(** The arrays the drawing code passes around: index arrays of an
    integer dtype, arrays of Python integers (dtype [object]) and float
    coverage arrays. *)
Inductive array1 : Type :=
| IntArray (l : list Z)
| ObjArray (l : list Z)
| FloatArray (l : list float).

Definition array1_len (a : array1) : nat :=
  match a with
  | IntArray l | ObjArray l => length l
  | FloatArray l => length l
  end.

(** [np.atleast_1d(i)] for a Python integer: an [int64] array, a
    [uint64] array for the integers from [2^63] up to [2^64], and an
    array of dtype [object] for any other. *)
Definition atleast_1d (i : Z) : array1 :=
  if (- intp_limit <=? i) && (i <? uintp_limit) then IntArray [i]
  else ObjArray [i].

(** The [alpha] argument of [_set_color]: a scalar or an array. *)
Inductive alpha_arg : Type :=
| Scalar (a : float)
| Alphas (aa : list float).

(** [(a >= 0) & (a < n)], elementwise. *)
Definition in_range (n : nat) (a : array1) : list bool :=
  match a with
  | IntArray l | ObjArray l => map (fun i => (0 <=? i) && (i <? Z.of_nat n)) l
  | FloatArray l => map (float_in_range n) l
  end.

Fixpoint map2 {A B C} (f : A -> B -> C) (l1 : list A) (l2 : list B) : list C :=
  match l1, l2 with
  | a :: t1, b :: t2 => f a b :: map2 f t1 t2
  | _, _ => []
  end.

(** Elementwise [&] of two one-dimensional boolean arrays with numpy's
    broadcasting: equal lengths, or one of them of length one. *)
Definition mask_and (m1 m2 : list bool) : result (list bool) :=
  if (length m1 =? length m2)%nat then Ok (map2 andb m1 m2)
  else match m1, m2 with
       | [b], _ => Ok (map (andb b) m2)
       | _, [b] => Ok (map (fun x => andb x b) m1)
       | _, _ => Raise ValueError
       end.

(** [a[mask]] with a mask as long as the array. *)
Fixpoint select_same {A} (mask : list bool) (l : list A) : result (list A) :=
  match mask, l with
  | [], [] => Ok []
  | b :: m, x :: t =>
      match select_same m t with
      | Ok r => Ok (if b then x :: r else r)
      | Raise e => Raise e
      end
  | _, _ => Raise IndexError
  end.

(** [a[mask]]: the mask must be as long as the array, except that numpy
    lets an empty mask index an array of any length and select
    nothing. *)
Definition select {A} (mask : list bool) (l : list A) : result (list A) :=
  match mask with
  | [] => Ok []
  | _ :: _ => select_same mask l
  end.

Definition select_array (mask : list bool) (a : array1) : result array1 :=
  match a with
  | IntArray l =>
      match select mask l with Ok r => Ok (IntArray r) | Raise e => Raise e end
  | ObjArray l =>
      match select mask l with Ok r => Ok (ObjArray r) | Raise e => Raise e end
  | FloatArray l =>
      match select mask l with Ok r => Ok (FloatArray r) | Raise e => Raise e end
  end.

(** [_coords_inside_image(rr, cc, shape, val)] with [val] given. *)
Definition _coords_inside_image (rr cc : array1) (shape : nat * nat)
    (val : list float) : result (array1 * array1 * list float) :=
  match mask_and (in_range (fst shape) rr) (in_range (snd shape) cc) with
  | Raise e => Raise e
  | Ok mask =>
      match select_array mask rr with
      | Raise e => Raise e
      | Ok rr' =>
          match select_array mask cc with
          | Raise e => Raise e
          | Ok cc' =>
              match select mask val with
              | Raise e => Raise e
              | Ok val' => Ok (rr', cc', val')
              end
          end
      end
  end.

Definition cell_at (cs : list (list rgba)) (r c : nat) : rgba :=
  nth c (nth r cs []) rgba_zero.

Definition cell_set (r c : nat) (v : rgba) (cs : list (list rgba))
    : list (list rgba) :=
  list_set r (list_set c v (nth r cs [])) cs.

(** [old * (1 - alpha) + color * alpha] on one channel.  The colour and
    the coverage are [float64] and the cell is widened to it, so every
    operation rounds to [float64]. *)
Definition blend_channel (old color alpha : float) : float :=
  fadd binary64 (fmul binary64 old (fsub binary64 (Finite 1) alpha))
                (fmul binary64 color alpha).

(** [old * (1 - alpha) + color * alpha], channel by channel. *)
Definition blend (old color : rgba) (alpha : float) : rgba :=
  let '(r0, g0, b0, a0) := old in
  let '(r1, g1, b1, a1) := color in
  (blend_channel r0 r1 alpha, blend_channel g0 g1 alpha,
   blend_channel b0 b1 alpha, blend_channel a0 a1 alpha).

(** The value a store into the [float32] matrix leaves in the cell. *)
Definition as_float32 (c : rgba) : rgba :=
  let '(r, g, b, a) := c in
  (to_float32 r, to_float32 g, to_float32 b, to_float32 a).

(** [img[rr, cc] = values]: the assignments happen in order, so a later
    duplicate coordinate wins. *)
Fixpoint assign (pts : list (Z * Z * rgba)) (cs : list (list rgba))
    : list (list rgba) :=
  match pts with
  | [] => cs
  | (r, c, v) :: rest => assign rest (cell_set (Z.to_nat r) (Z.to_nat c) v cs)
  end.

(** [Frame._set_color(img, coords, color, alpha)].  [coords] is the
    tuple the caller passes and [color] the tuple of channel values.
    The function updates [img] in place; every exception is raised
    before the first cell is written.  Index arrays that are not of an
    integer dtype make the read [img[rr, cc]] raise [IndexError]. *)
Definition _set_color (img : ndarray) (coords : list array1)
    (color : list float) (alpha : alpha_arg) : result ndarray :=
  match coords with
  | [rr; cc] =>                                     (* rr, cc = coords *)
      match color with
      | [r1; g1; b1; a1] =>
          let alpha :=
            match alpha with
            | Scalar a => repeat a (array1_len rr)  (* np.ones_like(rr) * alpha *)
            | Alphas aa => aa
            end in
          match _coords_inside_image rr cc (shape0 img, shape1 img) alpha with
          | Raise e => Raise e
          | Ok (IntArray rr, IntArray cc, alpha) =>
              let vals :=
                map2 (fun rc a =>
                        (fst rc, snd rc,
                         as_float32
                           (blend (cell_at (cells img) (Z.to_nat (fst rc))
                                     (Z.to_nat (snd rc)))
                                  (r1, g1, b1, a1) a)))
                     (combine rr cc) alpha in
              if writeable img
              then Ok (mkArray (shape0 img) (shape1 img)
                         (assign vals (cells img)) true)
              else Raise ValueError
          | Ok _ => Raise IndexError                (* img[rr, cc] *)
          end
      | _ => Raise ValueError                       (* colour shape mismatch *)
      end
  | _ => Raise ValueError                           (* cannot unpack into rr, cc *)
  end.

(** [tuple(color)] *)
Definition color_tuple (c : Color) : list float :=
  let '(r, g, b, a) := c in [r; g; b; a].

(** A call of the static method on [self._matrix]. *)
Definition set_color_on_matrix (coords : list array1) (color : Color)
    (alpha : alpha_arg) : M t unit :=
  fun f => match _set_color (_matrix f) coords (color_tuple color) alpha with
           | Ok a => (Ok tt, with_matrix f a)
           | Raise e => (Raise e, f)
           end.

(** [get(row, col)]: [self._matrix[row][col]] as a colour.  [to_color]
    ([uchroma.util]) rebuilds the colour from the four channel values. *)
Definition get (row col : Z) : M t Color :=
  fun f =>
    match py_index (shape0 (_matrix f)) row with
    | Raise e => (Raise e, f)
    | Ok r =>
        match py_index (shape1 (_matrix f)) col with
        | Raise e => (Raise e, f)
        | Ok c => (Ok (cell_at (cells (_matrix f)) r c), f)
        end
    end.

(** [put(row, col, color)] *)
Definition put (row col : Z) (color : Color) : M t unit :=
  set_color_on_matrix [atleast_1d row; atleast_1d col] color (Scalar (Finite 1)).

Section Drawing.

(** The rasterisers of [skimage.draw] and [clamp] of [uchroma.util] are
    not among the sources and are taken as parameters.  A rasteriser
    returns parallel arrays of equal length; here it returns the list of
    points, which the caller splits into the arrays.  [circle] hands
    its centre and radius to the rasteriser as they come, so the circle
    rasterisers may raise; [line_aa] is called on clamped
    coordinates. *)
Variable draw_circle : Z -> Z -> Z -> nat * nat -> result (list (Z * Z)).
Variable draw_circle_perimeter_aa :
  Z -> Z -> Z -> nat * nat -> result (list (Z * Z * float)).
Variable draw_line_aa : Z -> Z -> Z -> Z -> list (Z * Z * float).
Variable clamp : Z -> Z -> Z -> Z.

Definition circle (row col : Z) (radius : float) (color : Color) (fill : bool)
    : M t unit :=
  fun f =>
    let shape := (shape0 (_matrix f), shape1 (_matrix f)) in
    match py_round radius with
    | Raise e => (Raise e, f)
    | Ok r =>
        if fill then
          match draw_circle row col r shape with
          | Raise e => (Raise e, f)
          | Ok pts =>
              set_color_on_matrix
                [IntArray (map fst pts); IntArray (map snd pts)]
                color (Scalar (Finite 1)) f
          end
        else
          match draw_circle_perimeter_aa row col r shape with
          | Raise e => (Raise e, f)
          | Ok pts =>
              set_color_on_matrix
                [IntArray (map (fun p => fst (fst p)) pts);
                 IntArray (map (fun p => snd (fst p)) pts)]
                color (Alphas (map snd pts)) f
          end
    end.

Definition line (row1 col1 row2 col2 : Z) (color : Color) : M t unit :=
  fun f =>
    let pts := draw_line_aa (clamp 0 (_height f) row1) (clamp 0 (_width f) col1)
                            (clamp 0 (_height f) row2) (clamp 0 (_width f) col2) in
    let rr := IntArray (map (fun p => fst (fst p)) pts) in
    let cc := IntArray (map (fun p => snd (fst p)) pts) in
    let aa := FloatArray (map snd pts) in
    set_color_on_matrix [rr; cc; aa] color (Alphas (map snd pts)) f.

End Drawing.

End Frame.

(** ** anim.py *)

Definition NUM_BUFFERS : nat := 2.

(** Python calls a method whose signature is [(self)] with the extra
    positional arguments the caller supplies; any such argument makes
    the call itself raise [TypeError] before the body runs. *)
Definition call_no_args {S A B} (method : M S A) (positional : list B) : M S A :=
  match positional with
  | [] => method
  | _ :: _ => raise TypeError
  end.

Module Layer.

(** Modelled from the spec: class [Layer] ([uchroma.layer]) is not among
    the sources.  The spec has it wrap a framebuffer and add a
    blend-mode tag and a binary lock flag; [lock], [clear] and the
    [blend_mode] attribute are what [anim.py] uses of it. *)
Record t : Type := mk {
  pixels : list (list rgba);
  blend_mode : option string;
  locked : bool
}.

Definition lock (b : bool) (l : t) : t := mk (pixels l) (blend_mode l) b.

Definition clear (l : t) : t :=
  mk (map (map (fun _ => rgba_zero)) (pixels l)) (blend_mode l) (locked l).

Definition set_blend_mode (m : option string) (l : t) : t :=
  mk (pixels l) m (locked l).

End Layer.

(** Layers and renderers are objects shared between the manager, the
    loop and the renderer tasks.  They live in stores and are referred
    to by their position there. *)
Definition layer_ref : Type := nat.
Definition renderer_ref : Type := nat.

Definition store_update {A} (i : nat) (f : A -> A) (l : list A) : list A :=
  match nth_error l i with
  | Some x => list_set i (f x) l
  | None => l
  end.

Module Renderer.

(** What a concrete renderer class supplies: what its constructor
    raises, if anything, what its [init] returns or raises, and whether
    its instances have a [name] attribute (the base class defines
    none). *)
Record klass : Type := mkClass {
  construct : list (string * string) -> option exn;
  init : result bool;
  has_name : bool
}.

(** A renderer object: the [asyncio.Queue]s are first-in first-out lists
    of layer references, bounded by [NUM_BUFFERS]. *)
Record t : Type := mk {
  class_of : klass;
  zorder : Z;
  _running : bool;
  _avail_q : list layer_ref;
  _active_q : list layer_ref
}.

(** [Renderer.__init__(driver, zorder)] *)
Definition new (k : klass) (z : Z) : t := mk k z false [] [].

Definition with_queues (r : t) (avail active : list layer_ref) : t :=
  mk (class_of r) (zorder r) (_running r) avail active.

Definition with_running (r : t) (b : bool) : t :=
  mk (class_of r) (zorder r) b (_avail_q r) (_active_q r).

(** [_free_layer(layer)]: unlock, clear, [put_nowait] on the free queue. *)
Definition _free_layer (layer : layer_ref) : M (list Layer.t * t) unit :=
  fun '(layers, r) =>
    let layers' :=
      store_update layer (fun l => Layer.clear (Layer.lock false l)) layers in
    if (length (_avail_q r) <? NUM_BUFFERS)%nat
    then (Ok tt, (layers', with_queues r (_avail_q r ++ [layer]) (_active_q r)))
    else (Raise QueueFull, (layers', r)).

Definition _flush (r : t) : t :=
  if _running r then r else with_queues r [] [].

Definition _stop (r : t) : t :=
  if negb (_running r) then r else _flush (with_running r false).

(** *** The coroutine [_run]

    The coroutine is suspended at one of its [yield from] points or has
    left the loop.  An event is one thing that happens next: a step of
    the coroutine past a suspension point, the compositor taking a
    finished layer ([_dequeue] and [_dequeue_nowait] do the same once a
    layer is there), or somebody calling [_stop]. *)
Inductive pc : Type :=
| NotStarted
| AtGet                       (* yield from self._avail_q.get() *)
| InDraw (layer : layer_ref)  (* yield from self.draw(layer, ...) *)
| AtPut (layer : layer_ref)   (* yield from self._active_q.put(layer) *)
| AtTick                      (* yield from self._tick.tick() *)
| Exited.

Inductive event : Type :=
| EvStart
| EvGet
| EvDrawReturn (status : bool)
| EvDrawRaise
| EvPut
| EvTick
| EvCompose
| EvStop.

(** One renderer, the layers, and the compositor's slot for it
    ([self._active_bufs[r_idx]] of the loop). *)
Record sys : Type := mkSys {
  layers : list Layer.t;
  rend : t;
  at_pc : pc;
  slot : option layer_ref
}.

Inductive outcome : Type :=
| Step (s : sys)
| Suspended                   (* the event cannot happen in this state *)
| Crashed (e : exn).

Definition step (ev : event) (s : sys) : outcome :=
  let r := rend s in
  match ev, at_pc s with
  | EvStart, NotStarted =>
      if _running r then Step (mkSys (layers s) r Exited (slot s))
      else Step (mkSys (layers s) (with_running r true) AtGet (slot s))
  | EvGet, AtGet =>
      match _avail_q r with
      | [] => Suspended
      | layer :: rest =>
          Step (mkSys (layers s) (with_queues r rest (_active_q r))
                  (InDraw layer) (slot s))
      end
  | EvDrawRaise, InDraw _ =>
      (* except Exception: break; then self._stop() *)
      Step (mkSys (layers s) (_stop r) Exited (slot s))
  | EvDrawReturn status, InDraw layer =>
      if negb (_running r) then
        Step (mkSys (layers s) (_stop r) Exited (slot s))
      else if status then
        Step (mkSys (store_update layer (Layer.lock true) (layers s)) r
                (AtPut layer) (slot s))
      else Step (mkSys (layers s) r AtTick (slot s))
  | EvPut, AtPut layer =>
      if (length (_active_q r) <? NUM_BUFFERS)%nat
      then Step (mkSys (layers s)
                   (with_queues r (_avail_q r) (_active_q r ++ [layer]))
                   AtTick (slot s))
      else Suspended
  | EvTick, AtTick =>
      if _running r then Step (mkSys (layers s) r AtGet (slot s))
      else Step (mkSys (layers s) (_stop r) Exited (slot s))
  | EvCompose, _ =>
      match _active_q r with
      | [] => Suspended
      | buf :: rest =>
          let r1 := with_queues r (_avail_q r) rest in
          match slot s with
          | None => Step (mkSys (layers s) r1 (at_pc s) (Some buf))
          | Some old =>
              match _free_layer old (layers s, r1) with
              | (Ok _, (layers', r2)) =>
                  Step (mkSys layers' r2 (at_pc s) (Some buf))
              | (Raise e, _) => Crashed e
              end
          end
      end
  | EvStop, _ => Step (mkSys (layers s) (_stop r) (at_pc s) (slot s))
  | _, _ => Suspended
  end.

(** A run: the events happen one after the other. *)
Fixpoint run (evs : list event) (s : sys) : option sys :=
  match evs with
  | [] => Some s
  | ev :: rest =>
      match step ev s with
      | Step s' => run rest s'
      | _ => None
      end
  end.

(** Layers still going round: in a queue, in the compositor's slot, or
    in the hands of the coroutine. *)
Definition held (p : pc) : nat :=
  match p with InDraw _ | AtPut _ => 1 | _ => 0 end.

Definition circulating (s : sys) : nat :=
  length (_avail_q (rend s)) + length (_active_q (rend s))
  + (match slot s with Some _ => 1 | None => 0 end) + held (at_pc s).

Definition is_draw_false (ev : event) : bool :=
  match ev with EvDrawReturn false => true | _ => false end.

Definition is_stop (ev : event) : bool :=
  match ev with EvStop => true | _ => false end.

Definition draws_false (evs : list event) : nat :=
  length (filter is_draw_false evs).

Definition no_stop (evs : list event) : Prop :=
  forallb (fun ev => negb (is_stop ev)) evs = true.

(** The renderer as [_create_buffers] leaves it: two fresh layers on the
    free queue, nothing submitted, the coroutine not yet started. *)
Definition after_create_buffers (k : klass) (z : Z) (layers : list Layer.t)
    (a b : layer_ref) : sys :=
  mkSys layers (mk k z false [a; b] []) NotStarted None.

(** *** Where the run loop stands

    Predicates on the states of a run, used to follow the layers. *)

(** While nobody calls [_stop], the coroutine is inside its loop only
    with the running flag set. *)
Definition inv (s : sys) : Prop :=
  _running (rend s) = true \/ at_pc s = Exited \/ at_pc s = NotStarted.

(** No layer is left anywhere and the coroutine is at, or about to
    reach, [self._avail_q.get()]. *)
Definition starved (s : sys) : Prop :=
  circulating s = 0%nat /\ _running (rend s) = true /\
  (at_pc s = AtTick \/ at_pc s = AtGet).

(** The state after [n] draws that returned [False], out of a pool of
    [NUM_BUFFERS] layers. *)
Definition after_false_draws (n : nat) (s : sys) : Prop :=
  inv s /\ (circulating s + n <= NUM_BUFFERS)%nat /\
  (n = NUM_BUFFERS -> starved s).

End Renderer.

(** The objects the loop and the manager share: the device's frame
    ([driver.frame_control]), the layers and the renderers. *)
Record World : Type := mkWorld {
  frame_control : Frame.t;
  layer_store : list Layer.t;
  renderer_store : list Renderer.t
}.

Definition on_frame {A} (m : M Frame.t A) : M World A :=
  fun w => let '(r, f) := m (frame_control w) in
           (r, mkWorld f (layer_store w) (renderer_store w)).

(** A method call on the renderer object at [a]. *)
Definition on_renderer {A} (a : renderer_ref)
    (m : M (list Layer.t * Renderer.t) A) : M World A :=
  fun w =>
    match nth_error (renderer_store w) a with
    | None => (Raise AttributeError, w)
    | Some r =>
        let '(res, (layers', r')) := m (layer_store w, r) in
        (res, mkWorld (frame_control w) layers'
                (list_set a r' (renderer_store w)))
    end.

(** Lift a method of one object to a pair of objects. *)
Definition on_fst {S T A} (m : M S A) : M (S * T) A :=
  fun '(s, t) => let '(r, s') := m s in (r, (s', t)).

Definition on_snd {S T A} (m : M T A) : M (S * T) A :=
  fun '(s, t) => let '(r, t') := m t in (r, (s, t')).

Inductive waiter : Type := Pending | Done.

Module AnimationLoop.

(** The loop's attributes.  [_frame] is the world's [frame_control] and
    [_renderers] holds references to the shared renderer objects;
    [_anim_task] records whether the main task has been scheduled. *)
Record t : Type := mk {
  _renderers : list renderer_ref;
  _default_blend_mode : option string;
  _running : bool;
  _anim_task : bool;
  _error : bool;
  _waiters : list (option waiter);
  _active_bufs : list (option layer_ref)
}.

(** [AnimationLoop.__init__(frame, *renderers, default_blend_mode)] *)
Definition new (renderers : list renderer_ref) (blend : option string) : t :=
  mk renderers blend false false false [] [].

Definition set_running (b : bool) : M t unit :=
  fun l => (Ok tt, mk (_renderers l) (_default_blend_mode l) b (_anim_task l)
                      (_error l) (_waiters l) (_active_bufs l)).

Definition set_anim_task (b : bool) : M t unit :=
  fun l => (Ok tt, mk (_renderers l) (_default_blend_mode l) (_running l) b
                      (_error l) (_waiters l) (_active_bufs l)).

Definition set_bookkeeping (ws : list (option waiter))
    (bufs : list (option layer_ref)) : M t unit :=
  fun l => (Ok tt, mk (_renderers l) (_default_blend_mode l) (_running l)
                      (_anim_task l) (_error l) ws bufs).

(** [_commit_layers]: [self._frame.commit(self._active_bufs)], and
    [Frame.commit] is declared as [commit(self)]. *)
Definition _commit_layers : M (World * t) unit :=
  fun '(w, l) =>
    on_fst (on_frame (call_no_args Frame.commit [_active_bufs l])) (w, l).

(** The part of one pass of the [while] loop of [_animate] that follows
    [_get_layers]: [true] when the loop goes on, [false] on [break]. *)
Definition compose_and_display : M (World * t) bool :=
  fun '(w, l) =>
    if negb (_running l) || _error l then (Ok false, (w, l))
    else (_commit_layers ;; ret true) (w, l).

(** [_dequeue_nowait(r_idx)] *)
Definition _dequeue_nowait (r_idx : nat) : M (World * t) bool :=
  fun '(w, l) =>
    if negb (_running l) || (length (_renderers l) <=? r_idx)%nat
    then (Ok false, (w, l))
    else
      let a := nth r_idx (_renderers l) 0%nat in
      match nth_error (renderer_store w) a with
      | None => (Raise AttributeError, (w, l))
      | Some r =>
          match Renderer._active_q r with
          | [] => (Ok false, (w, l))
          | buf :: rest =>
              let w1 :=
                mkWorld (frame_control w) (layer_store w)
                  (list_set a (Renderer.with_queues r (Renderer._avail_q r) rest)
                     (renderer_store w)) in
              match nth_error (_active_bufs l) r_idx with
              | None => (Raise IndexError, (w1, l))
              | Some old =>
                  let '(res, w2) :=
                    match old with
                    | Some o => on_renderer a (Renderer._free_layer o) w1
                    | None => (Ok tt, w1)
                    end in
                  match res with
                  | Raise e => (Raise e, (w2, l))
                  | Ok _ =>
                      (Ok true,
                       (w2, mk (_renderers l) (_default_blend_mode l)
                              (_running l) (_anim_task l) (_error l)
                              (_waiters l)
                              (list_set r_idx (Some buf) (_active_bufs l))))
                  end
              end
          end
      end.

Section WithFrame.

Variable rgba2rgb : Frame.Color -> rgba -> list byte.

(** [Frame.create_layer] is what [_create_buffers] calls on the frame;
    [frame.py] defines no such method.  It is taken as a parameter that
    returns a new layer or raises; on the class in [frame.py] the
    attribute lookup raises [AttributeError]. *)
Variable create_layer : Frame.t -> result Layer.t.

(** The body of [for buf in range(0, NUM_BUFFERS)] for the renderer at
    [a], repeated [n] times. *)
Fixpoint give_layers (blend : option string) (a : renderer_ref) (n : nat)
    : M World unit :=
  match n with
  | O => ret tt
  | S n' =>
      (fun w =>
         match create_layer (frame_control w) with
         | Raise e => (Raise e, w)
         | Ok layer =>
             let ref := length (layer_store w) in
             let w' := mkWorld (frame_control w)
                         (layer_store w ++ [Layer.set_blend_mode blend layer])
                         (renderer_store w) in
             on_renderer a (Renderer._free_layer ref) w'
         end) ;;
      give_layers blend a n'
  end.

(** The body of [for r_idx in range(0, len(self._renderers))]. *)
Fixpoint load_renderers (blend : option string) (rs : list renderer_ref)
    : M World unit :=
  match rs with
  | [] => ret tt
  | a :: rest =>
      on_renderer a (fun '(ls, r) => (Ok tt, (ls, Renderer._flush r))) ;;
      give_layers blend a NUM_BUFFERS ;;
      load_renderers blend rest
  end.

Definition _create_buffers : M (World * t) unit :=
  fun '(w, l) =>
    let n := length (_renderers l) in
    (on_snd (set_bookkeeping (repeat None n) (repeat None n)) ;;
     on_fst (load_renderers (_default_blend_mode l) (_renderers l))) (w, l).

(** [AnimationLoop.start] *)
Definition start : M (World * t) bool :=
  fun '(w, l) =>
    if _running l then (Ok false, (w, l))
    else if (length (_renderers l) =? 0)%nat then (Ok false, (w, l))
    else
      (on_fst (on_frame (Frame.reset rgba2rgb None)) ;;
       on_snd (set_running true) ;;
       _create_buffers ;;
       on_snd (set_anim_task true) ;;
       ret true) (w, l).

End WithFrame.

End AnimationLoop.

Module AnimationManager.

(** The manager's traits and attributes.  [renderer_info] is the ordered
    dictionary from a renderer's key to its class. *)
Record t : Type := mk {
  renderers : list renderer_ref;
  renderer_info : list (string * Renderer.klass);
  running : bool;
  _loop : option AnimationLoop.t
}.

Fixpoint lookup (name : string) (d : list (string * Renderer.klass))
    : option Renderer.klass :=
  match d with
  | [] => None
  | (k, v) :: rest => if String.eqb name k then Some v else lookup name rest
  end.

Definition set_renderers (rs : list renderer_ref) : M t unit :=
  fun m => (Ok tt, mk rs (renderer_info m) (running m) (_loop m)).

Definition set_running (b : bool) : M t unit :=
  fun m => (Ok tt, mk (renderers m) (renderer_info m) b (_loop m)).

(** [_get_renderer(name, **traits)]: the new object, or [None]. *)
Definition _get_renderer (name : string) (traits : list (string * string))
    : M (World * t) (option renderer_ref) :=
  fun '(w, m) =>
    match lookup name (renderer_info m) with
    | None => (Ok None, (w, m))
    | Some info =>
        let zorder := Z.of_nat (length (renderers m)) in
        match Renderer.construct info traits with
        | None =>
            let ref := length (renderer_store w) in
            (Ok (Some ref),
             (mkWorld (frame_control w) (layer_store w)
                (renderer_store w ++ [Renderer.new info zorder]), m))
        | Some ImportError => (Ok None, (w, m))
        | Some e => (Raise e, (w, m))
        end
    end.

(** [add_renderer(name, **traits)] *)
Definition add_renderer (name : string) (traits : list (string * string))
    : M (World * t) Z :=
  r <- _get_renderer name traits ;;
  match r with
  | None => ret (-1)
  | Some ref =>
      fun '(w, m) =>
        match nth_error (renderer_store w) ref with
        | None => (Raise AttributeError, (w, m))
        | Some renderer =>
            match Renderer.init (Renderer.class_of renderer) with
            | Raise e => (Raise e, (w, m))
            | Ok false =>
                (* the log call reads renderer.name *)
                if Renderer.has_name (Renderer.class_of renderer)
                then (Ok (-1), (w, m))
                else (Raise AttributeError, (w, m))
            | Ok true =>
                (on_snd (set_renderers (renderers m ++ [ref])) ;;
                 ret (Renderer.zorder renderer)) (w, m)
            end
        end
  end.

(** [clear_renderers] *)
Definition clear_renderers : M t bool :=
  fun m => if running m then (Ok false, m)
           else (set_renderers [] ;; ret true) m.

Section WithFrame.

Variable rgba2rgb : Frame.Color -> rgba -> list byte.
Variable create_layer : Frame.t -> result Layer.t.

(** [start(blend_mode)] *)
Definition start (blend_mode : option string) : M (World * t) bool :=
  fun '(w, m) =>
    if running m then (Ok false, (w, m))
    else if (length (renderers m) =? 0)%nat then (Ok false, (w, m))
    else
      let loop := AnimationLoop.new (renderers m) blend_mode in
      let '(res, (w', loop')) :=
        AnimationLoop.start rgba2rgb create_layer (w, loop) in
      let m' := mk (renderers m) (renderer_info m) (running m) (Some loop') in
      match res with
      | Raise e => (Raise e, (w', m'))
      | Ok true =>
          (Ok true, (w', mk (renderers m) (renderer_info m) true (Some loop')))
      | Ok false => (Ok false, (w', m'))
      end.

End WithFrame.

End AnimationManager.

(** ** Vocabulary of the statements *)

(** The transactions of the rows [rows] of the image [img]. *)
Definition transactions_of (frame_id width height : Z) (tid : option Z)
    (img : list (list (list byte))) (rows : list Z) : list Transaction :=
  map (fun row => Frame.row_transaction frame_id width height tid row
                    (nth (Z.to_nat row) img [])) rows.

(** The transaction tag the quirk selects. *)
Definition matrix_tid (d : Driver) : option Z :=
  if quirk_custom_frame_80 d then Some 128 else None.

(** The frame with its matrix marked read-only, and writable again. *)
Definition read_only (f : Frame.t) : Frame.t :=
  Frame.with_matrix f (setflags false (Frame._matrix f)).

Definition writable (f : Frame.t) : Frame.t :=
  Frame.with_matrix f (setflags true (Frame._matrix f)).

(** [prepare(frame_id)] followed by [commit()]. *)
Definition prepare_then_commit (rgba2rgb : Frame.Color -> rgba -> list byte)
    (frame_id : option Z) : M Frame.t unit :=
  Frame.prepare rgba2rgb frame_id ;; Frame.commit.

(** The cells [fill(0)] leaves. *)
Definition zeroed (cs : list (list rgba)) : list (list rgba) :=
  map (map (fun _ => rgba_zero)) cs.

(** The bytes of the first [width] pixels of a row of the matrix, pixel
    after pixel in column order. *)
Definition row_payload (rgba2rgb : Frame.Color -> rgba -> list byte)
    (base : Frame.Color) (width : Z) (row : list rgba) : list byte :=
  concat (firstn (Z.to_nat width) (map (rgba2rgb base) row)).

(** The calls serialising the frame makes when none is refused: one for
    the sole row of a frame of height 1, otherwise one per row, top to
    bottom. *)
Definition frame_data_calls (rgba2rgb : Frame.Color -> rgba -> list byte)
    (frame_id : option Z) (f : Frame.t) : list Transaction :=
  let fid := match frame_id with Some i => i | None => 255 end in
  let width := Z.min (Frame._width f) 24 in
  let payload i :=
    row_payload rgba2rgb (Frame._base_color f) width
      (nth i (cells (Frame._matrix f)) []) in
  if Frame._height f =? 1
  then [mkTransaction SET_FRAME_DATA_SINGLE
          [Int 0; Int width; Bytes (payload 0%nat)] (Some 128) None]
  else map (fun row =>
              mkTransaction SET_FRAME_DATA_MATRIX
                [Int fid; Int row; Int 0; Int width;
                 Bytes (payload (Z.to_nat row))]
                (matrix_tid (Frame._driver f))
                (Some (Frame._height f - row - 1)))
           (py_range (Frame._height f)).

(** The flip-to-display call of [commit]. *)
Definition flip_call : Transaction := mkTransaction CUSTOM_FRAME [] None None.

(** The transport accepts the first [k] of the calls [ts], made one
    after the other. *)
Definition accepts_first (d : Driver) (ts : list Transaction) (k : nat) : Prop :=
  forall j u,
    (j < k)%nat -> nth_error ts j = Some u ->
    respond d (issued d ++ firstn j ts) u = None.

(** The calls [ts] made one after the other, up to the first one the
    transport refuses. *)
Fixpoint run_calls (ts : list Transaction) : M Driver unit :=
  match ts with
  | [] => ret tt
  | t :: rest => run_command t ;; run_calls rest
  end.

(** The frame after the calls [ts], with the matrix [m]. *)
Definition frame_after (f : Frame.t) (ts : list Transaction) (m : ndarray)
    : Frame.t :=
  Frame.mk (sends (Frame._driver f) ts) (Frame._width f) (Frame._height f) m
    (Frame._base_color f).

(** The matrix of [f], writable, with the cells it has and with all
    cells zero. *)
Definition matrix_kept (f : Frame.t) : ndarray :=
  mkArray (shape0 (Frame._matrix f)) (shape1 (Frame._matrix f))
    (cells (Frame._matrix f)) true.

Definition matrix_cleared (f : Frame.t) : ndarray :=
  mkArray (shape0 (Frame._matrix f)) (shape1 (Frame._matrix f))
    (zeroed (cells (Frame._matrix f))) true.

(** A point carries its row, its column and a value. *)
Definition row_of {V} (p : Z * Z * V) : Z := fst (fst p).

Definition col_of {V} (p : Z * Z * V) : Z := snd (fst p).

(** The test [_coords_inside_image] makes on one coordinate pair. *)
Definition inside (shape : nat * nat) {V} (p : Z * Z * V) : bool :=
  ((0 <=? row_of p) && (row_of p <? Z.of_nat (fst shape)))
  && ((0 <=? col_of p) && (col_of p <? Z.of_nat (snd shape))).

(** The cells [_set_color] writes for the points [pts]: only the points
    inside the image are blended and assigned. *)
Definition drawn (img : ndarray) (color : rgba) (pts : list (Z * Z * float))
    : list (list rgba) :=
  Frame.assign
    (map (fun p =>
            (row_of p, col_of p,
             Frame.as_float32
               (Frame.blend (Frame.cell_at (cells img) (Z.to_nat (row_of p))
                               (Z.to_nat (col_of p)))
                            color (snd p))))
         (filter (inside (shape0 img, shape1 img)) pts))
    (cells img).

(** The points [circle] hands to [_set_color], with their coverage,
    given the two rasterisers and the rounded radius. *)
Definition circle_points
    (draw_circle : Z -> Z -> Z -> nat * nat -> result (list (Z * Z)))
    (draw_circle_perimeter_aa :
       Z -> Z -> Z -> nat * nat -> result (list (Z * Z * float)))
    (f : Frame.t) (row col r : Z) (fill : bool)
    : result (list (Z * Z * float)) :=
  let shape := (shape0 (Frame._matrix f), shape1 (Frame._matrix f)) in
  if fill
  then match draw_circle row col r shape with
       | Ok pts => Ok (map (fun p => (p, Finite 1)) pts)
       | Raise e => Raise e
       end
  else draw_circle_perimeter_aa row col r shape.

(** ** Concrete frames, transports, renderers and managers *)

(** A stand-in for [rgba2rgb]: three bytes per pixel, [xff] where the
    channel is not zero. *)
Definition sample_rgba2rgb (base : Frame.Color) (px : rgba) : list byte :=
  let '(r, g, b, _) := px in
  map (fun x => match x with
                | Finite q => if is_zero q then x00 else xff
                | _ => xff
                end) [r; g; b].

(** A transport that accepts everything and one that refuses the second
    write. *)
Definition quiet_driver : Driver := mkDriver false (fun _ _ => None) [].

Definition flaky_driver : Driver :=
  mkDriver true
    (fun log _ => if (length log =? 1)%nat then Some (DeviceError 5) else None)
    [].

(** A machine with room for every array, and one with room for a
    thousand cells. *)
Definition roomy : allocator := fun _ _ => None.

Definition cramped : allocator :=
  fun height width => if 1000 <? height * width then Some MemoryError else None.

(** The frame [Frame(driver, width, height)] builds. *)
Definition blank (d : Driver) (width height : Z) : Frame.t :=
  Frame.mk d width height
    (mkArray (Z.to_nat height) (Z.to_nat width)
       (repeat (repeat rgba_zero (Z.to_nat width)) (Z.to_nat height)) true)
    Frame.black.

Definition red : Frame.Color := (Finite 1, Finite 0, Finite 0, Finite 1).

(** A 1x1 frame whose only pixel is red. *)
Definition red_pixel : Frame.t :=
  Frame.mk quiet_driver 1 1 (mkArray 1 1 [[red]] true) Frame.black.

(** A renderer class whose constructor and [init] succeed and which,
    like the base class, has no [name]. *)
Definition plasma : Renderer.klass := Renderer.mkClass (fun _ => None) (Ok true) false.

Definition blank_layer : Layer.t :=
  Layer.mk (repeat (repeat rgba_zero 2) 3) None false.

(** A renderer with its two layers whose first two draws return
    [False]. *)
Definition two_false_draws : list Renderer.event :=
  [Renderer.EvStart;
   Renderer.EvGet; Renderer.EvDrawReturn false; Renderer.EvTick;
   Renderer.EvGet; Renderer.EvDrawReturn false].

Definition fresh_renderer : Renderer.sys :=
  Renderer.after_create_buffers plasma 0 [blank_layer; blank_layer] 0%nat 1%nat.

Definition drawing_first : Renderer.sys :=
  Renderer.mkSys [blank_layer; blank_layer]
    (Renderer.mk plasma 0 true [1%nat] []) (Renderer.InDraw 0%nat) None.

Definition out_of_layers : Renderer.sys :=
  Renderer.mkSys [blank_layer; blank_layer]
    (Renderer.mk plasma 0 true [] []) Renderer.AtTick None.

(** A world with one renderer, and a manager that knows it. *)
Definition one_renderer_world : World :=
  mkWorld (blank quiet_driver 2 3) [] [Renderer.new plasma 0].

Definition idle_manager : AnimationManager.t :=
  AnimationManager.mk [0%nat] [("uchroma.fxlib.Plasma"%string, plasma)] false None.

Definition running_manager : AnimationManager.t :=
  AnimationManager.mk [0%nat] [("uchroma.fxlib.Plasma"%string, plasma)] true
    (Some (AnimationLoop.mk [0%nat] None true true false [None] [None])).

(** [frame.py] defines no [create_layer]: looking it up raises. *)
Definition no_create_layer (f : Frame.t) : result Layer.t := Raise AttributeError.

(** A frame class that does hand out layers. *)
Definition some_create_layer (f : Frame.t) : result Layer.t := Ok blank_layer.

(** ** Floats in the statements *)

(** A value a Python float can hold, and one a [float32] cell can hold:
    a finite value is one the format represents. *)
Definition is_float64 (x : float) : Prop :=
  match x with
  | Finite q => round_to binary64 q = Finite (Qred q)
  | _ => True
  end.

Definition is_float32 (x : float) : Prop :=
  match x with
  | Finite q => round_to binary32 q = Finite (Qred q)
  | _ => True
  end.

Definition is_finite (x : float) : Prop :=
  match x with Finite _ => True | _ => False end.

Definition all_channels (P : float -> Prop) (c : rgba) : Prop :=
  let '(r, g, b, a) := c in P r /\ P g /\ P b /\ P a.

(** What a write at coverage 1 leaves in a channel that held [old]: the
    written value as a [float32], unless the cell held an infinity or
    NaN, which times zero is NaN. *)
Definition overwritten (old c : float) : float :=
  match old with
  | Finite _ => to_float32 c
  | _ => NaN
  end.

Definition overwritten_cell (old c : rgba) : rgba :=
  let '(r0, g0, b0, a0) := old in
  let '(r1, g1, b1, a1) := c in
  (overwritten r0 r1, overwritten g0 g1, overwritten b0 b1, overwritten a0 a1).

(** The Python float [0.1] and a colour with that much red. *)
Definition one_tenth : float := Finite (3602879701896397 # 36028797018963968).

Definition faint_red : Frame.Color := (one_tenth, Finite 0, Finite 0, Finite 1).

(** ** Further vocabulary *)

(** Two frames that differ at most in the columns from [MAX_WIDTH] on. *)
Definition same_first_columns (f1 f2 : Frame.t) : Prop :=
  Frame._driver f1 = Frame._driver f2 /\
  Frame._width f1 = Frame._width f2 /\
  Frame._height f1 = Frame._height f2 /\
  Frame._base_color f1 = Frame._base_color f2 /\
  map (firstn (Z.to_nat Frame.MAX_WIDTH)) (cells (Frame._matrix f1))
  = map (firstn (Z.to_nat Frame.MAX_WIDTH)) (cells (Frame._matrix f2)).

(** Stand-ins for the rasterisers: the centre and the four points at
    distance [radius] along the axes, wherever they fall. *)
Definition sample_points (row col radius : Z) : list (Z * Z) :=
  [(row, col); (row + radius, col); (row - radius, col);
   (row, col + radius); (row, col - radius)].

Definition sample_circle (row col radius : Z) (shape : nat * nat)
    : result (list (Z * Z)) :=
  Ok (sample_points row col radius).

Definition sample_perimeter (row col radius : Z) (shape : nat * nat)
    : result (list (Z * Z * float)) :=
  Ok (map (fun p => (p, Finite (1 # 2))) (sample_points row col radius)).

(** Two images whose rows give the same bytes once cut to [width]. *)
Definition same_row_bytes (width : Z) (img1 img2 : list (list (list byte)))
    : Prop :=
  forall i, option_map (Frame.row_bytes width) (nth_error img1 i)
            = option_map (Frame.row_bytes width) (nth_error img2 i).

(** A frame of two rows and 26 columns, blank but for its last cell. *)
Definition wide_frame (last : rgba) : Frame.t :=
  Frame.mk quiet_driver 26 2
    (mkArray 2 26 [repeat rgba_zero 26; repeat rgba_zero 25 ++ [last]] true)
    Frame.black.

(** *** Where the layers are

    The lock flag of the layer at a reference, the places a layer can
    be in (the two queues, the compositor's slot, the hands of the
    coroutine), and the lock flag each place calls for: free and being
    drawn are unlocked, submitted and composited are locked. *)
Definition lock_state (layers : list Layer.t) (l : layer_ref) : option bool :=
  option_map Layer.locked (nth_error layers l).

Definition slot_layer (o : option layer_ref) : list layer_ref :=
  match o with Some l => [l] | None => [] end.

Definition held_layer (p : Renderer.pc) : list layer_ref :=
  match p with Renderer.InDraw l | Renderer.AtPut l => [l] | _ => [] end.

Definition places (s : Renderer.sys) : list layer_ref :=
  Renderer._avail_q (Renderer.rend s) ++ Renderer._active_q (Renderer.rend s)
  ++ slot_layer (Renderer.slot s) ++ held_layer (Renderer.at_pc s).

Definition expected_locks (s : Renderer.sys) : list (layer_ref * bool) :=
  map (fun l => (l, false)) (Renderer._avail_q (Renderer.rend s))
  ++ map (fun l => (l, true)) (Renderer._active_q (Renderer.rend s))
  ++ map (fun l => (l, true)) (slot_layer (Renderer.slot s))
  ++ match Renderer.at_pc s with
     | Renderer.InDraw l => [(l, false)]
     | Renderer.AtPut l => [(l, true)]
     | _ => []
     end.

Definition exclusive (s : Renderer.sys) : Prop :=
  NoDup (places s) /\
  Forall (fun p => lock_state (Renderer.layers s) (fst p) = Some (snd p))
    (expected_locks s).

(** ** More of anim.py: stopping *)

(** [AnimationLoop.stop]: the coroutine [_stop] it schedules runs later,
    so the call itself leaves the loop's attributes as they are. *)
Definition AnimationLoop_stop : M AnimationLoop.t bool :=
  fun l => if negb (AnimationLoop._running l) then (Ok false, l)
           else (Ok true, l).

(** [AnimationManager.stop] *)
Definition AnimationManager_stop : M AnimationManager.t bool :=
  fun m =>
    if negb (AnimationManager.running m) then (Ok false, m)
    else
      match AnimationManager._loop m with
      | None => (Raise AttributeError, m)
      | Some loop =>
          match AnimationLoop_stop loop with
          | (Ok true, loop') =>
              (Ok true,
               AnimationManager.mk (AnimationManager.renderers m)
                 (AnimationManager.renderer_info m) false (Some loop'))
          | (Ok false, loop') =>
              (Ok false,
               AnimationManager.mk (AnimationManager.renderers m)
                 (AnimationManager.renderer_info m)
                 (AnimationManager.running m) (Some loop'))
          | (Raise e, loop') =>
              (Raise e,
               AnimationManager.mk (AnimationManager.renderers m)
                 (AnimationManager.renderer_info m)
                 (AnimationManager.running m) (Some loop'))
          end
      end.

(** Every configured renderer sits at the position its z-order names. *)
Definition zorder_ok (w : World) (m : AnimationManager.t) : Prop :=
  forall i ref,
    nth_error (AnimationManager.renderers m) i = Some ref ->
    option_map Renderer.zorder (nth_error (renderer_store w) ref)
    = Some (Z.of_nat i).

(** The renderers at [rs] exist, are all different and none is running. *)
Definition idle_renderers (w : World) (rs : list renderer_ref) : Prop :=
  NoDup rs /\
  forall a, In a rs ->
    option_map Renderer._running (nth_error (renderer_store w) a) = Some false.

(** A layer as [_create_buffers] hands it to a renderer: tagged with
    the default blend mode, then unlocked and cleared by [_free_layer]. *)
Definition handed_out (blend : option string) (layer : Layer.t) : Layer.t :=
  Layer.clear (Layer.lock false (Layer.set_blend_mode blend layer)).

(** A running loop over the one renderer of [renderer_store], which has
    one finished layer waiting, and the slot still empty. *)
Definition finished_world : World :=
  mkWorld (blank quiet_driver 2 3) [blank_layer; blank_layer]
    [Renderer.mk plasma 0 true [1%nat] [0%nat]].

Definition running_loop : AnimationLoop.t :=
  AnimationLoop.mk [0%nat] None true true false [None] [None].

(** A renderer that is still running, with one layer on its free queue. *)
Definition busy_world : World :=
  mkWorld (blank quiet_driver 2 3) [blank_layer]
    [Renderer.mk plasma 0 true [0%nat] []].

(** ** More of frame.py: the frame's own animation task *)

Module Animation.

(** The task [asyncio.ensure_future] returns, as far as [cancel] tells
    states apart. *)
Inductive task : Type := Scheduled | Cancelled | Finished.

(** [task.cancel()] *)
Definition cancel (k : task) : task :=
  match k with
  | Scheduled => Cancelled
  | other => other
  end.

(** A [Frame] with the attributes that pace its animation task.
    [defer_close] is the attribute of that name on the driver. *)
Record t : Type := mk {
  frame : Frame.t;
  _fps : float;
  _running : bool;
  _anim_task : option task;
  defer_close : bool
}.

Definition DEFAULT_FPS : Z := 30.

(** [1.0 / fps] for a Python integer [fps]: the integer is converted to
    a float, then divided. *)
Definition frame_period (fps : Z) : result float :=
  match float_of_int fps with
  | Raise e => Raise e
  | Ok x => py_truediv (Finite 1) x
  end.

(** The attributes [Frame.__init__] sets, with [fps] left out, around a
    frame it built. *)
Definition of_frame (f : Frame.t) (defer : bool) : t :=
  mk f (round_to binary64 (1 # 30)) false None defer.

Definition on_frame {A} (m : M Frame.t A) : M t A :=
  fun a => let '(r, f) := m (frame a) in
           (r, mk f (_fps a) (_running a) (_anim_task a) (defer_close a)).

Definition set_fps (q : float) : M t unit :=
  fun a => (Ok tt, mk (frame a) q (_running a) (_anim_task a) (defer_close a)).

Definition set_running (b : bool) : M t unit :=
  fun a => (Ok tt, mk (frame a) (_fps a) b (_anim_task a) (defer_close a)).

Definition set_anim_task (k : option task) : M t unit :=
  fun a => (Ok tt, mk (frame a) (_fps a) (_running a) k (defer_close a)).

Definition set_defer_close (b : bool) : M t unit :=
  fun a => (Ok tt, mk (frame a) (_fps a) (_running a) (_anim_task a) b).

(** [self._anim_task.cancel()] *)
Definition cancel_anim_task : M t unit :=
  fun a => match _anim_task a with
           | None => (Raise AttributeError, a)
           | Some k => set_anim_task (Some (cancel k)) a
           end.

Section WithEncoder.

Variable rgba2rgb : Frame.Color -> rgba -> list byte.

(** [start_animation(fps)], for [fps] left out or an integer. *)
Definition start_animation (fps : option Z) : M t unit :=
  fun a =>
    if _running a then (Ok tt, a)
    else
      (q <- (fun a' => (frame_period (match fps with
                                      | None => DEFAULT_FPS
                                      | Some n => n
                                      end), a')) ;;
       set_fps q ;;
       set_defer_close true ;;
       on_frame (Frame.reset rgba2rgb None) ;;
       set_running true ;;
       set_anim_task (Some Scheduled)) a.

(** [stop_animation()] *)
Definition stop_animation : M t unit :=
  fun a =>
    if _running a then
      (set_running false ;;
       cancel_anim_task ;;
       on_frame (Frame.reset rgba2rgb None) ;;
       set_defer_close false) a
    else (Ok tt, a).

End WithEncoder.

End Animation.

(** The frame period [start_animation(fps)] computes first: [1.0 / fps],
    with the default rate when [fps] is left out. *)
Definition requested_period (fps : option Z) : result float :=
  Animation.frame_period
    match fps with
    | None => Animation.DEFAULT_FPS
    | Some n => n
    end.

(** An animation around the blank 2x3 frame, before [start_animation]. *)
Definition still_animation : Animation.t :=
  Animation.of_frame (blank quiet_driver 2 3) false.

(** The same around a frame whose transport refuses the second write. *)
Definition flaky_animation : Animation.t :=
  Animation.of_frame (blank flaky_driver 2 3) false.

(** * Properties *)

(** ** The encoder *)

Section EncoderFacts.

Variable rgba2rgb : Frame.Color -> rgba -> list byte.

Lemma sends_nil d : sends d [] = d.
Proof. destruct d; unfold sends; simpl. now rewrite app_nil_r. Qed.

Lemma sends_sends d ts us : sends (sends d ts) us = sends d (ts ++ us).
Proof. unfold sends; simpl. now rewrite app_assoc. Qed.

Lemma accepts_sends d ts : accepts d -> accepts (sends d ts).
Proof. intros H log t. apply H. Qed.

Lemma with_driver_same f : Frame.with_driver f (Frame._driver f) = f.
Proof. now destruct f. Qed.

Lemma with_driver_twice f d1 d2 :
  Frame.with_driver (Frame.with_driver f d1) d2 = Frame.with_driver f d2.
Proof. reflexivity. Qed.

Lemma py_range_length n : length (py_range n) = Z.to_nat n.
Proof. unfold py_range. now rewrite length_map, length_seq. Qed.

Lemma py_range_nth n i :
  (i < Z.to_nat n)%nat -> nth_error (py_range n) i = Some (Z.of_nat i).
Proof.
  intros Hi. unfold py_range.
  rewrite nth_error_map, nth_error_seq.
  destruct (Nat.ltb_spec i (Z.to_nat n)) as [_|Hge]; [reflexivity | lia].
Qed.

(** On an accepting transport the loop sends the transaction of every
    row it is given, in order. *)
Lemma send_rows_accepted frame_id width height tid img :
  forall n a f,
    accepts (Frame._driver f) ->
    (a + n <= length img)%nat ->
    Frame.send_rows frame_id width height tid img
      (map Z.of_nat (seq a n)) f
    = (Ok tt,
       Frame.with_driver f
         (sends (Frame._driver f)
            (transactions_of frame_id width height tid img
               (map Z.of_nat (seq a n))))).
Proof.
  induction n as [|n IH]; intros a f Hacc Hlen; simpl.
  - unfold ret. now rewrite sends_nil, with_driver_same.
  - unfold bind at 1. rewrite Nat2Z.id.
    destruct (nth_error img a) as [r|] eqn:Hr.
    2:{ apply nth_error_None in Hr. lia. }
    unfold Frame.driver_call, run_command. rewrite (Hacc _ _).
    fold (sends (Frame._driver f)
            [Frame.row_transaction frame_id width height tid (Z.of_nat a) r]).
    rewrite IH; [ | now apply accepts_sends | simpl; lia ].
    simpl Frame._driver. rewrite with_driver_twice, sends_sends.
    simpl. now rewrite (nth_error_nth _ _ _ Hr).
Qed.

Lemma as_img_length f :
  length (Frame._as_img rgba2rgb f) = length (cells (Frame._matrix f)).
Proof. unfold Frame._as_img. now rewrite length_map. Qed.

Lemma as_img_nth f i :
  nth i (Frame._as_img rgba2rgb f) []
  = map (rgba2rgb (Frame._base_color f)) (nth i (cells (Frame._matrix f)) []).
Proof.
  unfold Frame._as_img.
  now rewrite <- (map_nth (map (rgba2rgb (Frame._base_color f)))).
Qed.

(** C1.  A frame of height H > 1 and width W is serialised in matrix
    mode: on a transport that accepts the writes, [_set_frame_data]
    makes exactly H calls, the call at position [row] is the one for row
    [row] (ascending), it carries start column 0, column count
    min(W, 24) and the bytes of that row, and its [remaining_packets] is
    H - row - 1; these counts strictly decrease and are 0 on the last
    row. *)
Theorem matrix_mode_one_transaction_per_row (f : Frame.t) (frame_id : option Z) :
  Frame.shape_ok f ->
  1 < Frame._height f ->
  accepts (Frame._driver f) ->
  let H := Frame._height f in
  let width := Z.min (Frame._width f) 24 in
  let fid := match frame_id with Some i => i | None => 255 end in
  exists txns,
    Frame._set_frame_data rgba2rgb frame_id f
    = (Ok tt, Frame.with_driver f (sends (Frame._driver f) txns)) /\
    length txns = Z.to_nat H /\
    (forall row, 0 <= row < H ->
       nth_error txns (Z.to_nat row)
       = Some (mkTransaction SET_FRAME_DATA_MATRIX
                 [Int fid; Int row; Int 0; Int width;
                  Bytes (Frame.row_bytes width
                           (map (rgba2rgb (Frame._base_color f))
                              (nth (Z.to_nat row) (cells (Frame._matrix f)) [])))]
                 (matrix_tid (Frame._driver f))
                 (Some (H - row - 1)))) /\
    (forall i j ti tj,
       (i < j)%nat ->
       nth_error txns i = Some ti -> nth_error txns j = Some tj ->
       exists ri rj,
         remaining_packets ti = Some ri /\ remaining_packets tj = Some rj /\
         rj < ri) /\
    option_map remaining_packets (nth_error txns (Z.to_nat (H - 1)))
    = Some (Some 0).
Proof.
  intros (HH & HW & Hs0 & Hs1 & Hlen & Hrows) Hgt Hacc H width fid.
  set (tid := matrix_tid (Frame._driver f)).
  set (img := Frame._as_img rgba2rgb f).
  exists (transactions_of fid width H tid img (py_range H)).
  assert (Hnth : forall row, 0 <= row < H ->
            nth_error (transactions_of fid width H tid img (py_range H))
              (Z.to_nat row)
            = Some (Frame.row_transaction fid width H tid row
                      (nth (Z.to_nat row) img []))).
  { intros row Hrow. unfold transactions_of.
    rewrite nth_error_map, py_range_nth by lia. simpl.
    now rewrite Z2Nat.id by lia. }
  split; [|split; [|split; [|split]]].
  - unfold Frame._set_frame_data.
    destruct (Z.eqb_spec (Frame._height f) 1) as [E|_]; [subst H; lia|].
    unfold Frame._set_frame_data_matrix, py_range.
    apply (send_rows_accepted _ _ _ _ _ (Z.to_nat H) 0%nat f Hacc).
    rewrite as_img_length, Hlen, Hs0. subst H. lia.
  - unfold transactions_of. now rewrite length_map, py_range_length.
  - intros row Hrow. rewrite (Hnth row Hrow).
    unfold Frame.row_transaction, img. now rewrite as_img_nth.
  - intros i j ti tj Hij Hi Hj.
    assert (Hjlt : (j < Z.to_nat H)%nat).
    { assert (Hb : (j < length (transactions_of fid width H tid img (py_range H)))%nat)
        by (apply nth_error_Some; congruence).
      unfold transactions_of in Hb.
      now rewrite length_map, py_range_length in Hb. }
    rewrite <- (Nat2Z.id i), Hnth in Hi by lia.
    rewrite <- (Nat2Z.id j), Hnth in Hj by lia.
    injection Hi as <-. injection Hj as <-.
    exists (H - Z.of_nat i - 1), (H - Z.of_nat j - 1).
    simpl. repeat split. lia.
  - rewrite Hnth by (subst H; lia). simpl. do 2 f_equal. lia.
Qed.

Lemma row_bytes_payload base width (row : list rgba) :
  0 <= width ->
  Frame.row_bytes width (map (rgba2rgb base) row)
  = row_payload rgba2rgb base width row.
Proof.
  intros Hw. unfold Frame.row_bytes, slice_to, row_payload.
  destruct (Z.leb_spec 0 width); [reflexivity | lia].
Qed.

(** C9.  A frame of height exactly 1 is serialised in single-row mode:
    [_set_frame_data] makes exactly one call, whatever the transport
    answers; the call carries start column 0, column count min(W, 24)
    and, as payload, the bytes of the first min(W, 24) pixels of the
    sole row, pixel after pixel in column order.  A 1x1 frame is one
    instance. *)
Theorem single_row_one_transaction (f : Frame.t) (frame_id : option Z) :
  Frame.shape_ok f ->
  Frame._height f = 1 ->
  let width := Z.min (Frame._width f) 24 in
  let pixels :=
    map (rgba2rgb (Frame._base_color f)) (nth 0 (cells (Frame._matrix f)) []) in
  let t :=
    mkTransaction SET_FRAME_DATA_SINGLE
      [Int 0; Int width; Bytes (concat (firstn (Z.to_nat width) pixels))]
      (Some 128) None in
  Frame._set_frame_data rgba2rgb frame_id f
  = (match respond (Frame._driver f) (issued (Frame._driver f)) t with
     | Some e => Raise e
     | None => Ok tt
     end,
     Frame.with_driver f (sends (Frame._driver f) [t])).
Proof.
  intros (HH & HW & Hs0 & Hs1 & Hlen & Hrows) H1 width pixels t.
  unfold Frame._set_frame_data. rewrite H1. simpl.
  unfold Frame._set_frame_data_single.
  destruct (nth_error (Frame._as_img rgba2rgb f) 0) as [row|] eqn:Hrow.
  2:{ apply nth_error_None in Hrow.
      rewrite as_img_length, Hlen, Hs0, H1 in Hrow. simpl in Hrow. lia. }
  assert (Erow : row = pixels).
  { subst pixels. rewrite <- as_img_nth. symmetry. now apply nth_error_nth. }
  subst row. unfold Frame.driver_call, run_command.
  unfold Frame.MAX_WIDTH. subst pixels.
  rewrite row_bytes_payload by lia.
  subst t width. unfold sends, row_payload.
  now destruct (respond _ _ _).
Qed.

(** Serialisation touches nothing but the driver. *)
Lemma send_rows_driver_only frame_id width height tid img :
  forall rows f, exists r d,
    Frame.send_rows frame_id width height tid img rows f
    = (r, Frame.with_driver f d).
Proof.
  induction rows as [|row rest IH]; intros f; simpl.
  - exists (Ok tt), (Frame._driver f). unfold ret. now rewrite with_driver_same.
  - unfold bind at 1.
    destruct (nth_error img (Z.to_nat row)) as [r|].
    + unfold Frame.driver_call, run_command.
      destruct (respond _ _ _).
      * eexists _, _. reflexivity.
      * destruct (IH (Frame.with_driver f
                        (mkDriver (quirk_custom_frame_80 (Frame._driver f))
                           (respond (Frame._driver f))
                           (issued (Frame._driver f)
                            ++ [Frame.row_transaction frame_id width height
                                  tid row r])))) as (r' & d' & E).
        rewrite E. eexists _, _. now rewrite with_driver_twice.
    + exists (Raise IndexError), (Frame._driver f).
      unfold raise. now rewrite with_driver_same.
Qed.

Lemma set_frame_data_driver_only frame_id f :
  exists r d,
    Frame._set_frame_data rgba2rgb frame_id f = (r, Frame.with_driver f d).
Proof.
  unfold Frame._set_frame_data.
  destruct (Frame._height f =? 1).
  - unfold Frame._set_frame_data_single.
    destruct (nth_error _ 0).
    + unfold Frame.driver_call, run_command.
      destruct (respond _ _ _); eexists _, _; reflexivity.
    + exists (Raise IndexError), (Frame._driver f). now rewrite with_driver_same.
  - apply send_rows_driver_only.
Qed.

Lemma update_unfold frame_id f :
  Frame.update rgba2rgb frame_id f
  = (let '(r, f1) := Frame._set_frame_data rgba2rgb frame_id (read_only f) in
     match r with
     | Ok _ => let '(rc, f2) := Frame.commit f1 in (rc, writable f2)
     | Raise e => (Raise e, writable f1)
     end).
Proof.
  unfold Frame.update, try_finally, bind, Frame.set_write. fold (read_only f).
  destruct (Frame._set_frame_data rgba2rgb frame_id (read_only f)) as [[u|e] f1].
  - destruct (Frame.commit f1) as [rc f2]. reflexivity.
  - reflexivity.
Qed.

Lemma prepare_unfold frame_id f :
  Frame.prepare rgba2rgb frame_id f
  = (let '(r, f1) := Frame._set_frame_data rgba2rgb frame_id (read_only f) in
     match r with
     | Ok _ => Frame.clear (writable f1)
     | Raise e => (Raise e, writable f1)
     end).
Proof.
  unfold Frame.prepare, try_finally, bind, Frame.set_write. fold (read_only f).
  destruct (Frame._set_frame_data rgba2rgb frame_id (read_only f)) as [[u|e] f1];
    reflexivity.
Qed.

Lemma commit_driver_only f :
  exists r d, Frame.commit f = (r, Frame.with_driver f d).
Proof.
  unfold Frame.commit, Frame.driver_call, custom_frame, run_command.
  destruct (respond _ _ _); eexists _, _; reflexivity.
Qed.

(** *** The calls of a serialisation, one by one *)

Lemma run_command_sends t d :
  run_command t d
  = (match respond d (issued d) t with Some e => Raise e | None => Ok tt end,
     sends d [t]).
Proof. unfold run_command, sends. now destruct (respond d (issued d) t). Qed.

Lemma accepts_first_tail d t rest k :
  accepts_first d (t :: rest) (S k) -> accepts_first (sends d [t]) rest k.
Proof.
  intros H j u Hj Hu. unfold sends. cbn [respond issued].
  rewrite <- app_assoc. apply (H (S j) u); [lia | exact Hu].
Qed.

Lemma run_calls_accepted : forall ts d,
  accepts_first d ts (length ts) -> run_calls ts d = (Ok tt, sends d ts).
Proof.
  induction ts as [|t rest IH]; intros d Hacc.
  - cbn. now rewrite sends_nil.
  - cbn [run_calls]. unfold bind. rewrite run_command_sends.
    assert (H0 : respond d (issued d) t = None).
    { specialize (Hacc 0%nat t). cbn in Hacc. rewrite app_nil_r in Hacc.
      apply Hacc; [lia | reflexivity]. }
    rewrite H0, IH by (apply accepts_first_tail; exact Hacc).
    now rewrite sends_sends.
Qed.

Lemma run_calls_refused : forall ts d k t e,
  nth_error ts k = Some t ->
  accepts_first d ts k ->
  respond d (issued d ++ firstn k ts) t = Some e ->
  run_calls ts d = (Raise e, sends d (firstn (S k) ts)).
Proof.
  induction ts as [|t0 rest IH]; intros d k t e Hk Hacc Href.
  - destruct k; discriminate Hk.
  - cbn [run_calls]. unfold bind. rewrite run_command_sends.
    destruct k as [|k].
    + cbn in Hk. injection Hk as ->. cbn in Href. rewrite app_nil_r in Href.
      now rewrite Href.
    + assert (H0 : respond d (issued d) t0 = None).
      { specialize (Hacc 0%nat t0). cbn in Hacc. rewrite app_nil_r in Hacc.
        apply Hacc; [lia | reflexivity]. }
      rewrite H0.
      rewrite (IH (sends d [t0]) k t e Hk).
      * now rewrite sends_sends.
      * apply accepts_first_tail. exact Hacc.
      * unfold sends. cbn [respond issued]. rewrite <- app_assoc. exact Href.
Qed.

Lemma send_rows_run_calls frame_id width height tid img : forall rows f,
  (forall row, In row rows -> (Z.to_nat row < length img)%nat) ->
  Frame.send_rows frame_id width height tid img rows f
  = Frame.driver_call
      (run_calls (transactions_of frame_id width height tid img rows)) f.
Proof.
  induction rows as [|row rest IH]; intros f Hin.
  - cbn. unfold Frame.driver_call, ret. now rewrite with_driver_same.
  - cbn [Frame.send_rows transactions_of map run_calls]. unfold bind.
    destruct (nth_error img (Z.to_nat row)) as [r|] eqn:Hr.
    2:{ apply nth_error_None in Hr. specialize (Hin row (or_introl eq_refl)). lia. }
    rewrite (nth_error_nth _ _ [] Hr).
    unfold Frame.driver_call at 1 2.
    destruct (run_command (Frame.row_transaction frame_id width height tid row r)
                (Frame._driver f)) as [[u|e] d1].
    + rewrite IH by (intros x Hx; apply Hin; now right).
      unfold Frame.driver_call. cbn [Frame._driver Frame.with_driver].
      fold (transactions_of frame_id width height tid img rest).
      now destruct (run_calls _ d1) as [r1 d2].
    + reflexivity.
Qed.

(** Serialising a frame is making its calls one after the other, up to
    the first one the transport refuses. *)
Lemma set_frame_data_run_calls frame_id f :
  Frame.shape_ok f ->
  Frame._set_frame_data rgba2rgb frame_id f
  = Frame.driver_call (run_calls (frame_data_calls rgba2rgb frame_id f)) f.
Proof.
  intros (HH & HW & Hs0 & Hs1 & Hlen & Hrows).
  unfold Frame._set_frame_data, frame_data_calls.
  destruct (Z.eqb_spec (Frame._height f) 1) as [H1|Hne].
  - unfold Frame._set_frame_data_single.
    destruct (nth_error (Frame._as_img rgba2rgb f) 0) as [row|] eqn:Hrow.
    2:{ apply nth_error_None in Hrow.
        rewrite as_img_length, Hlen, Hs0, H1 in Hrow. simpl in Hrow. lia. }
    assert (Erow : row = map (rgba2rgb (Frame._base_color f))
                           (nth 0 (cells (Frame._matrix f)) [])).
    { rewrite <- as_img_nth. symmetry. now apply nth_error_nth. }
    subst row. unfold Frame.MAX_WIDTH. rewrite row_bytes_payload by lia.
    unfold Frame.driver_call. cbn [run_calls]. unfold bind, ret.
    now destruct (run_command _ _) as [[[]|e] d1].
  - unfold Frame._set_frame_data_matrix.
    rewrite send_rows_run_calls.
    + f_equal. f_equal. unfold transactions_of. apply map_ext_in.
      intros row Hin. unfold py_range in Hin.
      apply in_map_iff in Hin. destruct Hin as (n & <- & Hn).
      apply in_seq in Hn. unfold Frame.row_transaction, Frame.MAX_WIDTH.
      rewrite as_img_nth, row_bytes_payload by lia. reflexivity.
    + intros row Hin. unfold py_range in Hin.
      apply in_map_iff in Hin. destruct Hin as (n & <- & Hn).
      apply in_seq in Hn. rewrite as_img_length, Hlen, Hs0, Nat2Z.id. lia.
Qed.

(** C7, as amended.  [update] and [prepare] make the calls of the frame
    one after the other.  If the transport refuses one of them with an
    error [e], both raise that same [e], no call is repeated and none
    is made after the refused one; if it refuses the flip command of
    [update], [update] raises that error.  On every exit path the
    matrix is writable again.  The cells are as they were on every exit
    path of [update] and on the error paths of [prepare]; when
    [prepare] returns, it has cleared the matrix. *)
Theorem transport_error_propagates (f : Frame.t) (frame_id : option Z) :
  Frame.shape_ok f ->
  let d := Frame._driver f in
  let calls := frame_data_calls rgba2rgb frame_id f in
  let u := Frame.update rgba2rgb frame_id f in
  let p := Frame.prepare rgba2rgb frame_id f in
  (writeable (Frame._matrix (snd u)) = true /\
   cells (Frame._matrix (snd u)) = cells (Frame._matrix f) /\
   writeable (Frame._matrix (snd p)) = true) /\
  (forall k t e,
     nth_error calls k = Some t ->
     accepts_first d calls k ->
     respond d (issued d ++ firstn k calls) t = Some e ->
     u = (Raise e, frame_after f (firstn (S k) calls) (matrix_kept f)) /\
     p = (Raise e, frame_after f (firstn (S k) calls) (matrix_kept f))) /\
  (accepts_first d calls (length calls) ->
   p = (Ok tt, frame_after f calls (matrix_cleared f)) /\
   u = (match respond d (issued d ++ calls) flip_call with
        | Some e => Raise e
        | None => Ok tt
        end,
        frame_after f (calls ++ [flip_call]) (matrix_kept f))).
Proof.
  intros Hok d calls u p. subst u p.
  assert (Hro : Frame.shape_ok (read_only f)) by exact Hok.
  pose proof (set_frame_data_run_calls frame_id (read_only f) Hro) as Hser.
  change (frame_data_calls rgba2rgb frame_id (read_only f)) with calls in Hser.
  unfold Frame.driver_call in Hser.
  change (Frame._driver (read_only f)) with d in Hser.
  rewrite update_unfold, prepare_unfold, Hser.
  split; [|split].
  - destruct (run_calls calls d) as [[x|e] d1]; cbn [fst snd].
    + unfold Frame.clear, fill_zero. cbn.
      unfold Frame.commit, Frame.driver_call, custom_frame.
      cbn [Frame._driver Frame.with_driver].
      destruct (run_command _ d1) as [rc d2]. repeat split.
    + repeat split.
  - intros k t e Hk Hacc Href.
    rewrite (run_calls_refused calls d k t e Hk Hacc Href). split; reflexivity.
  - intros Hacc. rewrite (run_calls_accepted calls d Hacc). split.
    + reflexivity.
    + unfold Frame.commit, Frame.driver_call, custom_frame.
      cbn [Frame._driver Frame.with_driver].
      rewrite run_command_sends. cbn [sends respond issued].
      unfold frame_after, flip_call, sends. cbn [quirk_custom_frame_80 respond issued].
      rewrite <- app_assoc.
      destruct (respond d (issued d ++ calls) _); reflexivity.
Qed.

(** C2, as amended.  [update(frame_id)] and [prepare(frame_id)] followed
    by [commit()] make the same calls on the transport and end the same
    way (both return, or both raise the same error), and both leave the
    matrix writable.  [update] leaves the cells as they were; [prepare]
    clears them once the frame has been sent, so after [prepare] and
    [commit] the cells are all zero unless serialisation raised. *)
Theorem update_sends_what_prepare_commit_sends (f : Frame.t) (frame_id : option Z) :
  let u := Frame.update rgba2rgb frame_id f in
  let pc := prepare_then_commit rgba2rgb frame_id f in
  fst u = fst pc /\
  Frame._driver (snd u) = Frame._driver (snd pc) /\
  writeable (Frame._matrix (snd u)) = true /\
  writeable (Frame._matrix (snd pc)) = true /\
  cells (Frame._matrix (snd u)) = cells (Frame._matrix f) /\
  cells (Frame._matrix (snd pc))
  = match fst (Frame._set_frame_data rgba2rgb frame_id (read_only f)) with
    | Ok _ => zeroed (cells (Frame._matrix f))
    | Raise _ => cells (Frame._matrix f)
    end.
Proof.
  unfold prepare_then_commit, bind.
  rewrite update_unfold, prepare_unfold.
  destruct (set_frame_data_driver_only frame_id (read_only f)) as (r & d & E).
  rewrite E. destruct r as [u|e]; simpl.
  - unfold Frame.commit, Frame.driver_call, custom_frame, run_command. simpl.
    destruct (respond d (issued d) _); simpl; repeat split; reflexivity.
  - repeat split; reflexivity.
Qed.

End EncoderFacts.

(** ** Drawing *)

Section ListFacts.

Context {A : Type}.

Lemma list_set_length (i : nat) (v : A) (l : list A) :
  length (list_set i v l) = length l.
Proof.
  revert i; induction l as [|h t IH]; intros [|i]; simpl; auto.
Qed.

Lemma list_set_nth_same (i : nat) (v d : A) (l : list A) :
  (i < length l)%nat -> nth i (list_set i v l) d = v.
Proof.
  revert i; induction l as [|h t IH]; intros [|i] Hi; simpl in *;
    try lia; auto. apply IH. lia.
Qed.

Lemma list_set_nth_other (i j : nat) (v d : A) (l : list A) :
  i <> j -> nth j (list_set i v l) d = nth j l d.
Proof.
  revert i j; induction l as [|h t IH]; intros [|i] [|j] Hij; simpl;
    try reflexivity; try congruence. apply IH. congruence.
Qed.

End ListFacts.

Lemma cell_set_same r c v cs :
  (r < length cs)%nat -> (c < length (nth r cs []))%nat ->
  Frame.cell_at (Frame.cell_set r c v cs) r c = v.
Proof.
  intros Hr Hc. unfold Frame.cell_at, Frame.cell_set.
  rewrite list_set_nth_same by assumption.
  now apply list_set_nth_same.
Qed.

Lemma cell_set_other r c v cs r0 c0 :
  (r, c) <> (r0, c0) ->
  Frame.cell_at (Frame.cell_set r c v cs) r0 c0 = Frame.cell_at cs r0 c0.
Proof.
  intros Hne. unfold Frame.cell_at, Frame.cell_set.
  destruct (Nat.eq_dec r r0) as [->|Hr].
  - destruct (Nat.lt_ge_cases r0 (length cs)) as [Hlt|Hge].
    + rewrite list_set_nth_same by assumption.
      apply list_set_nth_other. congruence.
    + revert Hge. generalize (list_set c v (nth r0 cs [])).
      clear. revert r0. induction cs as [|h t IH]; intros [|r0] l Hge;
        simpl in *; try reflexivity; try lia.
      apply (IH r0 l). lia.
  - now rewrite list_set_nth_other by assumption.
Qed.

Lemma cell_set_shape r c v cs n :
  Forall (fun row => length row = n) cs ->
  length (Frame.cell_set r c v cs) = length cs /\
  Forall (fun row => length row = n) (Frame.cell_set r c v cs).
Proof.
  intros Hall. unfold Frame.cell_set. split.
  - apply list_set_length.
  - assert (Hrow : length (list_set c v (nth r cs [])) = n \/
                   (length cs <= r)%nat).
    { destruct (Nat.lt_ge_cases r (length cs)) as [Hlt|Hge]; [left|now right].
      rewrite list_set_length.
      rewrite Forall_forall in Hall. apply Hall. now apply nth_In. }
    revert Hrow. generalize (list_set c v (nth r cs [])). revert r.
    induction Hall as [|h t Hh Ht IH]; intros [|r] l Hrow; simpl in *.
    + constructor.
    + constructor.
    + constructor; [|assumption]. destruct Hrow; [assumption | lia].
    + constructor; [assumption|]. apply IH.
      destruct Hrow; [now left | right; lia].
Qed.

Lemma assign_shape pts : forall cs n,
  Forall (fun row => length row = n) cs ->
  length (Frame.assign pts cs) = length cs /\
  Forall (fun row => length row = n) (Frame.assign pts cs).
Proof.
  induction pts as [|[[r c] v] rest IH]; intros cs n Hall; simpl.
  - now split.
  - destruct (cell_set_shape (Z.to_nat r) (Z.to_nat c) v cs n Hall) as [Hl Hf].
    destruct (IH _ n Hf) as [Hl' Hf']. split; [congruence | assumption].
Qed.

Lemma assign_untouched pts : forall cs r0 c0,
  (forall p, In p pts ->
     (Z.to_nat (row_of p), Z.to_nat (col_of p)) <> (r0, c0)) ->
  Frame.cell_at (Frame.assign pts cs) r0 c0 = Frame.cell_at cs r0 c0.
Proof.
  induction pts as [|[[r c] v] rest IH]; intros cs r0 c0 Hfree; simpl.
  - reflexivity.
  - rewrite IH by (intros p Hp; apply Hfree; now right).
    apply cell_set_other. apply (Hfree (r, c, v)). now left.
Qed.

Lemma select_same_inside {B} (shape : nat * nat) (h : Z * Z * float -> B) :
  forall pts : list (Z * Z * float),
    Frame.select_same
      (Frame.map2 andb
         (Frame.in_range (fst shape) (Frame.IntArray (map row_of pts)))
         (Frame.in_range (snd shape) (Frame.IntArray (map col_of pts))))
      (map h pts)
    = Ok (map h (filter (inside shape) pts)).
Proof.
  induction pts as [|p rest IH]; simpl in *.
  - reflexivity.
  - rewrite IH. f_equal.
    change ((0 <=? row_of p) && (row_of p <? Z.of_nat (fst shape))
            && ((0 <=? col_of p) && (col_of p <? Z.of_nat (snd shape))))
      with (inside shape p).
    now destruct (inside shape p).
Qed.

Lemma select_inside {B} (shape : nat * nat) (h : Z * Z * float -> B)
    (pts : list (Z * Z * float)) :
  Frame.select
    (Frame.map2 andb
       (Frame.in_range (fst shape) (Frame.IntArray (map row_of pts)))
       (Frame.in_range (snd shape) (Frame.IntArray (map col_of pts))))
    (map h pts)
  = Ok (map h (filter (inside shape) pts)).
Proof.
  destruct pts as [|p rest]; [reflexivity|].
  rewrite <- (select_same_inside shape h (p :: rest)). reflexivity.
Qed.

Lemma map2_points {B} (g : Z * Z -> float -> B) :
  forall pts : list (Z * Z * float),
    Frame.map2 g (combine (map row_of pts) (map col_of pts)) (map snd pts)
    = map (fun p => g (row_of p, col_of p) (snd p)) pts.
Proof.
  induction pts as [|p rest IH]; simpl; [reflexivity | now rewrite IH].
Qed.

(** With two integer index arrays and a coverage array of the same
    length, [_set_color] does not raise on a writable image, and the
    result is the one obtained from the in-bounds points alone. *)
Lemma set_color_points img color (pts : list (Z * Z * float)) :
  writeable img = true ->
  Frame._set_color img
    [Frame.IntArray (map row_of pts); Frame.IntArray (map col_of pts)]
    (Frame.color_tuple color) (Frame.Alphas (map snd pts))
  = Ok (mkArray (shape0 img) (shape1 img) (drawn img color pts) true).
Proof.
  intros Hw. destruct color as [[[r g] b] a].
  unfold Frame._set_color, Frame.color_tuple, Frame._coords_inside_image.
  unfold Frame.mask_and.
  replace (length (Frame.in_range (fst (shape0 img, shape1 img))
                     (Frame.IntArray (map row_of pts)))
           =? length (Frame.in_range (snd (shape0 img, shape1 img))
                        (Frame.IntArray (map col_of pts))))%nat
    with true
    by (symmetry; apply Nat.eqb_eq; simpl; now rewrite !length_map).
  unfold Frame.select_array.
  rewrite (select_inside (shape0 img, shape1 img) row_of).
  rewrite (select_inside (shape0 img, shape1 img) col_of).
  rewrite (select_inside (shape0 img, shape1 img) snd).
  rewrite Hw, map2_points. unfold drawn.
  reflexivity.
Qed.

Lemma set_color_scalar img color (a : float) (pts : list (Z * Z)) :
  writeable img = true ->
  Frame._set_color img
    [Frame.IntArray (map fst pts); Frame.IntArray (map snd pts)]
    (Frame.color_tuple color) (Frame.Scalar a)
  = Ok (mkArray (shape0 img) (shape1 img)
          (drawn img color (map (fun p => (p, a)) pts)) true).
Proof.
  intros Hw.
  rewrite <- (set_color_points img color (map (fun p => (p, a)) pts) Hw).
  rewrite !map_map. simpl.
  destruct color as [[[r g] b] al]. simpl.
  replace (repeat a (length (map fst pts)))
    with (map (fun _ : Z * Z => a) pts); [reflexivity|].
  rewrite length_map. clear. induction pts; simpl; congruence.
Qed.

(** *** Rounding *)

Lemma round_to_Qeq fmt (q q' : Q) : (q == q')%Q -> round_to fmt q = round_to fmt q'.
Proof. intros H. unfold round_to. now rewrite (Qred_complete q q' H). Qed.

Lemma round_to_zero fmt (q : Q) : (q == 0)%Q -> round_to fmt q = Finite 0.
Proof. intros H. now rewrite (round_to_Qeq fmt q 0 H). Qed.

Lemma fsub_one_one : fsub binary64 (Finite 1) (Finite 1) = Finite 0.
Proof. unfold fsub, fneg, fadd. now apply round_to_zero. Qed.

(** At coverage 1 the blend is the colour: the old value times zero is
    zero when it is finite and NaN when it is not. *)
Lemma blend_channel_opaque (old c : float) :
  is_float64 c ->
  to_float32 (Frame.blend_channel old c (Finite 1)) = overwritten old c.
Proof.
  intros Hc. unfold Frame.blend_channel. rewrite fsub_one_one.
  destruct old as [o| | |]; cbn [overwritten].
  - assert (E0 : fmul binary64 (Finite o) (Finite 0) = Finite 0)
      by (apply round_to_zero; ring).
    rewrite E0. clear E0.
    destruct c as [q| | |]; try reflexivity.
    cbn [is_float64] in Hc. cbn [fmul].
    rewrite (round_to_Qeq binary64 (q * 1) q) by ring.
    rewrite Hc. cbn [fadd].
    rewrite (round_to_Qeq binary64 (0 + Qred q) q)
      by (rewrite Qred_correct; ring).
    rewrite Hc. cbn [to_float32].
    apply round_to_Qeq, Qred_correct.
  - destruct c; reflexivity.
  - destruct c; reflexivity.
  - destruct c; reflexivity.
Qed.

Lemma blend_opaque old color :
  all_channels is_float64 color ->
  Frame.as_float32 (Frame.blend old color (Finite 1)) = overwritten_cell old color.
Proof.
  destruct old as [[[r0 g0] b0] a0], color as [[[r1 g1] b1] a1].
  intros (Hr & Hg & Hb & Ha). unfold Frame.blend, Frame.as_float32, overwritten_cell.
  now rewrite !blend_channel_opaque.
Qed.

(** A value the cell represents reads back as itself. *)
Lemma overwritten_exact (old c : float) :
  is_finite old -> is_float32 c -> float_eq (overwritten old c) c.
Proof.
  destruct old as [o| | |]; cbn [is_finite overwritten]; try contradiction.
  intros _. destruct c as [q| | |]; cbn [is_float32 to_float32 float_eq]; auto.
  intros ->. apply Qred_correct.
Qed.

Lemma atleast_1d_fits (i : Z) :
  - intp_limit <= i < uintp_limit -> Frame.atleast_1d i = Frame.IntArray [i].
Proof.
  intros Hi. unfold Frame.atleast_1d.
  destruct (Z.leb_spec (- intp_limit) i); [|lia].
  destruct (Z.ltb_spec i uintp_limit); [|lia]. reflexivity.
Qed.

Lemma inside_spec (shape : nat * nat) {V} (p : Z * Z * V) :
  inside shape p = true <->
  0 <= row_of p < Z.of_nat (fst shape) /\ 0 <= col_of p < Z.of_nat (snd shape).
Proof.
  unfold inside. rewrite !andb_true_iff, !Z.leb_le, !Z.ltb_lt. tauto.
Qed.

Lemma drawn_shape img color pts n :
  Forall (fun row => length row = n) (cells img) ->
  length (drawn img color pts) = length (cells img) /\
  Forall (fun row => length row = n) (drawn img color pts).
Proof. intros Hall. now apply assign_shape. Qed.

(** A cell that no rasterised point names keeps its value. *)
Lemma drawn_untouched img color pts r0 c0 :
  (forall p, In p pts -> (row_of p, col_of p) <> (Z.of_nat r0, Z.of_nat c0)) ->
  Frame.cell_at (drawn img color pts) r0 c0 = Frame.cell_at (cells img) r0 c0.
Proof.
  intros Hfree. apply assign_untouched. intros q Hq.
  apply in_map_iff in Hq. destruct Hq as (p & <- & Hp).
  apply filter_In in Hp. destruct Hp as [Hp Hin].
  apply inside_spec in Hin. unfold row_of, col_of in *. simpl in *.
  intros E. injection E as Er Ec. apply (Hfree p Hp).
  f_equal; lia.
Qed.

(** Points outside the image play no part in the result. *)
Lemma drawn_only_inside img color pts :
  drawn img color pts
  = drawn img color (filter (inside (shape0 img, shape1 img)) pts).
Proof.
  unfold drawn. f_equal. f_equal.
  induction pts as [|p rest IH]; simpl; [reflexivity|].
  destruct (inside (shape0 img, shape1 img) p) eqn:E; simpl.
  - rewrite E. now f_equal.
  - assumption.
Qed.

(** [put] with indices numpy keeps in an integer array: the one point
    goes through [_set_color]. *)
Lemma put_integer (f : Frame.t) (row col : Z) (color : Frame.Color) :
  - intp_limit <= row < uintp_limit ->
  - intp_limit <= col < uintp_limit ->
  writeable (Frame._matrix f) = true ->
  Frame.put row col color f
  = (Ok tt,
     Frame.with_matrix f
       (mkArray (shape0 (Frame._matrix f)) (shape1 (Frame._matrix f))
          (drawn (Frame._matrix f) color [(row, col, Finite 1)]) true)).
Proof.
  intros Hr Hc Hw. unfold Frame.put, Frame.set_color_on_matrix.
  rewrite !atleast_1d_fits by assumption.
  change [Frame.IntArray [row]; Frame.IntArray [col]]
    with [Frame.IntArray (map fst [(row, col)]);
          Frame.IntArray (map snd [(row, col)])].
  now rewrite set_color_scalar.
Qed.

(** C8, as amended.  On a frame at rest, for in-bounds [row] and [col]
    and a colour of four Python floats, [put(row, col, color)] succeeds
    and [get(row, col)] then returns, channel by channel, the written
    value rounded to [float32], the element type of the matrix (and NaN
    in a channel that held an infinity or NaN, whose product with zero
    is NaN).  What is read is the written colour whenever the cell held
    finite values and the colour's channels are [float32] values. *)
Theorem put_then_get (f : Frame.t) (row col : Z) (color : Frame.Color) :
  Frame.frame_ok f ->
  0 <= row < Frame._height f ->
  0 <= col < Frame._width f ->
  all_channels is_float64 color ->
  let old := Frame.cell_at (cells (Frame._matrix f)) (Z.to_nat row) (Z.to_nat col) in
  exists f',
    Frame.put row col color f = (Ok tt, f') /\
    Frame.get row col f' = (Ok (overwritten_cell old color), f') /\
    (all_channels is_finite old -> all_channels is_float32 color ->
     rgba_eq (overwritten_cell old color) color).
Proof.
  intros [(HH & HW & Hs0 & Hs1 & Hlen & Hrows) Hw] Hrow Hcol Hcolor old.
  rewrite put_integer by (assumption || lia).
  assert (Hin : inside (shape0 (Frame._matrix f), shape1 (Frame._matrix f))
                  (row, col, Finite 1) = true).
  { apply inside_spec. unfold row_of, col_of. simpl.
    rewrite Hs0, Hs1, !Z2Nat.id by lia. lia. }
  unfold drawn. cbn [map filter]. rewrite Hin.
  cbn [map Frame.assign row_of col_of fst snd].
  eexists. split; [reflexivity|]. split.
  - unfold Frame.get. cbn [Frame._matrix Frame.with_matrix shape0 shape1 cells].
    unfold py_index, fits_intp. rewrite Hs0, Hs1, !Z2Nat.id by lia.
    destruct (Z.leb_spec (- intp_limit) row); [|lia].
    destruct (Z.ltb_spec row intp_limit); [|lia].
    destruct (Z.leb_spec (- intp_limit) col); [|lia].
    destruct (Z.ltb_spec col intp_limit); [|lia].
    destruct (Z.leb_spec 0 row); [|lia].
    destruct (Z.ltb_spec row (Frame._height f)); [|lia].
    destruct (Z.leb_spec 0 col); [|lia].
    destruct (Z.ltb_spec col (Frame._width f)); [|lia].
    cbn [andb negb]. rewrite cell_set_same.
    + now rewrite blend_opaque.
    + rewrite Hlen, Hs0. lia.
    + rewrite Forall_forall in Hrows.
      rewrite (Hrows (nth (Z.to_nat row) (cells (Frame._matrix f)) [])).
      * rewrite Hs1. lia.
      * apply nth_In. rewrite Hlen, Hs0. lia.
  - subst old. destruct (Frame.cell_at _ _ _) as [[[r0 g0] b0] a0].
    destruct color as [[[r1 g1] b1] a1].
    intros (F1 & F2 & F3 & F4) (S1 & S2 & S3 & S4).
    repeat split; now apply overwritten_exact.
Qed.

Section DrawingFacts.

Variable draw_circle : Z -> Z -> Z -> nat * nat -> result (list (Z * Z)).
Variable draw_circle_perimeter_aa :
  Z -> Z -> Z -> nat * nat -> result (list (Z * Z * float)).
Variable draw_line_aa : Z -> Z -> Z -> Z -> list (Z * Z * float).
Variable clamp : Z -> Z -> Z -> Z.

(** [circle] once the radius is rounded and the rasteriser has
    answered: the points, if any, go through [_set_color]. *)
Lemma circle_unfold (f : Frame.t) (row col : Z) (radius : float)
    (color : Frame.Color) (fill : bool) (r : Z) :
  py_round radius = Ok r ->
  Frame.circle draw_circle draw_circle_perimeter_aa row col radius color fill f
  = match circle_points draw_circle draw_circle_perimeter_aa f row col r fill with
    | Raise e => (Raise e, f)
    | Ok pts =>
        Frame.set_color_on_matrix
          [Frame.IntArray (map row_of pts); Frame.IntArray (map col_of pts)]
          color (Frame.Alphas (map snd pts)) f
    end.
Proof.
  intros Hr. unfold Frame.circle, circle_points. rewrite Hr.
  destruct fill.
  - destruct (draw_circle row col r _) as [pts|e]; [|reflexivity].
    unfold Frame.set_color_on_matrix.
    destruct (writeable (Frame._matrix f)) eqn:Hw.
    + rewrite set_color_scalar by assumption.
      rewrite (set_color_points _ _ (map (fun p => (p, Finite 1)) pts))
        by assumption.
      reflexivity.
    + unfold row_of, col_of. rewrite !map_map. cbn [fst snd].
      unfold Frame._set_color.
      destruct color as [[[r1 g1] b1] a1]. cbn [Frame.color_tuple].
      cbn [Frame.array1_len].
      replace (repeat (Finite 1) (length (map fst pts)))
        with (map (fun _ : Z * Z => Finite 1) pts); [reflexivity|].
      rewrite length_map. clear. induction pts; simpl; congruence.
  - reflexivity.
Qed.

(** X9.  [circle] clips.  On a frame at rest, once [round(radius)] has
    given an integer and the rasteriser its points, [circle] does not
    raise, whatever the points are: the matrix keeps its shape, the
    result is the one the in-bounds points alone give, and a cell that
    is not a rasterised point keeps its value.  A radius that is NaN
    raises [ValueError] and an infinite one [OverflowError], from
    [round]; what the rasteriser raises is passed on; in these cases
    the frame is as it was. *)
Lemma circle_clips (f : Frame.t) (row col : Z) (radius : float)
    (color : Frame.Color) (fill : bool) :
  Frame.frame_ok f ->
  let run :=
    Frame.circle draw_circle draw_circle_perimeter_aa row col radius color fill f in
  let m := Frame._matrix f in
  (forall r pts,
     py_round radius = Ok r ->
     circle_points draw_circle draw_circle_perimeter_aa f row col r fill = Ok pts ->
     exists f',
       run = (Ok tt, f') /\
       Frame.frame_ok f' /\
       Frame._driver f' = Frame._driver f /\
       cells (Frame._matrix f')
       = drawn m color (filter (inside (shape0 m, shape1 m)) pts) /\
       forall r0 c0,
         (forall p, In p pts -> (row_of p, col_of p) <> (Z.of_nat r0, Z.of_nat c0)) ->
         Frame.cell_at (cells (Frame._matrix f')) r0 c0
         = Frame.cell_at (cells (Frame._matrix f)) r0 c0) /\
  (radius = NaN -> run = (Raise ValueError, f)) /\
  (radius = PosInf \/ radius = NegInf -> run = (Raise OverflowError, f)) /\
  (forall r e,
     py_round radius = Ok r ->
     circle_points draw_circle draw_circle_perimeter_aa f row col r fill = Raise e ->
     run = (Raise e, f)).
Proof.
  intros [(HH & HW & Hs0 & Hs1 & Hlen & Hrows) Hw] run m. subst run.
  split; [|split; [|split]].
  - intros r pts Hr Hpts.
    rewrite (circle_unfold f row col radius color fill r Hr), Hpts.
    exists (Frame.with_matrix f
              (mkArray (shape0 m) (shape1 m) (drawn m color pts) true)).
    destruct (drawn_shape m color pts _ Hrows) as [Hl Hf].
    split; [|split; [|split; [|split]]].
    + unfold Frame.set_color_on_matrix. now rewrite set_color_points.
    + subst m. repeat split; simpl; try assumption; try lia;
        now rewrite Hl.
    + reflexivity.
    + simpl. apply drawn_only_inside.
    + intros r0 c0 Hfree. simpl. now apply drawn_untouched.
  - intros ->. reflexivity.
  - intros [-> | ->]; reflexivity.
  - intros r e Hr Hpts.
    now rewrite (circle_unfold f row col radius color fill r Hr), Hpts.
Qed.

(** C4, at the failing input: every call of [line] raises [ValueError]
    and leaves the frame as it was.  [line] passes the three arrays
    [(rr, cc, aa)] as [coords] and [_set_color] unpacks [coords] into
    two names. *)
Theorem line_always_raises (row1 col1 row2 col2 : Z) (color : Frame.Color)
    (f : Frame.t) :
  Frame.line draw_line_aa clamp row1 col1 row2 col2 color f
  = (Raise ValueError, f).
Proof. reflexivity. Qed.

End DrawingFacts.

(** ** The renderer's run loop *)

Module RendererFacts.
Import Renderer.

Ltac crunch :=
  repeat match goal with
         | H : Step _ = Step _ |- _ => injection H as <-
         | H : Suspended = Step _ |- _ => discriminate H
         | H : Crashed _ = Step _ |- _ => discriminate H
         | H : context [if ?b then _ else _] |- _ => destruct b eqn:?
         | H : context [match ?l with [] => _ | _ :: _ => _ end] |- _ =>
             destruct l eqn:?
         | H : context [match ?o with Some _ => _ | None => _ end] |- _ =>
             destruct o eqn:?
         end.

Lemma stop_queues r :
  (length (_avail_q (_stop r)) <= length (_avail_q r))%nat /\
  (length (_active_q (_stop r)) <= length (_active_q r))%nat.
Proof.
  destruct r as [k z run av ac]. unfold _stop, _flush. simpl.
  destruct run; simpl; lia.
Qed.

Lemma stop_idle r : _running r = false -> _stop r = r.
Proof. intros H. unfold _stop. now rewrite H. Qed.

(** No event adds a layer. *)
Lemma step_circulating ev s s' :
  step ev s = Step s' -> (circulating s' <= circulating s)%nat.
Proof.
  destruct s as [ls r p sl]. unfold step, circulating. simpl.
  pose proof (stop_queues r) as [Hav Hac].
  destruct ev, p; intros H; try discriminate H; crunch; simpl in *;
    rewrite ?length_app; simpl; try lia.
  all: unfold _free_layer in *; simpl in *; crunch;
    repeat match goal with
           | H : (_, _) = (_, _) |- _ => injection H as <- <-
           | H : (_, _) = (_, _) |- _ => discriminate H
           end; simpl; rewrite ?length_app; simpl; try lia.
Qed.

Lemma draw_false_step s layer :
  at_pc s = InDraw layer -> _running (rend s) = true ->
  step (EvDrawReturn false) s = Step (mkSys (layers s) (rend s) AtTick (slot s)).
Proof.
  intros Hpc Hrun. unfold step. now rewrite Hpc, Hrun.
Qed.

Lemma stop_running_flag r : _running (_stop r) = false.
Proof.
  destruct r as [k z run av ac]. unfold _stop, _flush. simpl.
  destruct run; reflexivity.
Qed.

Lemma inv_step ev s s' :
  inv s -> is_stop ev = false -> step ev s = Step s' -> inv s'.
Proof.
  destruct s as [ls r p sl]. unfold inv, step. simpl.
  intros Hinv Hns H.
  destruct ev, p; try discriminate; crunch; simpl in *; auto;
    try (destruct Hinv as [?|[?|?]]; congruence).
  all: unfold _free_layer in *; simpl in *; crunch;
    repeat match goal with
           | H : (_, _) = (_, _) |- _ => injection H as <- <-
           | H : (_, _) = (_, _) |- _ => discriminate H
           end; simpl; auto;
    try (destruct Hinv as [?|[?|?]]; try congruence; left; assumption).
Qed.

Lemma starved_step ev s s' :
  starved s -> is_stop ev = false -> step ev s = Step s' ->
  starved s' /\ is_draw_false ev = false.
Proof.
  destruct s as [ls r p sl]. unfold starved, circulating, step. simpl.
  intros (Hc & Hrun & Hpc) Hns H.
  assert (Hav : _avail_q r = []) by (destruct (_avail_q r); simpl in *; [reflexivity | lia]).
  assert (Hac : _active_q r = []) by (destruct (_active_q r); simpl in *; [reflexivity | lia]).
  assert (Hsl : sl = None) by (destruct sl; simpl in *; [lia | reflexivity]).
  subst sl. rewrite Hav, Hac in *.
  destruct Hpc as [-> | ->], ev; try discriminate;
    rewrite ?Hrun, ?Hac, ?Hav in H; try discriminate H;
    injection H as <-; simpl; rewrite ?Hav, ?Hac; auto.
Qed.

Lemma after_false_draws_step n ev s s' :
  after_false_draws n s -> is_stop ev = false -> step ev s = Step s' ->
  after_false_draws (n + (if is_draw_false ev then 1 else 0)) s'.
Proof.
  unfold after_false_draws, NUM_BUFFERS. intros (Hinv & Hle & Hst) Hns H.
  destruct (Nat.eq_dec n 2) as [->|Hn].
  - destruct (starved_step ev s s' (Hst eq_refl) Hns H) as [Hs' ->].
    rewrite Nat.add_0_r. split; [|split].
    + destruct Hs' as (_ & Hr & _). now left.
    + destruct Hs' as (Hc & _). lia.
    + auto.
  - pose proof (inv_step ev s s' Hinv Hns H) as Hinv'.
    pose proof (step_circulating ev s s' H) as Hmono.
    destruct (is_draw_false ev) eqn:Hev.
    + destruct ev as [| |[|]| | | | |]; try discriminate Hev.
      destruct (at_pc s) eqn:Hpc;
        try (unfold step in H; rewrite Hpc in H; discriminate H).
      assert (Hrun : _running (rend s) = true).
      { destruct Hinv as [?|[?|?]]; [assumption | congruence | congruence]. }
      rewrite (draw_false_step s layer Hpc Hrun) in H. injection H as <-.
      assert (Hheld : (1 <= circulating s)%nat).
      { unfold circulating. rewrite Hpc. simpl. lia. }
      assert (Hdrop : (circulating (mkSys (layers s) (rend s) AtTick (slot s)) + 1
                       = circulating s)%nat).
      { unfold circulating. rewrite Hpc. simpl. lia. }
      split; [assumption|split; [lia|]].
      intros Hn2. split; [lia|]. split; [assumption | now left].
    + rewrite Nat.add_0_r. split; [assumption|split; [lia|]].
      intros ->. contradiction.
Qed.

Lemma after_false_draws_run evs : forall n s s',
  after_false_draws n s -> no_stop evs -> run evs s = Some s' ->
  after_false_draws (n + draws_false evs) s'.
Proof.
  unfold no_stop, draws_false.
  induction evs as [|ev rest IH]; intros n s s' Hs Hns Hrun; simpl in *.
  - injection Hrun as <-. now rewrite Nat.add_0_r.
  - apply andb_true_iff in Hns. destruct Hns as [Hev Hrest].
    apply negb_true_iff in Hev.
    destruct (step ev s) as [s1| |] eqn:Hstep; try discriminate Hrun.
    pose proof (after_false_draws_step n ev s s1 Hs Hev Hstep) as Hs1.
    specialize (IH _ _ _ Hs1 Hrest Hrun).
    destruct (is_draw_false ev); simpl in *.
    + now replace (n + S (length (filter is_draw_false rest)))%nat
        with (n + 1 + length (filter is_draw_false rest))%nat by lia.
    + now rewrite Nat.add_0_r in IH.
Qed.

Lemma starved_run evs : forall s s',
  starved s -> no_stop evs -> run evs s = Some s' -> starved s'.
Proof.
  unfold no_stop.
  induction evs as [|ev rest IH]; intros s s' Hs Hns Hrun; simpl in *.
  - now injection Hrun as <-.
  - apply andb_true_iff in Hns. destruct Hns as [Hev Hrest].
    apply negb_true_iff in Hev.
    destruct (step ev s) as [s1| |] eqn:Hstep; try discriminate Hrun.
    destruct (starved_step ev s s1 Hs Hev Hstep) as [Hs1 _].
    now apply (IH s1).
Qed.

Lemma starved_blocked s :
  starved s ->
  _avail_q (rend s) = [] /\ step EvGet s = Suspended.
Proof.
  destruct s as [ls r p sl]. unfold starved, circulating, step. simpl.
  intros (Hc & Hrun & Hpc).
  assert (Hav : _avail_q r = []) by (destruct (_avail_q r); simpl in *; [reflexivity | lia]).
  split; [assumption|]. destruct Hpc as [-> | ->]; [reflexivity|].
  now rewrite Hav.
Qed.

End RendererFacts.

Lemma run_circulating evs : forall s s',
  Renderer.run evs s = Some s' ->
  (Renderer.circulating s' <= Renderer.circulating s)%nat.
Proof.
  induction evs as [|ev rest IH]; intros s s' Hrun; simpl in Hrun.
  - injection Hrun as <-. lia.
  - destruct (Renderer.step ev s) as [s1| |] eqn:Hstep; try discriminate Hrun.
    apply RendererFacts.step_circulating in Hstep. apply IH in Hrun. lia.
Qed.

(** C10.  When [draw] returns [False] and the renderer is still
    running, the layer it took from the free queue is put on neither
    queue: the queues, the compositor's slot and the layers are as
    before, the coroutine holds no layer any more, and one layer fewer
    is going round.  No later event brings a layer back.  Starting from
    the two layers [_create_buffers] hands out, once this has happened
    twice (and as long as nobody calls [_stop]) the renderer stays
    running with an empty free queue, at or on its way to
    [self._avail_q.get()], and that [get] never completes. *)
Theorem draw_false_loses_layer :
  (forall s layer,
     Renderer.at_pc s = Renderer.InDraw layer ->
     Renderer._running (Renderer.rend s) = true ->
     exists s',
       Renderer.step (Renderer.EvDrawReturn false) s = Renderer.Step s' /\
       Renderer.layers s' = Renderer.layers s /\
       Renderer._avail_q (Renderer.rend s') = Renderer._avail_q (Renderer.rend s) /\
       Renderer._active_q (Renderer.rend s') = Renderer._active_q (Renderer.rend s) /\
       Renderer.slot s' = Renderer.slot s /\
       Renderer.held (Renderer.at_pc s') = 0%nat /\
       (Renderer.circulating s' + 1 = Renderer.circulating s)%nat) /\
  (forall evs s s',
     Renderer.run evs s = Some s' ->
     (Renderer.circulating s' <= Renderer.circulating s)%nat) /\
  (forall k z ls a b evs s,
     Renderer.no_stop evs ->
     Renderer.run evs (Renderer.after_create_buffers k z ls a b) = Some s ->
     Renderer.draws_false evs = 2%nat ->
     forall evs' s',
       Renderer.no_stop evs' ->
       Renderer.run evs' s = Some s' ->
       Renderer._running (Renderer.rend s') = true /\
       Renderer.circulating s' = 0%nat /\
       Renderer._avail_q (Renderer.rend s') = [] /\
       (Renderer.at_pc s' = Renderer.AtTick \/ Renderer.at_pc s' = Renderer.AtGet) /\
       Renderer.step Renderer.EvGet s' = Renderer.Suspended).
Proof.
  split; [|split].
  - intros s layer Hpc Hrun.
    exists (Renderer.mkSys (Renderer.layers s) (Renderer.rend s)
              Renderer.AtTick (Renderer.slot s)).
    split; [now apply (RendererFacts.draw_false_step s layer)|].
    repeat split. unfold Renderer.circulating. rewrite Hpc. simpl. lia.
  - exact run_circulating.
  - intros k z ls a b evs s Hns Hrun Hcount evs' s' Hns' Hrun'.
    assert (H0 : Renderer.after_false_draws 0
                   (Renderer.after_create_buffers k z ls a b)).
    { split; [|split].
      - right. now right.
      - unfold Renderer.circulating, NUM_BUFFERS. simpl. lia.
      - unfold NUM_BUFFERS. discriminate. }
    pose proof (RendererFacts.after_false_draws_run evs _ _ _ H0 Hns Hrun)
      as (_ & _ & Hstarved).
    rewrite Hcount in Hstarved. specialize (Hstarved eq_refl).
    pose proof (RendererFacts.starved_run evs' s s' Hstarved Hns' Hrun') as Hs'.
    destruct (RendererFacts.starved_blocked s' Hs') as [Hav Hget].
    destruct Hs' as (Hc & Hr & Hpc).
    repeat split; assumption.
Qed.

(** ** The loop and the manager *)

(** [_commit_layers] passes the list of layers to [Frame.commit], which
    is declared as [commit(self)]: in every state the call raises
    [TypeError] and leaves the frame, the transport and the loop as they
    were, and so does the compositing pass of a running loop.
    [Frame.commit] itself, called without argument, sends the flip
    command alone and leaves the frame's matrix as it is. *)
Lemma commit_layers_type_error :
  (forall w l,
     AnimationLoop._commit_layers (w, l) = (Raise TypeError, (w, l))) /\
  (forall w renderers blend task waiters bufs,
     let l := AnimationLoop.mk renderers blend true task false waiters bufs in
     AnimationLoop.compose_and_display (w, l) = (Raise TypeError, (w, l))) /\
  (forall f,
     snd (Frame.commit f)
     = Frame.with_driver f
         (sends (Frame._driver f) [mkTransaction CUSTOM_FRAME [] None None])).
Proof.
  split; [|split].
  - intros [f ls rs] l. reflexivity.
  - intros [f ls rs] renderers blend task waiters bufs. reflexivity.
  - intros f. unfold Frame.commit, Frame.driver_call, custom_frame, run_command.
    now destruct (respond _ _ _).
Qed.

(** What [add_renderer] does with a known kind whose constructor and
    [init] succeed: the running flag plays no part. *)
Lemma add_renderer_appends name traits k w m :
  AnimationManager.lookup name (AnimationManager.renderer_info m) = Some k ->
  Renderer.construct k traits = None ->
  Renderer.init k = Ok true ->
  let z := Z.of_nat (length (AnimationManager.renderers m)) in
  let ref := length (renderer_store w) in
  AnimationManager.add_renderer name traits (w, m)
  = (Ok z,
     (mkWorld (frame_control w) (layer_store w)
        (renderer_store w ++ [Renderer.new k z]),
      AnimationManager.mk (AnimationManager.renderers m ++ [ref])
        (AnimationManager.renderer_info m) (AnimationManager.running m)
        (AnimationManager._loop m))).
Proof.
  intros Hk Hc Hi z ref.
  unfold AnimationManager.add_renderer, AnimationManager._get_renderer, bind.
  rewrite Hk, Hc. cbn [renderer_store].
  rewrite nth_error_app2 by lia. rewrite Nat.sub_diag. cbn [nth_error].
  cbn [Renderer.class_of Renderer.new]. rewrite Hi. reflexivity.
Qed.

Lemma add_renderer_unknown name traits w m :
  AnimationManager.lookup name (AnimationManager.renderer_info m) = None ->
  AnimationManager.add_renderer name traits (w, m) = (Ok (-1), (w, m)).
Proof.
  intros Hk.
  unfold AnimationManager.add_renderer, AnimationManager._get_renderer, bind.
  now rewrite Hk.
Qed.

(** When [init] returns [False] the renderer list is left alone; the
    sentinel is returned if the class has a [name] to log, and the log
    call raises [AttributeError] if it has none. *)
Lemma add_renderer_init_fails name traits k w m :
  AnimationManager.lookup name (AnimationManager.renderer_info m) = Some k ->
  Renderer.construct k traits = None ->
  Renderer.init k = Ok false ->
  fst (AnimationManager.add_renderer name traits (w, m))
  = (if Renderer.has_name k then Ok (-1) else Raise AttributeError) /\
  snd (snd (AnimationManager.add_renderer name traits (w, m))) = m.
Proof.
  intros Hk Hc Hi.
  unfold AnimationManager.add_renderer, AnimationManager._get_renderer, bind.
  rewrite Hk, Hc. cbn [renderer_store].
  rewrite nth_error_app2 by lia. rewrite Nat.sub_diag. cbn [nth_error].
  cbn [Renderer.class_of Renderer.new]. rewrite Hi.
  destruct (Renderer.has_name k); split; reflexivity.
Qed.

Section LoopFacts.

Variable rgba2rgb : Frame.Color -> rgba -> list byte.
Variable create_layer : Frame.t -> result Layer.t.

(** The two guards of [start]: while running, or with no renderer
    configured, it returns false and changes nothing. *)
Lemma manager_start_refused blend w m :
  AnimationManager.running m = true \/ AnimationManager.renderers m = [] ->
  AnimationManager.start rgba2rgb create_layer blend (w, m)
  = (Ok false, (w, m)).
Proof.
  intros [H|H]; unfold AnimationManager.start; rewrite H.
  - reflexivity.
  - now destruct (AnimationManager.running m).
Qed.

Lemma loop_start_refused w l :
  AnimationLoop._running l = true \/ AnimationLoop._renderers l = [] ->
  AnimationLoop.start rgba2rgb create_layer (w, l) = (Ok false, (w, l)).
Proof.
  intros [H|H]; unfold AnimationLoop.start; rewrite H.
  - reflexivity.
  - now destruct (AnimationLoop._running l).
Qed.

(** With a renderer configured and nothing running, [start] resets the
    frame, sets the loop's flag and reaches [create_layer]: if that
    raises, as it does on the frame class of [frame.py], [start] raises
    the same error, the loop's flag is left set, no task is scheduled
    and the manager's flag stays false. *)
Lemma loop_start_create_layer_raises w l a rest e :
  AnimationLoop._running l = false ->
  AnimationLoop._renderers l = a :: rest ->
  (a < length (renderer_store w))%nat ->
  fst (Frame.reset rgba2rgb None (frame_control w)) = Ok tt ->
  (forall f, create_layer f = Raise e) ->
  let r := AnimationLoop.start rgba2rgb create_layer (w, l) in
  fst r = Raise e /\
  AnimationLoop._running (snd (snd r)) = true /\
  AnimationLoop._anim_task (snd (snd r)) = AnimationLoop._anim_task l.
Proof.
  intros Hrun Hrs Hvalid Hreset Hcl.
  unfold AnimationLoop.start. rewrite Hrun, Hrs. cbn [length Nat.eqb].
  unfold bind, on_fst, on_snd, on_frame.
  destruct (Frame.reset rgba2rgb None (frame_control w)) as [r0 f'] eqn:E.
  simpl in Hreset. subst r0. cbn [AnimationLoop.set_running].
  unfold AnimationLoop._create_buffers, bind, on_snd, on_fst.
  cbn [AnimationLoop.set_bookkeeping AnimationLoop._renderers
       AnimationLoop._default_blend_mode].
  rewrite Hrs. cbn [AnimationLoop.load_renderers]. unfold bind, on_renderer.
  cbn [renderer_store layer_store frame_control].
  destruct (nth_error (renderer_store w) a) as [r|] eqn:Hr.
  2:{ apply nth_error_None in Hr. lia. }
  cbn [AnimationLoop.give_layers NUM_BUFFERS]. unfold bind.
  cbn [frame_control]. rewrite Hcl. repeat split.
Qed.

Lemma start_create_layer_raises blend w m a rest e :
  AnimationManager.running m = false ->
  AnimationManager.renderers m = a :: rest ->
  (a < length (renderer_store w))%nat ->
  fst (Frame.reset rgba2rgb None (frame_control w)) = Ok tt ->
  (forall f, create_layer f = Raise e) ->
  let r := AnimationManager.start rgba2rgb create_layer blend (w, m) in
  fst r = Raise e /\
  AnimationManager.running (snd (snd r)) = false /\
  option_map AnimationLoop._running (AnimationManager._loop (snd (snd r)))
  = Some true /\
  option_map AnimationLoop._anim_task (AnimationManager._loop (snd (snd r)))
  = Some false.
Proof.
  intros Hrun Hrs Hvalid Hreset Hcl.
  destruct (loop_start_create_layer_raises w
              (AnimationLoop.new (AnimationManager.renderers m) blend)
              a rest e eq_refl Hrs Hvalid Hreset Hcl) as (Hres & Hflag & Htask).
  unfold AnimationManager.start. rewrite Hrun, Hrs. cbn [length Nat.eqb].
  rewrite <- Hrs.
  destruct (AnimationLoop.start rgba2rgb create_layer
              (w, AnimationLoop.new (AnimationManager.renderers m) blend))
    as [res [w' loop']].
  simpl in Hres, Hflag, Htask. subst res. simpl. rewrite Hflag, Htask.
  repeat split; assumption.
Qed.

(** When no [create_layer] ever answers, [start] does not return true
    and leaves the running flag as it was: it refuses, or it raises at
    the reset, at a renderer or at the first [create_layer]. *)
Lemma loop_start_never_true w l :
  (forall f, exists e, create_layer f = Raise e) ->
  let r := AnimationLoop.start rgba2rgb create_layer (w, l) in
  fst r = Ok false \/ exists e, fst r = Raise e.
Proof.
  intros Hcl. cbv zeta. unfold AnimationLoop.start.
  destruct (AnimationLoop._running l) eqn:Hrun; [now left|].
  destruct (AnimationLoop._renderers l) as [|a rest] eqn:Hrs; [now left|].
  cbn [length Nat.eqb]. right.
  unfold bind, on_fst, on_snd, on_frame.
  destruct (Frame.reset rgba2rgb None (frame_control w)) as [[u|e] f'];
    [|now exists e].
  cbn [AnimationLoop.set_running].
  unfold AnimationLoop._create_buffers, bind, on_snd, on_fst.
  cbn [AnimationLoop.set_bookkeeping AnimationLoop._renderers
       AnimationLoop._default_blend_mode].
  rewrite Hrs. cbn [AnimationLoop.load_renderers]. unfold bind, on_renderer.
  cbn [renderer_store layer_store frame_control].
  destruct (nth_error (renderer_store w) a) as [r|];
    [|now exists AttributeError].
  cbn [AnimationLoop.give_layers NUM_BUFFERS]. unfold bind.
  cbn [frame_control]. destruct (Hcl f') as [e ->]. now exists e.
Qed.

Lemma start_never_true blend w m :
  (forall f, exists e, create_layer f = Raise e) ->
  let r := AnimationManager.start rgba2rgb create_layer blend (w, m) in
  (fst r = Ok false \/ exists e, fst r = Raise e) /\
  AnimationManager.running (snd (snd r)) = AnimationManager.running m.
Proof.
  intros Hcl. cbv zeta. unfold AnimationManager.start.
  destruct (AnimationManager.running m) eqn:Hrun;
    [split; [now left|exact Hrun]|].
  destruct (length (AnimationManager.renderers m) =? 0)%nat;
    [split; [now left|exact Hrun]|].
  pose proof (loop_start_never_true w
                (AnimationLoop.new (AnimationManager.renderers m) blend) Hcl)
    as H.
  cbv zeta in H.
  destruct (AnimationLoop.start rgba2rgb create_layer
              (w, AnimationLoop.new (AnimationManager.renderers m) blend))
    as [res [w' loop']].
  cbn [fst] in H. destruct H as [->|[e ->]]; cbn [fst snd AnimationManager.running].
  - split; [now left|reflexivity].
  - split; [right; now exists e|reflexivity].
Qed.

End LoopFacts.

(** C3, at the failing input: [start] on a manager at rest with a
    renderer configured, over the frame class of [frame.py].  That
    class has no [create_layer], so [start] raises [AttributeError] out
    of [_create_buffers], after the frame was reset: the manager is not
    running and the task of [_animate] is not scheduled, so that no
    compositing cycle takes place.  In no state does [start] return
    true there.  The compositing step cannot merge or transmit either:
    in every state [_commit_layers] raises [TypeError] at the call
    [self._frame.commit(self._active_bufs)] and leaves the frame, the
    transport and the loop as they were, and so does the compositing
    pass of a running loop; [Frame.commit] itself, called without
    argument, sends the flip command alone and leaves the frame's
    matrix as it is. *)
Theorem frame_py_never_composites
    (rgba2rgb : Frame.Color -> rgba -> list byte) :
  (forall blend w m a rest,
     AnimationManager.running m = false ->
     AnimationManager.renderers m = a :: rest ->
     (a < length (renderer_store w))%nat ->
     fst (Frame.reset rgba2rgb None (frame_control w)) = Ok tt ->
     let r := AnimationManager.start rgba2rgb no_create_layer blend (w, m) in
     fst r = Raise AttributeError /\
     AnimationManager.running (snd (snd r)) = false /\
     option_map AnimationLoop._anim_task (AnimationManager._loop (snd (snd r)))
     = Some false) /\
  (forall blend w m,
     let r := AnimationManager.start rgba2rgb no_create_layer blend (w, m) in
     (fst r = Ok false \/ exists e, fst r = Raise e) /\
     AnimationManager.running (snd (snd r)) = AnimationManager.running m) /\
  (forall w l,
     AnimationLoop._commit_layers (w, l) = (Raise TypeError, (w, l))) /\
  (forall w renderers blend task waiters bufs,
     let l := AnimationLoop.mk renderers blend true task false waiters bufs in
     AnimationLoop.compose_and_display (w, l) = (Raise TypeError, (w, l))) /\
  (forall f,
     snd (Frame.commit f)
     = Frame.with_driver f
         (sends (Frame._driver f) [mkTransaction CUSTOM_FRAME [] None None])).
Proof.
  split; [|split].
  - intros blend w m a rest Hrun Hrs Hvalid Hreset.
    destruct (start_create_layer_raises rgba2rgb no_create_layer blend w m
                a rest AttributeError Hrun Hrs Hvalid Hreset
                (fun _ => eq_refl)) as (H1 & H2 & _ & H4).
    repeat split; assumption.
  - intros blend w m.
    apply (start_never_true rgba2rgb no_create_layer blend w m).
    intros f. now exists AttributeError.
  - exact commit_layers_type_error.
Qed.

(** ** The claims at concrete inputs *)

(** [__init__] gives a frame at rest. *)
Lemma init_frame_ok alloc d width height base f :
  Frame.init alloc d width height base = Ok f -> Frame.frame_ok f.
Proof.
  unfold Frame.init, np_zeros, fits_intp.
  destruct (Z.ltb_spec height 0); [discriminate|].
  destruct (Z.ltb_spec width 0); [discriminate|].
  destruct (Z.leb_spec (- intp_limit) height); [|lia].
  destruct (Z.leb_spec (- intp_limit) width); [|lia].
  destruct (Z.ltb_spec height intp_limit); [|discriminate].
  destruct (Z.ltb_spec width intp_limit); [|discriminate].
  cbn [orb andb negb].
  destruct (alloc height width); [discriminate|].
  intros E. injection E as <-.
  unfold Frame.frame_ok, Frame.shape_ok, array_ok. simpl.
  repeat split; try assumption.
  - now rewrite repeat_length.
  - apply Forall_forall. intros r Hr.
    apply repeat_spec in Hr. subst r. now rewrite repeat_length.
Qed.

Example blank_is_init :
  Frame.init roomy quiet_driver 2 3 None = Ok (blank quiet_driver 2 3).
Proof. reflexivity. Qed.

Lemma matrix_mode_witness :
  Frame.shape_ok (blank quiet_driver 2 3) /\
  1 < Frame._height (blank quiet_driver 2 3) /\
  accepts (Frame._driver (blank quiet_driver 2 3)) /\
  exists txns,
    Frame._set_frame_data sample_rgba2rgb None (blank quiet_driver 2 3)
    = (Ok tt, Frame.with_driver (blank quiet_driver 2 3)
                (sends quiet_driver txns)) /\
    length txns = 3%nat.
Proof.
  assert (H1 : Frame.shape_ok (blank quiet_driver 2 3)).
  { unfold Frame.shape_ok, array_ok. simpl.
    repeat split; try lia; repeat constructor. }
  assert (H2 : 1 < Frame._height (blank quiet_driver 2 3)) by reflexivity.
  assert (H3 : accepts (Frame._driver (blank quiet_driver 2 3)))
    by (intros log t; reflexivity).
  split; [exact H1 | split; [exact H2 | split; [exact H3 | ]]].
  destruct (matrix_mode_one_transaction_per_row sample_rgba2rgb
              (blank quiet_driver 2 3) None H1 H2 H3) as (txns & E & L & _).
  exists txns. split; [exact E | exact L].
Defined.

Lemma single_row_witness :
  Frame.shape_ok (blank quiet_driver 1 1) /\
  Frame._height (blank quiet_driver 1 1) = 1 /\
  Frame._set_frame_data sample_rgba2rgb None (blank quiet_driver 1 1)
  = (Ok tt,
     Frame.with_driver (blank quiet_driver 1 1)
       (sends quiet_driver
          [mkTransaction SET_FRAME_DATA_SINGLE
             [Int 0; Int 1; Bytes [x00; x00; x00]] (Some 128) None])).
Proof.
  assert (H1 : Frame.shape_ok (blank quiet_driver 1 1)).
  { unfold Frame.shape_ok, array_ok. simpl.
    repeat split; try lia; repeat constructor. }
  assert (H2 : Frame._height (blank quiet_driver 1 1) = 1) by reflexivity.
  split; [exact H1 | split; [exact H2 | ]].
  exact (single_row_one_transaction sample_rgba2rgb
           (blank quiet_driver 1 1) None H1 H2).
Defined.

Lemma transport_error_witness :
  let f := blank flaky_driver 2 3 in
  let calls := frame_data_calls sample_rgba2rgb None f in
  Frame.shape_ok f /\
  accepts_first flaky_driver calls 1 /\
  exists t,
    nth_error calls 1 = Some t /\
    respond flaky_driver (issued flaky_driver ++ firstn 1 calls) t
    = Some (DeviceError 5) /\
    Frame.update sample_rgba2rgb None f
    = (Raise (DeviceError 5), frame_after f (firstn 2 calls) (matrix_kept f)) /\
    Frame.prepare sample_rgba2rgb None f
    = (Raise (DeviceError 5), frame_after f (firstn 2 calls) (matrix_kept f)).
Proof.
  intros f calls.
  assert (H1 : Frame.shape_ok f).
  { unfold Frame.shape_ok, array_ok. simpl.
    repeat split; try lia; repeat constructor. }
  assert (H2 : accepts_first flaky_driver calls 1).
  { intros j u Hj Hu. destruct j as [|j]; [reflexivity | lia]. }
  split; [exact H1 | split; [exact H2 | ]].
  destruct (nth_error calls 1) as [t|] eqn:Ht; [|discriminate Ht].
  exists t. split; [reflexivity|].
  assert (H3 : respond flaky_driver (issued flaky_driver ++ firstn 1 calls) t
               = Some (DeviceError 5)) by reflexivity.
  split; [exact H3|].
  destruct (transport_error_propagates sample_rgba2rgb f None H1)
    as (_ & Hrefused & _).
  exact (Hrefused 1%nat t (DeviceError 5) Ht H2 H3).
Defined.

(** C7, as stated, fails on the exit path of [prepare] that returns:
    the matrix is writable again, but the red pixel is gone. *)
Lemma prepare_returns_cleared :
  fst (Frame.prepare sample_rgba2rgb None red_pixel) = Ok tt /\
  writeable (Frame._matrix (snd (Frame.prepare sample_rgba2rgb None red_pixel)))
  = true /\
  cells (Frame._matrix red_pixel) = [[red]] /\
  cells (Frame._matrix (snd (Frame.prepare sample_rgba2rgb None red_pixel)))
  = [[rgba_zero]] /\
  cells (Frame._matrix (snd (Frame.prepare sample_rgba2rgb None red_pixel)))
  <> cells (Frame._matrix red_pixel).
Proof.
  repeat split. intros H. vm_compute in H. discriminate H.
Qed.

(** C2, as stated, fails on a frame that is not blank: both sequences
    succeed and send the same calls, yet [update] leaves the red pixel
    in the matrix while [prepare] followed by [commit] leaves it
    cleared. *)
Lemma update_is_not_prepare_commit :
  ~ (Frame._driver (snd (Frame.update sample_rgba2rgb None red_pixel))
     = Frame._driver (snd (prepare_then_commit sample_rgba2rgb None red_pixel)) /\
     Frame._matrix (snd (Frame.update sample_rgba2rgb None red_pixel))
     = Frame._matrix (snd (prepare_then_commit sample_rgba2rgb None red_pixel))).
Proof.
  intros [_ H]. apply (f_equal cells) in H. vm_compute in H. discriminate H.
Qed.

Lemma put_then_get_witness :
  Frame.frame_ok (blank quiet_driver 2 3) /\
  0 <= 1 < Frame._height (blank quiet_driver 2 3) /\
  0 <= 1 < Frame._width (blank quiet_driver 2 3) /\
  all_channels is_float64 red /\
  exists f',
    Frame.put 1 1 red (blank quiet_driver 2 3) = (Ok tt, f') /\
    Frame.get 1 1 f' = (Ok red, f').
Proof.
  assert (H1 : Frame.frame_ok (blank quiet_driver 2 3))
    by exact (init_frame_ok _ _ _ _ _ _ blank_is_init).
  assert (H2 : 0 <= 1 < Frame._height (blank quiet_driver 2 3)) by (simpl; lia).
  assert (H3 : 0 <= 1 < Frame._width (blank quiet_driver 2 3)) by (simpl; lia).
  assert (H4 : all_channels is_float64 red) by (repeat split).
  split; [exact H1 | split; [exact H2 | split; [exact H3 | split; [exact H4|]]]].
  destruct (put_then_get (blank quiet_driver 2 3) 1 1 red H1 H2 H3 H4)
    as (f' & Hput & Hget & _).
  exists f'. split; [exact Hput | exact Hget].
Defined.

(** C8, as stated, fails for a colour whose channels are not [float32]
    values: the Python float [0.1] is written to the one cell of a
    blank frame and 13421773/134217728 is read back. *)
Lemma put_then_get_rounds :
  all_channels is_float64 faint_red /\
  exists f' c,
    Frame.put 0 0 faint_red (blank quiet_driver 1 1) = (Ok tt, f') /\
    Frame.get 0 0 f' = (Ok c, f') /\
    c = (Finite (13421773 # 134217728), Finite 0, Finite 0, Finite 1) /\
    ~ rgba_eq c faint_red.
Proof.
  split; [repeat split|].
  exists (Frame.with_matrix (blank quiet_driver 1 1)
            (mkArray 1 1
               [[(Finite (13421773 # 134217728), Finite 0, Finite 0, Finite 1)]]
               true)).
  exists (Finite (13421773 # 134217728), Finite 0, Finite 0, Finite 1).
  split; [vm_compute; reflexivity|].
  split; [vm_compute; reflexivity|].
  split; [reflexivity|].
  intros (H & _). vm_compute in H. discriminate H.
Qed.

Lemma draw_false_witness :
  Renderer.at_pc drawing_first = Renderer.InDraw 0%nat /\
  Renderer._running (Renderer.rend drawing_first) = true /\
  Renderer.run two_false_draws fresh_renderer = Some out_of_layers /\
  Renderer.no_stop two_false_draws /\
  Renderer.draws_false two_false_draws = 2%nat /\
  Renderer.no_stop [Renderer.EvTick] /\
  (exists s',
     Renderer.step (Renderer.EvDrawReturn false) drawing_first = Renderer.Step s' /\
     (Renderer.circulating s' + 1 = Renderer.circulating drawing_first)%nat) /\
  (Renderer.circulating out_of_layers <= Renderer.circulating fresh_renderer)%nat /\
  (forall s',
     Renderer.run [Renderer.EvTick] out_of_layers = Some s' ->
     Renderer._avail_q (Renderer.rend s') = [] /\
     Renderer.step Renderer.EvGet s' = Renderer.Suspended).
Proof.
  assert (H1 : Renderer.at_pc drawing_first = Renderer.InDraw 0%nat) by reflexivity.
  assert (H2 : Renderer._running (Renderer.rend drawing_first) = true)
    by reflexivity.
  assert (H3 : Renderer.run two_false_draws fresh_renderer = Some out_of_layers)
    by reflexivity.
  assert (H4 : Renderer.no_stop two_false_draws) by reflexivity.
  assert (H5 : Renderer.draws_false two_false_draws = 2%nat) by reflexivity.
  assert (H6 : Renderer.no_stop [Renderer.EvTick]) by reflexivity.
  destruct draw_false_loses_layer as (Ha & Hb & Hc).
  repeat (split; [assumption|]).
  split; [|split].
  - destruct (Ha drawing_first 0%nat H1 H2) as (s' & Hs & _ & _ & _ & _ & _ & Hd).
    exists s'. split; assumption.
  - exact (Hb two_false_draws fresh_renderer out_of_layers H3).
  - intros s' Hs'.
    destruct (Hc plasma 0 [blank_layer; blank_layer] 0%nat 1%nat
                two_false_draws out_of_layers H4 H3 H5
                [Renderer.EvTick] s' H6 Hs') as (_ & _ & Hav & _ & Hget).
    split; assumption.
Defined.

(** C5, at the failing input: while the loop is running, [add_renderer]
    with a known kind whose [init] succeeds returns the z-order 1, not
    the sentinel, and the new renderer is on the list. *)
Theorem add_renderer_while_running :
  let r := AnimationManager.add_renderer "uchroma.fxlib.Plasma" []
             (one_renderer_world, running_manager) in
  AnimationManager.running running_manager = true /\
  fst r = Ok 1 /\
  AnimationManager.renderers (snd (snd r)) = [0%nat; 1%nat] /\
  nth_error (renderer_store (fst (snd r))) 1 = Some (Renderer.new plasma 1) /\
  AnimationManager.running (snd (snd r)) = true.
Proof. repeat split. Qed.

(** The sibling [clear_renderers] does refuse while running. *)
Example clear_renderers_while_running :
  AnimationManager.clear_renderers running_manager = (Ok false, running_manager).
Proof. reflexivity. Qed.

Lemma frame_py_never_composites_witness :
  AnimationManager.running idle_manager = false /\
  AnimationManager.renderers idle_manager = [0%nat] /\
  (0 < length (renderer_store one_renderer_world))%nat /\
  fst (Frame.reset sample_rgba2rgb None (frame_control one_renderer_world))
  = Ok tt /\
  fst (AnimationManager.start sample_rgba2rgb no_create_layer None
         (one_renderer_world, idle_manager))
  = Raise AttributeError /\
  option_map AnimationLoop._anim_task
    (AnimationManager._loop
       (snd (snd (AnimationManager.start sample_rgba2rgb no_create_layer None
                    (one_renderer_world, idle_manager)))))
  = Some false.
Proof.
  assert (H1 : AnimationManager.running idle_manager = false) by reflexivity.
  assert (H2 : AnimationManager.renderers idle_manager = [0%nat])
    by reflexivity.
  assert (H3 : (0 < length (renderer_store one_renderer_world))%nat)
    by (simpl; lia).
  assert (H4 : fst (Frame.reset sample_rgba2rgb None
                      (frame_control one_renderer_world)) = Ok tt)
    by reflexivity.
  destruct (proj1 (frame_py_never_composites sample_rgba2rgb)
              None one_renderer_world idle_manager 0%nat [] H1 H2 H3 H4)
    as (E & _ & Htask).
  repeat split; assumption.
Defined.

(** C6, as stated, fails when the manager is already running: [start]
    returns false, and the running flag is not false but still true. *)
Lemma start_while_running_keeps_flag :
  AnimationManager.running running_manager = true /\
  ~ (fst (AnimationManager.start sample_rgba2rgb no_create_layer None
            (one_renderer_world, running_manager)) = Ok false /\
     AnimationManager.running
       (snd (snd (AnimationManager.start sample_rgba2rgb no_create_layer None
                    (one_renderer_world, running_manager)))) = false).
Proof.
  split; [reflexivity|]. intros [_ H]. discriminate H.
Qed.

(** With at least one renderer and nothing running, [start] goes on to
    [_create_buffers].  On the frame class of [frame.py] the first
    [create_layer] raises after the frame has been reset and the loop's
    flag set; the manager's flag stays false. *)
Example start_on_frame_py :
  let r := AnimationManager.start sample_rgba2rgb no_create_layer None
             (one_renderer_world, idle_manager) in
  fst r = Raise AttributeError /\
  AnimationManager.running (snd (snd r)) = false /\
  option_map AnimationLoop._running (AnimationManager._loop (snd (snd r)))
  = Some true /\
  length (issued (Frame._driver (frame_control (fst (snd r))))) = 4%nat.
Proof. repeat split. Qed.

(** With a frame that hands out layers, the renderer gets its two
    layers and both flags are set. *)
Example start_with_layers :
  let r := AnimationManager.start sample_rgba2rgb some_create_layer None
             (one_renderer_world, idle_manager) in
  fst r = Ok true /\
  AnimationManager.running (snd (snd r)) = true /\
  option_map AnimationLoop._running (AnimationManager._loop (snd (snd r)))
  = Some true /\
  map Renderer._avail_q (renderer_store (fst (snd r))) = [[0%nat; 1%nat]] /\
  length (layer_store (fst (snd r))) = 2%nat.
Proof. repeat split. Qed.

(** * More of the framebuffer *)

(** X1.  [Frame(driver, width, height, base_color)], with [fps] left
    out, raises [ValueError] when a dimension is negative or does not
    fit a C integer, and raises what numpy's allocator raises when the
    array is too big for it.  Otherwise it builds a frame at rest of
    that width and height whose cells are all zero, on the given
    driver, with black as the base colour when none is given. *)
Theorem init_builds_blank_frame (alloc : allocator) (d : Driver)
    (width height : Z) (base : option Frame.Color) :
  (height < 0 \/ width < 0 \/ intp_limit <= height \/ intp_limit <= width ->
   Frame.init alloc d width height base = Raise ValueError) /\
  (0 <= height < intp_limit -> 0 <= width < intp_limit ->
   (forall e, alloc height width = Some e ->
      Frame.init alloc d width height base = Raise e) /\
   (alloc height width = None ->
    exists f,
      Frame.init alloc d width height base = Ok f /\
      Frame.frame_ok f /\
      Frame._driver f = d /\
      Frame._width f = width /\ Frame._height f = height /\
      Frame._base_color f
      = (match base with Some c => c | None => Frame.black end) /\
      cells (Frame._matrix f)
      = repeat (repeat rgba_zero (Z.to_nat width)) (Z.to_nat height))).
Proof.
  split.
  - intros Hneg. unfold Frame.init, np_zeros, fits_intp.
    destruct (Z.ltb_spec height 0), (Z.ltb_spec width 0); try reflexivity.
    destruct (Z.leb_spec (- intp_limit) height); [|lia].
    destruct (Z.leb_spec (- intp_limit) width); [|lia].
    destruct (Z.ltb_spec height intp_limit), (Z.ltb_spec width intp_limit);
      try reflexivity; lia.
  - intros Hh Hw.
    assert (E : Frame.init alloc d width height base
                = match alloc height width with
                  | Some e => Raise e
                  | None =>
                      Ok (Frame.mk d width height
                            (mkArray (Z.to_nat height) (Z.to_nat width)
                               (repeat (repeat rgba_zero (Z.to_nat width))
                                  (Z.to_nat height)) true)
                            (match base with
                             | Some c => c
                             | None => Frame.black
                             end))
                  end).
    { unfold Frame.init, np_zeros, fits_intp.
      destruct (Z.ltb_spec height 0); [lia|].
      destruct (Z.ltb_spec width 0); [lia|].
      destruct (Z.leb_spec (- intp_limit) height); [|lia].
      destruct (Z.leb_spec (- intp_limit) width); [|lia].
      destruct (Z.ltb_spec height intp_limit); [|lia].
      destruct (Z.ltb_spec width intp_limit); [|lia].
      cbn [orb andb negb]. now destruct (alloc height width). }
    split.
    + intros e He. now rewrite E, He.
    + intros Hnone. rewrite Hnone in E.
      eexists. split; [exact E|].
      split; [exact (init_frame_ok _ _ _ _ _ _ E)|]. repeat split.
Qed.

Lemma init_builds_blank_frame_witness :
  (-1 < 0 \/ 2 < 0 \/ intp_limit <= -1 \/ intp_limit <= 2) /\
  Frame.init roomy quiet_driver 2 (-1) None = Raise ValueError /\
  0 <= 3 < intp_limit /\ 0 <= 2 < intp_limit /\
  cramped 3000 2 = Some MemoryError /\
  Frame.init cramped quiet_driver 2 3000 None = Raise MemoryError /\
  roomy 3 2 = None /\
  exists f, Frame.init roomy quiet_driver 2 3 (Some red) = Ok f /\ Frame.frame_ok f.
Proof.
  assert (H1 : -1 < 0 \/ 2 < 0 \/ intp_limit <= -1 \/ intp_limit <= 2)
    by (left; lia).
  assert (H2 : 0 <= 3 < intp_limit) by lia.
  assert (H3 : 0 <= 2 < intp_limit) by lia.
  assert (H4 : cramped 3000 2 = Some MemoryError) by reflexivity.
  assert (H5 : 0 <= 3000 < intp_limit) by lia.
  assert (H6 : roomy 3 2 = None) by reflexivity.
  split; [exact H1|].
  split; [exact (proj1 (init_builds_blank_frame roomy quiet_driver 2 (-1) None) H1)|].
  split; [exact H2|]. split; [exact H3|]. split; [exact H4|].
  split.
  { exact (proj1 (proj2 (init_builds_blank_frame cramped quiet_driver 2 3000 None)
                    H5 H3) MemoryError H4). }
  split; [exact H6|].
  destruct (proj2 (proj2 (init_builds_blank_frame roomy quiet_driver 2 3 (Some red))
                     H2 H3) H6)
    as (f & E & Hok & _).
  exists f. split; assumption.
Defined.

Ltac index_cases :=
  unfold py_index, fits_intp;
  repeat match goal with
         | |- context [?a <=? ?b] => destruct (Z.leb_spec a b)
         | |- context [?a <? ?b] => destruct (Z.ltb_spec a b)
         end;
  cbn [andb negb]; try reflexivity; try lia.

Lemma py_index_in_range n i :
  Z.of_nat n <= intp_limit ->
  0 <= i < Z.of_nat n -> py_index n i = Ok (Z.to_nat i).
Proof. intros Hn Hi. index_cases. Qed.

Lemma py_index_negative n i :
  Z.of_nat n <= intp_limit ->
  0 <= i < Z.of_nat n -> py_index n (i - Z.of_nat n) = Ok (Z.to_nat i).
Proof. intros Hn Hi. index_cases. f_equal. f_equal. lia. Qed.

Lemma py_index_outside n i :
  - intp_limit <= i < intp_limit ->
  i < - Z.of_nat n \/ Z.of_nat n <= i -> py_index n i = Raise IndexError.
Proof. intros Hf Hi. index_cases. Qed.

Lemma py_index_overflow n i :
  i < - intp_limit \/ intp_limit <= i -> py_index n i = Raise OverflowError.
Proof. intros Hi. index_cases. Qed.

Lemma get_inside (f : Frame.t) (row col : Z) :
  Frame.shape_ok f ->
  0 <= row < Frame._height f -> 0 <= col < Frame._width f ->
  Frame.get row col f
  = (Ok (Frame.cell_at (cells (Frame._matrix f)) (Z.to_nat row) (Z.to_nat col)), f).
Proof.
  intros (HH & HW & Hs0 & Hs1 & _) Hr Hc. unfold Frame.get.
  rewrite !py_index_in_range; try reflexivity;
    rewrite ?Hs0, ?Hs1, ?Z2Nat.id; lia.
Qed.

(** X2.  [get] indexes the way numpy does.  For a row and a column
    inside the frame, [get(row - H, col - W)] reads the same cell as
    [get(row, col)].  A row that fits a C integer but lies outside
    [-H, H), or such a column outside [-W, W) with a valid row, raises
    [IndexError]; an index that does not fit a C integer raises
    [OverflowError].  In no case does [get] change the frame. *)
Theorem get_indexes_like_python (f : Frame.t) (row col : Z) :
  Frame.shape_ok f ->
  let H := Frame._height f in
  let W := Frame._width f in
  (0 <= row < H -> 0 <= col < W ->
   Frame.get row col f
   = (Ok (Frame.cell_at (cells (Frame._matrix f)) (Z.to_nat row) (Z.to_nat col)), f) /\
   Frame.get (row - H) (col - W) f = Frame.get row col f /\
   Frame.get (row - H) col f = Frame.get row col f /\
   Frame.get row (col - W) f = Frame.get row col f) /\
  (- intp_limit <= row < intp_limit -> row < - H \/ H <= row ->
   Frame.get row col f = (Raise IndexError, f)) /\
  (- H <= row < H -> - intp_limit <= col < intp_limit ->
   col < - W \/ W <= col ->
   Frame.get row col f = (Raise IndexError, f)) /\
  (row < - intp_limit \/ intp_limit <= row ->
   Frame.get row col f = (Raise OverflowError, f)) /\
  (- H <= row < H -> col < - intp_limit \/ intp_limit <= col ->
   Frame.get row col f = (Raise OverflowError, f)).
Proof.
  intros (HH & HW & Hs0 & Hs1 & _) H W.
  assert (E0 : Z.of_nat (shape0 (Frame._matrix f)) = H)
    by (rewrite Hs0; apply Z2Nat.id; lia).
  assert (E1 : Z.of_nat (shape1 (Frame._matrix f)) = W)
    by (rewrite Hs1; apply Z2Nat.id; lia).
  assert (Hvalid : - H <= row < H ->
            exists r, py_index (shape0 (Frame._matrix f)) row = Ok r).
  { intros Hr. rewrite <- E0 in Hr. unfold py_index, fits_intp.
    repeat match goal with
           | |- context [?a <=? ?b] => destruct (Z.leb_spec a b)
           | |- context [?a <? ?b] => destruct (Z.ltb_spec a b)
           end; cbn [andb negb]; try (eexists; reflexivity); lia. }
  split; [|split; [|split; [|split]]].
  - intros Hr Hc. unfold Frame.get.
    rewrite <- E0, <- E1 in *.
    rewrite !py_index_negative, !py_index_in_range by lia.
    repeat split.
  - intros Hfit Hr. unfold Frame.get.
    rewrite py_index_outside by (rewrite ?E0; assumption). reflexivity.
  - intros Hr Hfit Hc. unfold Frame.get.
    destruct (Hvalid Hr) as (r & ->).
    rewrite py_index_outside by (rewrite ?E1; assumption). reflexivity.
  - intros Hr. unfold Frame.get. now rewrite py_index_overflow.
  - intros Hr Hc. unfold Frame.get.
    destruct (Hvalid Hr) as (r & ->). now rewrite py_index_overflow.
Qed.

Lemma get_indexes_like_python_witness :
  Frame.shape_ok red_pixel /\
  0 <= 0 < Frame._height red_pixel /\ 0 <= 0 < Frame._width red_pixel /\
  Frame.get (-1) (-1) red_pixel = (Ok red, red_pixel) /\
  (1 < - Frame._height red_pixel \/ Frame._height red_pixel <= 1) /\
  Frame.get 1 0 red_pixel = (Raise IndexError, red_pixel) /\
  (intp_limit < - intp_limit \/ intp_limit <= intp_limit) /\
  Frame.get intp_limit 0 red_pixel = (Raise OverflowError, red_pixel).
Proof.
  assert (H0 : Frame.shape_ok red_pixel).
  { unfold Frame.shape_ok, array_ok. simpl.
    repeat split; try lia; repeat constructor. }
  assert (H1 : 0 <= 0 < Frame._height red_pixel) by (simpl; lia).
  assert (H2 : 0 <= 0 < Frame._width red_pixel) by (simpl; lia).
  assert (H3 : 1 < - Frame._height red_pixel \/ Frame._height red_pixel <= 1)
    by (right; simpl; lia).
  assert (H4 : - intp_limit <= 1 < intp_limit) by lia.
  assert (H5 : intp_limit < - intp_limit \/ intp_limit <= intp_limit)
    by (right; lia).
  split; [exact H0|]. split; [exact H1|]. split; [exact H2|].
  split.
  { destruct (get_indexes_like_python red_pixel 0 0 H0) as (Hin & _).
    destruct (Hin H1 H2) as (Hg & Hn & _).
    exact (eq_trans Hn Hg). }
  split; [exact H3|].
  split.
  { exact (proj1 (proj2 (get_indexes_like_python red_pixel 1 0 H0)) H4 H3). }
  split; [exact H5|].
  exact (proj1 (proj2 (proj2 (proj2
           (get_indexes_like_python red_pixel intp_limit 0 H0)))) H5).
Defined.

Lemma frame_eta f :
  Frame.with_matrix f
    (mkArray (shape0 (Frame._matrix f)) (shape1 (Frame._matrix f))
       (cells (Frame._matrix f)) (writeable (Frame._matrix f))) = f.
Proof. destruct f as [d w h [s0 s1 cs wr] b]. reflexivity. Qed.

Lemma nth_map_const {A B} (z : B) (l : list A) (n : nat) :
  nth n (map (fun _ => z) l) z = z.
Proof. revert n. induction l; intros [|n]; simpl; auto. Qed.

(** X3.  On a frame at rest [clear()] succeeds and leaves a frame at
    rest on the same driver, and [get] then returns the zero colour at
    every position inside the frame, whatever was drawn before.  On a
    read-only matrix [clear()] raises [ValueError] and changes
    nothing. *)
Theorem clear_then_get (f : Frame.t) :
  (Frame.frame_ok f ->
   exists f',
     Frame.clear f = (Ok tt, f') /\
     Frame.frame_ok f' /\
     Frame._driver f' = Frame._driver f /\
     forall row col,
       0 <= row < Frame._height f -> 0 <= col < Frame._width f ->
       Frame.get row col f' = (Ok rgba_zero, f')) /\
  (writeable (Frame._matrix f) = false ->
   Frame.clear f = (Raise ValueError, f)).
Proof.
  split.
  - intros [(HH & HW & Hs0 & Hs1 & Hlen & Hrows) Hw].
    unfold Frame.clear, fill_zero. rewrite Hw.
    eexists. split; [reflexivity|].
    assert (Hok : Frame.shape_ok
              (Frame.with_matrix f
                 (mkArray (shape0 (Frame._matrix f)) (shape1 (Frame._matrix f))
                    (map (map (fun _ => rgba_zero)) (cells (Frame._matrix f)))
                    true))).
    { repeat split; simpl; try assumption; try lia.
      - now rewrite length_map.
      - apply Forall_forall. intros r Hr.
        apply in_map_iff in Hr. destruct Hr as (r0 & <- & Hr0).
        rewrite length_map. rewrite Forall_forall in Hrows. now apply Hrows. }
    split; [split; [exact Hok | reflexivity]|].
    split; [reflexivity|].
    intros row col Hr Hc.
    rewrite (get_inside _ row col Hok Hr Hc). f_equal. f_equal.
    unfold Frame.cell_at. simpl.
    assert (Hrl : (Z.to_nat row < length (cells (Frame._matrix f)))%nat)
      by (rewrite Hlen, Hs0; lia).
    rewrite (nth_indep _ _ (map (fun _ : rgba => rgba_zero) []))
      by (now rewrite length_map).
    rewrite map_nth.
    apply nth_map_const.
  - intros Hw. unfold Frame.clear, fill_zero. now rewrite Hw.
Qed.

Lemma clear_then_get_witness :
  Frame.frame_ok red_pixel /\
  0 <= 0 < Frame._height red_pixel /\ 0 <= 0 < Frame._width red_pixel /\
  writeable (Frame._matrix (read_only red_pixel)) = false /\
  (exists f', Frame.clear red_pixel = (Ok tt, f') /\
              Frame.get 0 0 f' = (Ok rgba_zero, f')) /\
  Frame.clear (read_only red_pixel) = (Raise ValueError, read_only red_pixel).
Proof.
  assert (H0 : Frame.frame_ok red_pixel).
  { unfold Frame.frame_ok, Frame.shape_ok, array_ok. simpl.
    repeat split; try lia; repeat constructor. }
  assert (H1 : 0 <= 0 < Frame._height red_pixel) by (simpl; lia).
  assert (H2 : 0 <= 0 < Frame._width red_pixel) by (simpl; lia).
  assert (H3 : writeable (Frame._matrix (read_only red_pixel)) = false)
    by reflexivity.
  repeat (split; [assumption|]).
  split.
  - destruct (proj1 (clear_then_get red_pixel) H0) as (f' & E & _ & _ & Hget).
    exists f'. split; [exact E | exact (Hget 0 0 H1 H2)].
  - exact (proj2 (clear_then_get (read_only red_pixel)) H3).
Defined.

(** [put] with an index numpy keeps as a Python object: the mask
    selects nothing, and the read [img[rr, cc]] refuses the array. *)
Lemma put_object (f : Frame.t) (row col : Z) (color : Frame.Color) :
  row < - intp_limit \/ uintp_limit <= row \/
  col < - intp_limit \/ uintp_limit <= col ->
  Frame.put row col color f = (Raise IndexError, f).
Proof.
  intros Hobj. unfold Frame.put, Frame.set_color_on_matrix, Frame._set_color.
  destruct color as [[[r1 g1] b1] a1]. cbn [Frame.color_tuple].
  unfold Frame._coords_inside_image, Frame.atleast_1d.
  destruct ((- intp_limit <=? row) && (row <? uintp_limit)) eqn:Er;
    destruct ((- intp_limit <=? col) && (col <? uintp_limit)) eqn:Ec.
  - apply andb_true_iff in Er, Ec. rewrite Z.leb_le, Z.ltb_lt in Er, Ec. lia.
  - cbn [Frame.in_range map Frame.mask_and length Nat.eqb Frame.map2
         Frame.array1_len repeat Frame.select_array Frame.select
         Frame.select_same].
    destruct (_ && _); reflexivity.
  - cbn [Frame.in_range map Frame.mask_and length Nat.eqb Frame.map2
         Frame.array1_len repeat Frame.select_array Frame.select
         Frame.select_same].
    destruct (_ && _); reflexivity.
  - cbn [Frame.in_range map Frame.mask_and length Nat.eqb Frame.map2
         Frame.array1_len repeat Frame.select_array Frame.select
         Frame.select_same].
    destruct (_ && _); reflexivity.
Qed.

(** X4.  [put] clips.  On a frame at rest, a row or a column outside
    [0, H) x [0, W) (negative indices included, which [get] would
    accept) makes [put] return without raising and without changing the
    frame, as long as both indices fit a C integer.  An index below
    [-2^63], or from [2^64] up, makes numpy build an array of Python
    objects, and [put] raises [IndexError]; the frame is as it was. *)
Theorem put_outside_changes_nothing (f : Frame.t) (row col : Z)
    (color : Frame.Color) :
  Frame.frame_ok f ->
  (- intp_limit <= row < intp_limit ->
   - intp_limit <= col < intp_limit ->
   ~ (0 <= row < Frame._height f /\ 0 <= col < Frame._width f) ->
   Frame.put row col color f = (Ok tt, f)) /\
  (row < - intp_limit \/ uintp_limit <= row \/
   col < - intp_limit \/ uintp_limit <= col ->
   Frame.put row col color f = (Raise IndexError, f)).
Proof.
  intros [(HH & HW & Hs0 & Hs1 & Hlen & Hrows) Hw]. split.
  - intros Hr Hc Hout.
    rewrite put_integer by (assumption || lia).
    assert (Hin : inside (shape0 (Frame._matrix f), shape1 (Frame._matrix f))
                    (row, col, Finite 1) = false).
    { apply not_true_is_false. intros Hin. apply inside_spec in Hin.
      unfold row_of, col_of in Hin. simpl in Hin.
      rewrite Hs0, Hs1, !Z2Nat.id in Hin by lia. tauto. }
    unfold drawn. cbn [map filter]. rewrite Hin. cbn [map Frame.assign].
    rewrite <- Hw. now rewrite frame_eta.
  - apply put_object.
Qed.

Lemma put_outside_changes_nothing_witness :
  Frame.frame_ok red_pixel /\
  - intp_limit <= -1 < intp_limit /\ - intp_limit <= 0 < intp_limit /\
  ~ (0 <= -1 < Frame._height red_pixel /\ 0 <= 0 < Frame._width red_pixel) /\
  Frame.put (-1) 0 Frame.black red_pixel = (Ok tt, red_pixel) /\
  (uintp_limit < - intp_limit \/ uintp_limit <= uintp_limit \/
   0 < - intp_limit \/ uintp_limit <= 0) /\
  Frame.put uintp_limit 0 Frame.black red_pixel = (Raise IndexError, red_pixel).
Proof.
  assert (H0 : Frame.frame_ok red_pixel).
  { unfold Frame.frame_ok, Frame.shape_ok, array_ok. simpl.
    repeat split; try lia; repeat constructor. }
  assert (H1 : ~ (0 <= -1 < Frame._height red_pixel /\
                  0 <= 0 < Frame._width red_pixel)) by (simpl; lia).
  assert (H2 : - intp_limit <= -1 < intp_limit) by lia.
  assert (H3 : - intp_limit <= 0 < intp_limit) by lia.
  assert (H4 : uintp_limit < - intp_limit \/ uintp_limit <= uintp_limit \/
               0 < - intp_limit \/ uintp_limit <= 0) by (right; left; lia).
  split; [exact H0|]. split; [exact H2|]. split; [exact H3|].
  split; [exact H1|].
  split.
  { exact (proj1 (put_outside_changes_nothing red_pixel (-1) 0 Frame.black H0)
             H2 H3 H1). }
  split; [exact H4|].
  exact (proj2 (put_outside_changes_nothing red_pixel uintp_limit 0
                  Frame.black H0) H4).
Defined.

(** X5.  On a frame at rest, [put] at a position inside the frame
    touches that cell only: every other cell keeps its value, the
    matrix keeps its shape and stays writable, and nothing is sent to
    the driver. *)
Theorem put_changes_one_cell (f : Frame.t) (row col : Z) (color : Frame.Color) :
  Frame.frame_ok f ->
  0 <= row < Frame._height f ->
  0 <= col < Frame._width f ->
  exists f',
    Frame.put row col color f = (Ok tt, f') /\
    Frame.frame_ok f' /\
    Frame._driver f' = Frame._driver f /\
    Frame._width f' = Frame._width f /\ Frame._height f' = Frame._height f /\
    forall r0 c0,
      (r0, c0) <> (Z.to_nat row, Z.to_nat col) ->
      Frame.cell_at (cells (Frame._matrix f')) r0 c0
      = Frame.cell_at (cells (Frame._matrix f)) r0 c0.
Proof.
  intros [(HH & HW & Hs0 & Hs1 & Hlen & Hrows) Hw] Hrow Hcol.
  rewrite put_integer by (assumption || lia).
  eexists. split; [reflexivity|].
  destruct (drawn_shape (Frame._matrix f) color
              [(row, col, Finite 1)] _ Hrows) as [Hl Hf].
  split; [|split; [reflexivity|split; [reflexivity|split; [reflexivity|]]]].
  - split; [|reflexivity]. unfold Frame.shape_ok, array_ok.
    cbn [Frame._height Frame._width Frame._matrix Frame.with_matrix
         shape0 shape1 cells].
    rewrite Hl. repeat split; assumption || lia.
  - intros r0 c0 Hne.
    cbn [Frame._matrix Frame.with_matrix cells]. apply drawn_untouched.
    intros p [<-|[]]. unfold row_of, col_of. simpl.
    intros E. injection E as Er Ec. apply Hne. f_equal; lia.
Qed.

Lemma put_changes_one_cell_witness :
  Frame.frame_ok (blank quiet_driver 2 3) /\
  0 <= 1 < Frame._height (blank quiet_driver 2 3) /\
  0 <= 1 < Frame._width (blank quiet_driver 2 3) /\
  exists f',
    Frame.put 1 1 red (blank quiet_driver 2 3) = (Ok tt, f') /\
    Frame.cell_at (cells (Frame._matrix f')) 2 1 = rgba_zero.
Proof.
  assert (H1 : Frame.frame_ok (blank quiet_driver 2 3))
    by exact (init_frame_ok _ _ _ _ _ _ blank_is_init).
  assert (H2 : 0 <= 1 < Frame._height (blank quiet_driver 2 3)) by (simpl; lia).
  assert (H3 : 0 <= 1 < Frame._width (blank quiet_driver 2 3)) by (simpl; lia).
  split; [exact H1 | split; [exact H2 | split; [exact H3 | ]]].
  destruct (put_changes_one_cell (blank quiet_driver 2 3) 1 1 red H1 H2 H3)
    as (f' & E & _ & _ & _ & _ & Hother).
  exists f'. split; [exact E|].
  rewrite (Hother 2%nat 1%nat) by (simpl; discriminate). reflexivity.
Defined.

Lemma select_same_length {A} (mask : list bool) : forall l : list A,
  length mask = length l -> exists r, Frame.select_same mask l = Ok r.
Proof.
  induction mask as [|b m IH]; intros [|x t] Hl; simpl in *;
    try discriminate; [now exists []|].
  destruct (IH t) as (r & ->); [congruence|]. eexists. reflexivity.
Qed.

Lemma coords_inside_image_filter (shape : nat * nat)
    (pts : list (Z * Z * float)) :
  Frame._coords_inside_image (Frame.IntArray (map row_of pts))
    (Frame.IntArray (map col_of pts)) shape (map snd pts)
  = Ok (Frame.IntArray (map row_of (filter (inside shape) pts)),
        Frame.IntArray (map col_of (filter (inside shape) pts)),
        map snd (filter (inside shape) pts)).
Proof.
  unfold Frame._coords_inside_image, Frame.mask_and.
  replace (length (Frame.in_range (fst shape) (Frame.IntArray (map row_of pts)))
           =? length (Frame.in_range (snd shape)
                        (Frame.IntArray (map col_of pts))))%nat
    with true
    by (symmetry; apply Nat.eqb_eq; simpl; now rewrite !length_map).
  unfold Frame.select_array.
  rewrite (select_inside shape row_of), (select_inside shape col_of),
    (select_inside shape snd).
  reflexivity.
Qed.

(** X6.  [_coords_inside_image] on two integer arrays and a value array
    of one common length returns, in order, exactly the entries whose
    row lies in [0, shape[0]) and whose column lies in [0, shape[1]).
    On index arrays of different lengths: when neither has length one
    the comparison cannot broadcast and raises [ValueError]; when one
    is empty and the other has one entry the mask is empty and three
    empty arrays are returned; when one has one entry and the other two
    or more, the mask does not fit the shorter array and [IndexError]
    is raised. *)
Theorem coords_inside_image_keeps_inside (shape : nat * nat) :
  (forall pts : list (Z * Z * float),
     let kept := filter (inside shape) pts in
     Frame._coords_inside_image (Frame.IntArray (map row_of pts))
       (Frame.IntArray (map col_of pts)) shape (map snd pts)
     = Ok (Frame.IntArray (map row_of kept), Frame.IntArray (map col_of kept),
           map snd kept) /\
     Forall (fun p => 0 <= row_of p < Z.of_nat (fst shape) /\
                      0 <= col_of p < Z.of_nat (snd shape)) kept) /\
  (forall rr cc val,
     length rr <> length cc ->
     let run :=
       Frame._coords_inside_image (Frame.IntArray rr) (Frame.IntArray cc)
         shape val in
     (length rr <> 1%nat -> length cc <> 1%nat -> run = Raise ValueError) /\
     ((length rr = 1%nat /\ length cc = 0%nat) \/
      (length rr = 0%nat /\ length cc = 1%nat) ->
      run = Ok (Frame.IntArray [], Frame.IntArray [], [])) /\
     ((length rr = 1%nat /\ (2 <= length cc)%nat) \/
      ((2 <= length rr)%nat /\ length cc = 1%nat) ->
      run = Raise IndexError)).
Proof.
  split.
  - intros pts kept. split.
    + apply coords_inside_image_filter.
    + apply Forall_forall. intros p Hp. apply filter_In in Hp.
      now apply inside_spec.
  - intros rr cc val Hne run. subst run.
    unfold Frame._coords_inside_image, Frame.mask_and.
    cbn [Frame.in_range]. rewrite !length_map.
    destruct (Nat.eqb_spec (length rr) (length cc)) as [E|_]; [contradiction|].
    split; [|split].
    + intros Hr Hc.
      destruct rr as [|r0 [|r1 rr']], cc as [|c0 [|c1 cc']];
        cbn in Hr, Hc, Hne |- *; try reflexivity; congruence.
    + intros [[Hr Hc]|[Hr Hc]];
        destruct rr as [|r0 [|r1 rr']], cc as [|c0 [|c1 cc']];
        cbn in Hr, Hc; try discriminate; reflexivity.
    + intros [[Hr Hc]|[Hr Hc]].
      * destruct rr as [|r0 [|r1 rr']]; try discriminate Hr.
        destruct cc as [|c0 [|c1 cc']]; cbn in Hc; try lia.
        cbn. reflexivity.
      * destruct cc as [|c0 [|c1 cc']]; try discriminate Hc.
        destruct rr as [|r0 [|r1 rr']]; cbn in Hr; try lia.
        cbn [map Frame.select_array Frame.select].
        set (mask := _ :: _ :: _).
        destruct (select_same_length mask (r0 :: r1 :: rr')) as (r & ->).
        { subst mask. cbn [length]. now rewrite !length_map. }
        subst mask. cbn [Frame.select_same]. reflexivity.
Qed.

Lemma coords_inside_image_keeps_inside_witness :
  length [0; 5] <> length [0; 1; 2] /\
  length [0; 5] <> 1%nat /\ length [0; 1; 2] <> 1%nat /\
  Frame._coords_inside_image (Frame.IntArray [0; 5]) (Frame.IntArray [0; 1; 2])
    (3%nat, 2%nat) [Finite 1]
  = Raise ValueError /\
  length (@nil Z) <> length [0] /\
  Frame._coords_inside_image (Frame.IntArray []) (Frame.IntArray [0])
    (3%nat, 2%nat) [Finite 1]
  = Ok (Frame.IntArray [], Frame.IntArray [], []).
Proof.
  assert (H : length [0; 5] <> length [0; 1; 2]) by (simpl; lia).
  assert (H1 : length [0; 5] <> 1%nat) by (simpl; lia).
  assert (H2 : length [0; 1; 2] <> 1%nat) by (simpl; lia).
  assert (H3 : length (@nil Z) <> length [0]) by (simpl; lia).
  split; [exact H|]. split; [exact H1|]. split; [exact H2|].
  split.
  { exact (proj1 (proj2 (coords_inside_image_keeps_inside (3%nat, 2%nat))
                    [0; 5] [0; 1; 2] [Finite 1] H) H1 H2). }
  split; [exact H3|].
  exact (proj1 (proj2 (proj2 (coords_inside_image_keeps_inside (3%nat, 2%nat))
                          [] [0] [Finite 1] H3))
           (or_intror (conj eq_refl eq_refl))).
Defined.

Lemma set_color_points_read_only img color (pts : list (Z * Z * float)) :
  writeable img = false ->
  Frame._set_color img
    [Frame.IntArray (map row_of pts); Frame.IntArray (map col_of pts)]
    (Frame.color_tuple color) (Frame.Alphas (map snd pts))
  = Raise ValueError.
Proof.
  intros Hw. destruct color as [[[r g] b] a].
  unfold Frame._set_color, Frame.color_tuple.
  rewrite (coords_inside_image_filter (shape0 img, shape1 img) pts).
  now rewrite Hw.
Qed.

Lemma set_color_scalar_read_only img color (a : float) (pts : list (Z * Z)) :
  writeable img = false ->
  Frame._set_color img
    [Frame.IntArray (map fst pts); Frame.IntArray (map snd pts)]
    (Frame.color_tuple color) (Frame.Scalar a)
  = Raise ValueError.
Proof.
  intros Hw.
  rewrite <- (set_color_points_read_only img color (map (fun p => (p, a)) pts) Hw).
  rewrite !map_map. simpl.
  destruct color as [[[r g] b] al]. simpl.
  replace (repeat a (length (map fst pts)))
    with (map (fun _ : Z * Z => a) pts); [reflexivity|].
  rewrite length_map. clear. induction pts; simpl; congruence.
Qed.

Section MoreDrawing.

Variable draw_circle : Z -> Z -> Z -> nat * nat -> result (list (Z * Z)).
Variable draw_circle_perimeter_aa :
  Z -> Z -> Z -> nat * nat -> result (list (Z * Z * float)).

(** X7.  While the matrix is read-only, as it is during [prepare] and
    [update], drawing raises and leaves the frame as it is.  [put]
    raises [ValueError] at any position, inside the frame or not, whose
    indices fit a C integer, and [IndexError] when an index is below
    [-2^63] or from [2^64] up (the read [img[rr, cc]] comes before the
    write).  [circle] raises [ValueError] once its radius is rounded
    and the rasteriser has returned its points, whatever they are;
    [ValueError] for a NaN radius and [OverflowError] for an infinite
    one, from [round]; and what the rasteriser raises. *)
Theorem drawing_on_read_only_raises (f : Frame.t) (row col : Z)
    (radius : float) (color : Frame.Color) (fill : bool) :
  writeable (Frame._matrix f) = false ->
  let run :=
    Frame.circle draw_circle draw_circle_perimeter_aa row col radius color fill f in
  (- intp_limit <= row < intp_limit -> - intp_limit <= col < intp_limit ->
   Frame.put row col color f = (Raise ValueError, f)) /\
  (row < - intp_limit \/ uintp_limit <= row \/
   col < - intp_limit \/ uintp_limit <= col ->
   Frame.put row col color f = (Raise IndexError, f)) /\
  (forall r pts,
     py_round radius = Ok r ->
     circle_points draw_circle draw_circle_perimeter_aa f row col r fill = Ok pts ->
     run = (Raise ValueError, f)) /\
  (radius = NaN -> run = (Raise ValueError, f)) /\
  (radius = PosInf \/ radius = NegInf -> run = (Raise OverflowError, f)) /\
  (forall r e,
     py_round radius = Ok r ->
     circle_points draw_circle draw_circle_perimeter_aa f row col r fill = Raise e ->
     run = (Raise e, f)).
Proof.
  intros Hw run. subst run. split; [|split; [|split; [|split; [|split]]]].
  - intros Hr Hc. unfold Frame.put, Frame.set_color_on_matrix.
    rewrite !atleast_1d_fits by lia.
    change [Frame.IntArray [row]; Frame.IntArray [col]]
      with [Frame.IntArray (map fst [(row, col)]);
            Frame.IntArray (map snd [(row, col)])].
    now rewrite set_color_scalar_read_only.
  - apply put_object.
  - intros r pts Hr Hpts.
    rewrite (circle_unfold draw_circle draw_circle_perimeter_aa
               f row col radius color fill r Hr), Hpts.
    unfold Frame.set_color_on_matrix.
    now rewrite set_color_points_read_only.
  - intros ->. reflexivity.
  - intros [-> | ->]; reflexivity.
  - intros r e Hr Hpts.
    now rewrite (circle_unfold draw_circle draw_circle_perimeter_aa
                   f row col radius color fill r Hr), Hpts.
Qed.

End MoreDrawing.

Lemma drawing_on_read_only_raises_witness :
  writeable (Frame._matrix (read_only red_pixel)) = false /\
  - intp_limit <= 0 < intp_limit /\
  Frame.put 0 0 Frame.black (read_only red_pixel)
  = (Raise ValueError, read_only red_pixel) /\
  py_round (Finite 1) = Ok 1 /\
  circle_points sample_circle sample_perimeter (read_only red_pixel) 0 0 1 false
  = Ok (map (fun p => (p, Finite (1 # 2))) (sample_points 0 0 1)) /\
  Frame.circle sample_circle sample_perimeter 0 0 (Finite 1) Frame.black false
    (read_only red_pixel)
  = (Raise ValueError, read_only red_pixel).
Proof.
  assert (H : writeable (Frame._matrix (read_only red_pixel)) = false)
    by reflexivity.
  assert (H0 : - intp_limit <= 0 < intp_limit) by lia.
  assert (H1 : py_round (Finite 1) = Ok 1) by reflexivity.
  assert (H2 : circle_points sample_circle sample_perimeter
                 (read_only red_pixel) 0 0 1 false
               = Ok (map (fun p => (p, Finite (1 # 2))) (sample_points 0 0 1)))
    by reflexivity.
  destruct (drawing_on_read_only_raises sample_circle sample_perimeter
              (read_only red_pixel) 0 0 (Finite 1) Frame.black false H)
    as (Hput & _ & Hcircle & _).
  split; [exact H|]. split; [exact H0|].
  split; [exact (Hput H0 H0)|].
  split; [exact H1|]. split; [exact H2|].
  exact (Hcircle 1 _ H1 H2).
Defined.

Lemma circle_clips_witness :
  Frame.frame_ok (blank quiet_driver 2 3) /\
  py_round (Finite (3 # 2)) = Ok 2 /\
  circle_points sample_circle sample_perimeter (blank quiet_driver 2 3) 0 0 2 true
  = Ok (map (fun p => (p, Finite 1)) (sample_points 0 0 2)) /\
  exists f',
    Frame.circle sample_circle sample_perimeter 0 0 (Finite (3 # 2)) red true
      (blank quiet_driver 2 3) = (Ok tt, f') /\
    Frame.frame_ok f' /\
    Frame.cell_at (cells (Frame._matrix f')) 2 1 = rgba_zero.
Proof.
  assert (H1 : Frame.frame_ok (blank quiet_driver 2 3))
    by exact (init_frame_ok _ _ _ _ _ _ blank_is_init).
  assert (H2 : py_round (Finite (3 # 2)) = Ok 2) by reflexivity.
  assert (H3 : circle_points sample_circle sample_perimeter
                 (blank quiet_driver 2 3) 0 0 2 true
               = Ok (map (fun p => (p, Finite 1)) (sample_points 0 0 2)))
    by reflexivity.
  split; [exact H1|]. split; [exact H2|]. split; [exact H3|].
  destruct (circle_clips sample_circle sample_perimeter
              (blank quiet_driver 2 3) 0 0 (Finite (3 # 2)) red true H1)
    as (Hclips & _).
  destruct (Hclips 2 _ H2 H3) as (f' & E & Hok & _ & _ & Hother).
  exists f'. split; [exact E|]. split; [exact Hok|].
  rewrite (Hother 2%nat 1%nat); [reflexivity|].
  intros p Hp. simpl in Hp.
  repeat (destruct Hp as [<-|Hp]; [simpl; discriminate|]). contradiction.
Defined.

(** * More of the encoder *)

Section MoreEncoder.

Variable rgba2rgb : Frame.Color -> rgba -> list byte.

Lemma row_bytes_first_columns (g : rgba -> list byte) (width : Z)
    (row : list rgba) :
  0 <= width <= Frame.MAX_WIDTH ->
  Frame.row_bytes width (map g row)
  = Frame.row_bytes width (map g (firstn (Z.to_nat Frame.MAX_WIDTH) row)).
Proof.
  intros Hw. unfold Frame.row_bytes, slice_to.
  destruct (Z.leb_spec 0 width); [|lia].
  rewrite <- !firstn_map, firstn_firstn.
  replace (Init.Nat.min (Z.to_nat width) (Z.to_nat Frame.MAX_WIDTH))
    with (Z.to_nat width) by lia.
  reflexivity.
Qed.

Lemma as_img_same_row_bytes f1 f2 :
  same_first_columns f1 f2 -> 0 <= Frame._width f1 ->
  same_row_bytes (Z.min (Frame._width f1) Frame.MAX_WIDTH)
    (Frame._as_img rgba2rgb f1) (Frame._as_img rgba2rgb f2).
Proof.
  intros (_ & _ & _ & Hb & Hcells) Hw i. unfold Frame._as_img.
  rewrite !nth_error_map, Hb.
  apply (f_equal (fun l => nth_error l i)) in Hcells.
  rewrite !nth_error_map in Hcells.
  destruct (nth_error (cells (Frame._matrix f1)) i) as [r1|],
    (nth_error (cells (Frame._matrix f2)) i) as [r2|];
    cbn [option_map] in *; try discriminate; [|reflexivity].
  assert (Hrow : firstn (Z.to_nat Frame.MAX_WIDTH) r1
                 = firstn (Z.to_nat Frame.MAX_WIDTH) r2)
    by (now injection Hcells).
  f_equal.
  rewrite (row_bytes_first_columns _ _ r1), (row_bytes_first_columns _ _ r2)
    by (unfold Frame.MAX_WIDTH; lia).
  now rewrite Hrow.
Qed.

Lemma driver_call_run_command t f :
  Frame.driver_call (run_command t) f
  = (match respond (Frame._driver f) (issued (Frame._driver f)) t with
     | Some e => Raise e
     | None => Ok tt
     end,
     Frame.with_driver f (sends (Frame._driver f) [t])).
Proof.
  unfold Frame.driver_call, run_command, sends.
  now destruct (respond _ _ _).
Qed.

Lemma send_rows_same_row_bytes frame_id width height tid img1 img2 :
  same_row_bytes width img1 img2 ->
  forall rows f1 f2,
    Frame._driver f1 = Frame._driver f2 ->
    fst (Frame.send_rows frame_id width height tid img1 rows f1)
    = fst (Frame.send_rows frame_id width height tid img2 rows f2) /\
    Frame._driver (snd (Frame.send_rows frame_id width height tid img1 rows f1))
    = Frame._driver (snd (Frame.send_rows frame_id width height tid img2 rows f2)).
Proof.
  intros Himg. induction rows as [|row rest IH]; intros f1 f2 Hd; simpl.
  - now split.
  - unfold bind.
    specialize (Himg (Z.to_nat row)).
    destruct (nth_error img1 (Z.to_nat row)) as [r1|],
      (nth_error img2 (Z.to_nat row)) as [r2|];
      simpl in Himg; try discriminate.
    + injection Himg as Hbytes.
      rewrite !driver_call_run_command. unfold Frame.row_transaction.
      rewrite Hbytes, Hd.
      destruct (respond (Frame._driver f2) (issued (Frame._driver f2)) _).
      * split; reflexivity.
      * apply IH. reflexivity.
    + unfold raise. split; [reflexivity | exact Hd].
Qed.

(** X10.  Only the first [MAX_WIDTH] = 24 columns reach the transport:
    two frames on the same driver, of the same size and base colour,
    whose rows agree on their first 24 cells are serialised by
    [_set_frame_data] with the same outcome and the same calls,
    whatever the columns from 24 on hold. *)
Theorem columns_beyond_max_width_not_sent (f1 f2 : Frame.t)
    (frame_id : option Z) :
  same_first_columns f1 f2 ->
  0 <= Frame._width f1 ->
  fst (Frame._set_frame_data rgba2rgb frame_id f1)
  = fst (Frame._set_frame_data rgba2rgb frame_id f2) /\
  Frame._driver (snd (Frame._set_frame_data rgba2rgb frame_id f1))
  = Frame._driver (snd (Frame._set_frame_data rgba2rgb frame_id f2)).
Proof.
  intros Hsame Hw.
  pose proof (as_img_same_row_bytes f1 f2 Hsame Hw) as Himg.
  destruct Hsame as (Hd & Hwd & Hh & Hb & Hcells).
  unfold Frame._set_frame_data. rewrite <- Hh.
  destruct (Frame._height f1 =? 1).
  - unfold Frame._set_frame_data_single. rewrite <- Hwd.
    specialize (Himg 0%nat).
    destruct (nth_error (Frame._as_img rgba2rgb f1) 0) as [r1|],
      (nth_error (Frame._as_img rgba2rgb f2) 0) as [r2|];
      simpl in Himg; try discriminate.
    + injection Himg as Hbytes.
      rewrite !driver_call_run_command. rewrite Hbytes, Hd.
      destruct (respond (Frame._driver f2) (issued (Frame._driver f2)) _);
        split; reflexivity.
    + split; [reflexivity | exact Hd].
  - unfold Frame._set_frame_data_matrix. rewrite <- Hwd, <- Hh, Hd.
    apply send_rows_same_row_bytes; assumption.
Qed.

(** X11.  A frame of height 0 has no frame data: [_set_frame_data]
    returns without calling the transport, and [update] makes one call
    only, the flip command. *)
Theorem empty_frame_sends_only_flip (f : Frame.t) (frame_id : option Z) :
  Frame._height f = 0 ->
  Frame._set_frame_data rgba2rgb frame_id f = (Ok tt, f) /\
  issued (Frame._driver (snd (Frame.update rgba2rgb frame_id f)))
  = issued (Frame._driver f) ++ [mkTransaction CUSTOM_FRAME [] None None].
Proof.
  intros H0.
  assert (E : forall g, Frame._height g = 0 ->
                        Frame._set_frame_data rgba2rgb frame_id g = (Ok tt, g)).
  { intros g Hg. unfold Frame._set_frame_data, Frame._set_frame_data_matrix.
    rewrite Hg. reflexivity. }
  split; [now apply E|].
  rewrite update_unfold, (E (read_only f)) by exact H0.
  unfold Frame.commit, Frame.driver_call, custom_frame, run_command.
  now destruct (respond _ _ _).
Qed.

(** X12.  [flip] is [update] followed, when asked and when [update]
    returned, by [clear].  If [update] raises, [flip] raises the same
    error and leaves the frame as [update] left it, pixels included.
    When [flip(clear=True)] returns, the frame and the transport are
    exactly as after [prepare] followed by [commit]. *)
Theorem flip_clears_after_update (f : Frame.t) (frame_id : option Z) :
  (forall do_clear e,
     fst (Frame.update rgba2rgb frame_id f) = Raise e ->
     Frame.flip rgba2rgb do_clear frame_id f
     = Frame.update rgba2rgb frame_id f) /\
  (fst (Frame.update rgba2rgb frame_id f) = Ok tt ->
   Frame.flip rgba2rgb false frame_id f = Frame.update rgba2rgb frame_id f /\
   Frame.flip rgba2rgb true frame_id f
   = prepare_then_commit rgba2rgb frame_id f).
Proof.
  split.
  - intros do_clear e He. unfold Frame.flip, bind.
    destruct (Frame.update rgba2rgb frame_id f) as [[u|e'] f']; simpl in He;
      [discriminate | reflexivity].
  - intros Hok. unfold Frame.flip, prepare_then_commit, bind.
    rewrite update_unfold in *. rewrite prepare_unfold.
    destruct (set_frame_data_driver_only rgba2rgb frame_id (read_only f))
      as (r & d & E).
    rewrite E in *. destruct r as [u|e]; [|discriminate Hok].
    unfold Frame.commit, Frame.driver_call, custom_frame, run_command in *.
    simpl in *.
    destruct (respond d (issued d) _); [discriminate Hok|].
    split; reflexivity.
Qed.

(** X13.  [reset] blanks the frame first: on a writable matrix every
    cell is zero afterwards and the matrix is writable, whether or not
    the transport accepted the frame, and what is sent is what [update]
    sends for the cleared frame.  On a read-only matrix [reset] raises
    [ValueError] and sends nothing. *)
Theorem reset_blanks_frame (f : Frame.t) (frame_id : option Z) :
  (writeable (Frame._matrix f) = true ->
   cells (Frame._matrix (snd (Frame.reset rgba2rgb frame_id f)))
   = zeroed (cells (Frame._matrix f)) /\
   writeable (Frame._matrix (snd (Frame.reset rgba2rgb frame_id f))) = true /\
   Frame.reset rgba2rgb frame_id f
   = Frame.update rgba2rgb frame_id (snd (Frame.clear f))) /\
  (writeable (Frame._matrix f) = false ->
   Frame.reset rgba2rgb frame_id f = (Raise ValueError, f)).
Proof.
  split; intros Hw; unfold Frame.reset, bind, Frame.clear, fill_zero;
    rewrite Hw; [|reflexivity].
  cbn [snd]. rewrite update_unfold.
  destruct (set_frame_data_driver_only rgba2rgb frame_id
              (read_only
                 (Frame.with_matrix f
                    (mkArray (shape0 (Frame._matrix f)) (shape1 (Frame._matrix f))
                       (map (map (fun _ => rgba_zero)) (cells (Frame._matrix f)))
                       true)))) as (r & d & ->).
  destruct r as [u|e]; [|repeat split].
  match goal with
  | |- context [Frame.commit ?g] =>
      destruct (commit_driver_only g) as (rc & d2 & ->)
  end.
  repeat split.
Qed.

End MoreEncoder.

Lemma columns_beyond_max_width_not_sent_witness :
  same_first_columns (wide_frame rgba_zero) (wide_frame red) /\
  0 <= Frame._width (wide_frame rgba_zero) /\
  Frame._driver
    (snd (Frame._set_frame_data sample_rgba2rgb None (wide_frame rgba_zero)))
  = Frame._driver
      (snd (Frame._set_frame_data sample_rgba2rgb None (wide_frame red))).
Proof.
  assert (H1 : same_first_columns (wide_frame rgba_zero) (wide_frame red))
    by (repeat split).
  assert (H2 : 0 <= Frame._width (wide_frame rgba_zero)) by (simpl; lia).
  split; [exact H1|]. split; [exact H2|].
  exact (proj2 (columns_beyond_max_width_not_sent sample_rgba2rgb
                  (wide_frame rgba_zero) (wide_frame red) None H1 H2)).
Defined.

Lemma empty_frame_sends_only_flip_witness :
  Frame._height (blank flaky_driver 3 0) = 0 /\
  Frame._set_frame_data sample_rgba2rgb None (blank flaky_driver 3 0)
  = (Ok tt, blank flaky_driver 3 0).
Proof.
  assert (H : Frame._height (blank flaky_driver 3 0) = 0) by reflexivity.
  split; [exact H|].
  exact (proj1 (empty_frame_sends_only_flip sample_rgba2rgb
                  (blank flaky_driver 3 0) None H)).
Defined.

Lemma flip_clears_after_update_witness :
  fst (Frame.update sample_rgba2rgb None (blank flaky_driver 2 3))
  = Raise (DeviceError 5) /\
  Frame.flip sample_rgba2rgb true None (blank flaky_driver 2 3)
  = Frame.update sample_rgba2rgb None (blank flaky_driver 2 3) /\
  fst (Frame.update sample_rgba2rgb None red_pixel) = Ok tt /\
  Frame.flip sample_rgba2rgb true None red_pixel
  = prepare_then_commit sample_rgba2rgb None red_pixel.
Proof.
  assert (H1 : fst (Frame.update sample_rgba2rgb None (blank flaky_driver 2 3))
               = Raise (DeviceError 5)) by reflexivity.
  assert (H2 : fst (Frame.update sample_rgba2rgb None red_pixel) = Ok tt)
    by reflexivity.
  split; [exact H1|].
  split; [exact (proj1 (flip_clears_after_update sample_rgba2rgb
                          (blank flaky_driver 2 3) None) true _ H1)|].
  split; [exact H2|].
  exact (proj2 (proj2 (flip_clears_after_update sample_rgba2rgb red_pixel None)
                  H2)).
Defined.

Lemma reset_blanks_frame_witness :
  writeable (Frame._matrix red_pixel) = true /\
  cells (Frame._matrix (snd (Frame.reset sample_rgba2rgb None red_pixel)))
  = [[rgba_zero]] /\
  writeable (Frame._matrix (read_only red_pixel)) = false /\
  Frame.reset sample_rgba2rgb None (read_only red_pixel)
  = (Raise ValueError, read_only red_pixel).
Proof.
  assert (H1 : writeable (Frame._matrix red_pixel) = true) by reflexivity.
  assert (H2 : writeable (Frame._matrix (read_only red_pixel)) = false)
    by reflexivity.
  split; [exact H1|].
  split; [exact (proj1 (proj1 (reset_blanks_frame sample_rgba2rgb red_pixel None)
                          H1))|].
  split; [exact H2|].
  exact (proj2 (reset_blanks_frame sample_rgba2rgb (read_only red_pixel) None) H2).
Defined.

(** * More of the renderer *)

Module ExclusiveFacts.
Import Renderer.

Lemma nth_error_list_set_same {A} (i : nat) (v : A) (l : list A) :
  (i < length l)%nat -> nth_error (list_set i v l) i = Some v.
Proof.
  revert i; induction l as [|h t IH]; intros [|i] Hi; simpl in *;
    try lia; auto. apply IH. lia.
Qed.

Lemma nth_error_list_set_other {A} (i j : nat) (v : A) (l : list A) :
  i <> j -> nth_error (list_set i v l) j = nth_error l j.
Proof.
  revert i j; induction l as [|h t IH]; intros [|i] [|j] Hij; simpl;
    try reflexivity; try congruence. apply IH. congruence.
Qed.

Lemma lock_state_update_other layers i j f :
  i <> j -> lock_state (store_update i f layers) j = lock_state layers j.
Proof.
  intros Hij. unfold lock_state, store_update.
  destruct (nth_error layers i); [|reflexivity].
  now rewrite nth_error_list_set_other.
Qed.

Lemma lock_state_update_same layers i f b :
  lock_state layers i = Some b ->
  (forall x, Layer.locked (f x) = true) \/ (forall x, Layer.locked (f x) = false) ->
  lock_state (store_update i f layers) i
  = Some (Layer.locked (f (nth i layers (Layer.mk [] None false)))).
Proof.
  intros Hi _. unfold lock_state, store_update in *.
  destruct (nth_error layers i) as [x|] eqn:E; [|discriminate].
  rewrite nth_error_list_set_same
    by (apply nth_error_Some; congruence).
  simpl. now rewrite (nth_error_nth _ _ _ E).
Qed.

Lemma exclusive_weaken s s' :
  layers s' = layers s ->
  (forall x, (count_occ Nat.eq_dec (places s') x
              <= count_occ Nat.eq_dec (places s) x)%nat) ->
  incl (expected_locks s') (expected_locks s) ->
  exclusive s -> exclusive s'.
Proof.
  intros Hl Hc Hi [Hnd Hlk]. split.
  - apply (NoDup_count_occ Nat.eq_dec). intros x.
    rewrite (NoDup_count_occ Nat.eq_dec) in Hnd.
    specialize (Hnd x). specialize (Hc x). lia.
  - rewrite Hl. rewrite Forall_forall in *.
    intros p Hp. apply Hlk. now apply Hi.
Qed.

Ltac count_places :=
  intros x; unfold places, slot_layer, held_layer; simpl;
  repeat first [rewrite count_occ_app | progress simpl];
  repeat match goal with
         | |- context [Nat.eq_dec ?a ?b] => destruct (Nat.eq_dec a b)
         end; simpl; unfold layer_ref in *; lia.

Ltac incl_locks :=
  intros p; unfold expected_locks, slot_layer; simpl;
  rewrite ?map_app; simpl; rewrite ?in_app_iff; simpl;
  rewrite ?in_app_iff; simpl; tauto.

Ltac weaken := apply exclusive_weaken; [reflexivity | count_places | incl_locks].

(** A layer that sits in one place sits in no other. *)
Lemma elsewhere_differs (l1 l2 l3 l4 : list layer_ref) (x y : layer_ref) :
  NoDup (l1 ++ l2 ++ l3 ++ l4) ->
  (In x l1 /\ (In y l2 \/ In y l3 \/ In y l4)) \/
  (In x l2 /\ (In y l1 \/ In y l3 \/ In y l4)) \/
  (In x l3 /\ (In y l1 \/ In y l2 \/ In y l4)) \/
  (In x l4 /\ (In y l1 \/ In y l2 \/ In y l3)) ->
  x <> y.
Proof.
  intros Hnd H ->.
  rewrite (NoDup_count_occ Nat.eq_dec) in Hnd. specialize (Hnd y).
  rewrite !count_occ_app in Hnd.
  assert (forall l, In y l -> (1 <= count_occ Nat.eq_dec l y)%nat) as Hin
    by (intros l Hl; now apply (count_occ_In Nat.eq_dec)).
  destruct H as [[Hx Hy]|[[Hx Hy]|[[Hx Hy]|[Hx Hy]]]];
    apply Hin in Hx; destruct Hy as [Hy|[Hy|Hy]]; apply Hin in Hy;
    unfold layer_ref in *; lia.
Qed.

(** Submitting the layer that was being drawn. *)
Lemma exclusive_submit ls r layer sl :
  exclusive (mkSys ls r (InDraw layer) sl) ->
  exclusive (mkSys (store_update layer (Layer.lock true) ls) r (AtPut layer) sl).
Proof.
  intros [Hnd Hlk]. split; [exact Hnd|].
  unfold expected_locks, places in *.
  cbn [rend layers at_pc slot _avail_q _active_q held_layer] in *.
  rewrite !Forall_app in *. destruct Hlk as (Hav & Hac & Hsl & Hheld).
  inversion Hheld as [|? ? Hl _]; subst. simpl in Hl.
  assert (Hother : forall y,
            In y (_avail_q r) \/ In y (_active_q r) \/ In y (slot_layer sl) ->
            lock_state (store_update layer (Layer.lock true) ls) y
            = lock_state ls y).
  { intros y Hy. apply lock_state_update_other.
    apply (elsewhere_differs _ _ _ _ layer y Hnd).
    right; right; right. split; [now left | tauto]. }
  repeat split.
  - rewrite Forall_forall in *. intros p Hp.
    rewrite Hother; [now apply Hav|].
    apply in_map_iff in Hp. destruct Hp as (y & <- & Hy). simpl. tauto.
  - rewrite Forall_forall in *. intros p Hp.
    rewrite Hother; [now apply Hac|].
    apply in_map_iff in Hp. destruct Hp as (y & <- & Hy). simpl. tauto.
  - rewrite Forall_forall in *. intros p Hp.
    rewrite Hother; [now apply Hsl|].
    apply in_map_iff in Hp. destruct Hp as (y & <- & Hy). simpl. tauto.
  - constructor; [|constructor]. simpl.
    erewrite lock_state_update_same by (eassumption || (left; reflexivity)).
    reflexivity.
Qed.

(** The compositor taking a layer and handing the previous one back. *)
Lemma exclusive_swap ls k z run av buf rest p old :
  exclusive (mkSys ls (mk k z run av (buf :: rest)) p (Some old)) ->
  exclusive
    (mkSys (store_update old (fun l => Layer.clear (Layer.lock false l)) ls)
       (mk k z run (av ++ [old]) rest) p (Some buf)).
Proof.
  intros [Hnd Hlk]. split.
  - apply (NoDup_count_occ Nat.eq_dec).
    rewrite (NoDup_count_occ Nat.eq_dec) in Hnd.
    intros x. specialize (Hnd x). revert Hnd.
    unfold places, slot_layer. simpl.
    repeat first [rewrite count_occ_app | progress simpl].
    repeat match goal with
           | |- context [Nat.eq_dec ?a ?b] => destruct (Nat.eq_dec a b)
           end; simpl; unfold layer_ref in *; lia.
  - unfold expected_locks, places in *.
    cbn [rend layers at_pc slot _avail_q _active_q slot_layer] in *.
    rewrite !map_app, !Forall_app in *.
    destruct Hlk as (Hav & Hac & Hsl & Hheld). cbn [map] in *.
    inversion Hac as [|? ? Hbuf Hrest]; subst.
    inversion Hsl as [|? ? Hold _]; subst. simpl in Hbuf, Hold.
    assert (Hother : forall y,
              In y av \/ In y (buf :: rest) \/ In y (held_layer p) ->
              lock_state
                (store_update old (fun l => Layer.clear (Layer.lock false l)) ls) y
              = lock_state ls y).
    { intros y Hy. apply lock_state_update_other.
      apply (elsewhere_differs _ _ _ _ old y Hnd).
      right; right; left. split; [now left | tauto]. }
    repeat split.
    + rewrite Forall_forall in *. intros q Hq.
      rewrite Hother; [now apply Hav|].
      apply in_map_iff in Hq. destruct Hq as (y & <- & Hy). simpl. tauto.
    + constructor; [|constructor]. simpl.
      erewrite lock_state_update_same by (eassumption || (right; reflexivity)).
      reflexivity.
    + rewrite Forall_forall in *. intros q Hq.
      rewrite Hother; [now apply Hrest|].
      apply in_map_iff in Hq. destruct Hq as (y & <- & Hy). simpl. tauto.
    + constructor; [|constructor]. simpl.
      rewrite Hother; [assumption | right; left; now left].
    + destruct p; try constructor; inversion Hheld; subst; simpl in *;
        try constructor;
        (rewrite Hother; [assumption | right; right; now left]).
Qed.

Lemma exclusive_step ev s s' :
  exclusive s -> step ev s = Step s' -> exclusive s'.
Proof.
  destruct s as [ls [k z run av ac] p sl]. unfold step. simpl.
  intros Hex H.
  destruct ev, p; try discriminate H; destruct run; simpl in H;
    RendererFacts.crunch; try (revert Hex; weaken).
  all: subst; simpl in *;
    first [now apply exclusive_submit | now apply exclusive_swap].
Qed.

End ExclusiveFacts.

Lemma step_places ev s s' x :
  Renderer.step ev s = Renderer.Step s' ->
  (count_occ Nat.eq_dec (places s') x <= count_occ Nat.eq_dec (places s) x)%nat.
Proof.
  destruct s as [ls [k z run av ac] p sl]. unfold Renderer.step. simpl.
  intros H. revert x.
  destruct ev, p; try discriminate H; destruct run; simpl in H;
    RendererFacts.crunch; try ExclusiveFacts.count_places.
  all: subst; unfold Renderer._free_layer in *; simpl in *;
    RendererFacts.crunch;
    repeat match goal with
           | H : (_, _) = (_, _) |- _ => injection H as <- <-
           | H : (_, _) = (_, _) |- _ => discriminate H
           end; ExclusiveFacts.count_places.
Qed.

Lemma run_places evs : forall s s' x,
  Renderer.run evs s = Some s' ->
  (count_occ Nat.eq_dec (places s') x <= count_occ Nat.eq_dec (places s) x)%nat.
Proof.
  induction evs as [|ev rest IH]; intros s s' x Hrun; simpl in Hrun.
  - injection Hrun as <-. lia.
  - destruct (Renderer.step ev s) as [s1| |] eqn:Hstep; try discriminate Hrun.
    pose proof (step_places ev s s1 x Hstep). pose proof (IH s1 s' x Hrun). lia.
Qed.

Lemma exclusive_run evs : forall s s',
  exclusive s -> Renderer.run evs s = Some s' -> exclusive s'.
Proof.
  induction evs as [|ev rest IH]; intros s s' Hs Hrun; simpl in Hrun.
  - now injection Hrun as <-.
  - destruct (Renderer.step ev s) as [s1| |] eqn:Hstep; try discriminate Hrun.
    apply (IH s1); [|assumption].
    now apply (ExclusiveFacts.exclusive_step ev s).
Qed.

(** X14.  The compositor's [put_nowait] on the free queue always has
    room: from the state [_create_buffers] leaves, whatever has
    happened (draws returning or raising, the compositor taking layers,
    calls of [_stop]), no further event raises [QueueFull], or
    anything else. *)
Theorem compositor_never_overflows k z ls a b evs s ev e :
  Renderer.run evs (Renderer.after_create_buffers k z ls a b) = Some s ->
  Renderer.step ev s <> Renderer.Crashed e.
Proof.
  intros Hrun Hcrash.
  pose proof (run_circulating evs _ _ Hrun) as Hc.
  change (Renderer.circulating (Renderer.after_create_buffers k z ls a b))
    with 2%nat in Hc.
  destruct s as [ls' [k' z' run av ac] p sl].
  unfold Renderer.step in Hcrash. simpl in Hcrash.
  unfold Renderer.circulating in Hc. simpl in Hc.
  destruct ev, p; try discriminate Hcrash;
    repeat match type of Hcrash with
           | context [if ?c then _ else _] => destruct c eqn:?
           | context [match ?l with [] => _ | _ :: _ => _ end] => destruct l eqn:?
           | context [match ?o with Some _ => _ | None => _ end] => destruct o eqn:?
           end; try discriminate Hcrash.
  all: unfold Renderer._free_layer in *; simpl in *;
    repeat match goal with
           | H : context [if ?c then _ else _] |- _ => destruct c eqn:?
           end;
    repeat match goal with
           | H : (_, _) = (_, _) |- _ => discriminate H
           | H : (_ <? _)%nat = false |- _ => apply Nat.ltb_ge in H
           end; unfold NUM_BUFFERS in *; simpl in *; try lia; try discriminate.
Qed.

Lemma compositor_never_overflows_witness :
  Renderer.run two_false_draws fresh_renderer = Some out_of_layers /\
  Renderer.step Renderer.EvCompose out_of_layers <> Renderer.Crashed QueueFull.
Proof.
  assert (H : Renderer.run two_false_draws fresh_renderer = Some out_of_layers)
    by reflexivity.
  split; [exact H|].
  exact (compositor_never_overflows plasma 0 [blank_layer; blank_layer]
           0%nat 1%nat two_false_draws out_of_layers Renderer.EvCompose
           QueueFull H).
Defined.

(** X15.  No layer is in two places at once.  When [_create_buffers]
    hands out two different layers then, whatever happens afterwards,
    the free queue, the queue of finished layers, the compositor's slot
    and the hands of the coroutine never hold the same layer twice; in
    particular the layer being drawn is on neither queue and is not the
    one being composited. *)
Theorem layer_in_one_place k z ls a b evs s :
  a <> b ->
  Renderer.run evs (Renderer.after_create_buffers k z ls a b) = Some s ->
  NoDup (places s) /\
  forall layer,
    Renderer.at_pc s = Renderer.InDraw layer ->
    ~ In layer (Renderer._avail_q (Renderer.rend s)) /\
    ~ In layer (Renderer._active_q (Renderer.rend s)) /\
    Renderer.slot s <> Some layer.
Proof.
  intros Hab Hrun.
  assert (Hnd : NoDup (places s)).
  { apply (NoDup_count_occ Nat.eq_dec). intros x.
    pose proof (run_places evs _ _ x Hrun) as Hle.
    assert (Hinit : NoDup (places (Renderer.after_create_buffers k z ls a b))).
    { unfold places. simpl. repeat constructor; simpl; intuition. }
    rewrite (NoDup_count_occ Nat.eq_dec) in Hinit. specialize (Hinit x). lia. }
  split; [exact Hnd|].
  intros layer Hpc. unfold places in Hnd. rewrite Hpc in Hnd.
  cbn [held_layer] in Hnd.
  assert (Hself : In layer [layer]) by now left.
  repeat split.
  - intros Hin.
    apply (ExclusiveFacts.elsewhere_differs _ _ _ _ layer layer Hnd);
      [|reflexivity].
    left. split; [exact Hin | tauto].
  - intros Hin.
    apply (ExclusiveFacts.elsewhere_differs _ _ _ _ layer layer Hnd);
      [|reflexivity].
    right; left. split; [exact Hin | tauto].
  - intros Hsl. rewrite Hsl in Hnd. cbn [slot_layer] in Hnd.
    apply (ExclusiveFacts.elsewhere_differs _ _ _ _ layer layer Hnd);
      [|reflexivity].
    right; right; left. split; [now left | tauto].
Qed.

Lemma layer_in_one_place_witness :
  0%nat <> 1%nat /\
  Renderer.run [Renderer.EvStart; Renderer.EvGet] fresh_renderer
  = Some drawing_first /\
  NoDup (places drawing_first) /\
  ~ In 0%nat (Renderer._avail_q (Renderer.rend drawing_first)).
Proof.
  assert (H1 : 0%nat <> 1%nat) by discriminate.
  assert (H2 : Renderer.run [Renderer.EvStart; Renderer.EvGet] fresh_renderer
               = Some drawing_first) by reflexivity.
  split; [exact H1|]. split; [exact H2|].
  destruct (layer_in_one_place plasma 0 [blank_layer; blank_layer] 0%nat 1%nat
              [Renderer.EvStart; Renderer.EvGet] drawing_first H1 H2)
    as [Hnd Hdraw].
  split; [exact Hnd|].
  exact (proj1 (Hdraw 0%nat eq_refl)).
Defined.

(** X16.  The lock flag follows the layer.  When the two layers
    [_create_buffers] hands out are different and unlocked, as
    [_free_layer] leaves them, then in every later state a layer on the
    free queue or being drawn is unlocked, and a layer that is waiting
    to be submitted, on the queue of finished layers or in the
    compositor's slot is locked. *)
Theorem lock_follows_layer k z ls a b evs s :
  a <> b ->
  lock_state ls a = Some false ->
  lock_state ls b = Some false ->
  Renderer.run evs (Renderer.after_create_buffers k z ls a b) = Some s ->
  forall layer,
    (In layer (Renderer._avail_q (Renderer.rend s)) \/
     Renderer.at_pc s = Renderer.InDraw layer ->
     lock_state (Renderer.layers s) layer = Some false) /\
    (In layer (Renderer._active_q (Renderer.rend s)) \/
     Renderer.slot s = Some layer \/
     Renderer.at_pc s = Renderer.AtPut layer ->
     lock_state (Renderer.layers s) layer = Some true).
Proof.
  intros Hab Ha Hb Hrun.
  assert (Hinit : exclusive (Renderer.after_create_buffers k z ls a b)).
  { split.
    - unfold places. simpl. repeat constructor; simpl; intuition.
    - unfold expected_locks. simpl. repeat constructor; assumption. }
  destruct (exclusive_run evs _ _ Hinit Hrun) as [_ Hlk].
  unfold expected_locks in Hlk. rewrite !Forall_app in Hlk.
  destruct Hlk as (Hav & Hac & Hsl & Hheld).
  rewrite Forall_forall in Hav, Hac, Hsl.
  intros layer. split.
  - intros [Hin | Hpc].
    + apply (Hav (layer, false)). apply in_map_iff. now exists layer.
    + rewrite Hpc in Hheld. now inversion Hheld.
  - intros [Hin | [Hs | Hpc]].
    + apply (Hac (layer, true)). apply in_map_iff. now exists layer.
    + apply (Hsl (layer, true)). rewrite Hs. now left.
    + rewrite Hpc in Hheld. now inversion Hheld.
Qed.

Lemma lock_follows_layer_witness :
  0%nat <> 1%nat /\
  lock_state [blank_layer; blank_layer] 0%nat = Some false /\
  lock_state [blank_layer; blank_layer] 1%nat = Some false /\
  Renderer.run [Renderer.EvStart; Renderer.EvGet] fresh_renderer
  = Some drawing_first /\
  lock_state (Renderer.layers drawing_first) 0%nat = Some false.
Proof.
  assert (H1 : 0%nat <> 1%nat) by discriminate.
  assert (H2 : lock_state [blank_layer; blank_layer] 0%nat = Some false)
    by reflexivity.
  assert (H3 : lock_state [blank_layer; blank_layer] 1%nat = Some false)
    by reflexivity.
  assert (H4 : Renderer.run [Renderer.EvStart; Renderer.EvGet] fresh_renderer
               = Some drawing_first) by reflexivity.
  repeat (split; [assumption|]).
  exact (proj1 (lock_follows_layer plasma 0 [blank_layer; blank_layer]
                  0%nat 1%nat [Renderer.EvStart; Renderer.EvGet] drawing_first
                  H1 H2 H3 H4 0%nat) (or_intror eq_refl)).
Defined.

(** * More of the loop and the manager *)

Lemma list_set_twice {A} (i : nat) (u v : A) (l : list A) :
  list_set i v (list_set i u l) = list_set i v l.
Proof.
  revert i; induction l as [|h t IH]; intros [|i]; simpl; try reflexivity.
  now rewrite IH.
Qed.

(** X17.  The compositor event of the run-loop model is what
    [_dequeue_nowait] does.  For a running loop whose [r_idx]-th
    renderer is [r] and whose slot for it holds [sl]: when the queue of
    finished layers is empty [_dequeue_nowait] returns [False] and
    changes nothing; otherwise it returns [True], the first finished
    layer is in the slot, and the layer the slot held, if any, is back
    at the end of the renderer's free queue, unlocked and cleared; it
    raises [QueueFull] exactly when that free queue is full. *)
Theorem dequeue_nowait_is_compose_event w l r_idx a r sl p :
  AnimationLoop._running l = true ->
  nth_error (AnimationLoop._renderers l) r_idx = Some a ->
  nth_error (renderer_store w) a = Some r ->
  nth_error (AnimationLoop._active_bufs l) r_idx = Some sl ->
  match Renderer.step Renderer.EvCompose (Renderer.mkSys (layer_store w) r p sl) with
  | Renderer.Step s' =>
      AnimationLoop._dequeue_nowait r_idx (w, l)
      = (Ok true,
         (mkWorld (frame_control w) (Renderer.layers s')
            (list_set a (Renderer.rend s') (renderer_store w)),
          AnimationLoop.mk (AnimationLoop._renderers l)
            (AnimationLoop._default_blend_mode l) (AnimationLoop._running l)
            (AnimationLoop._anim_task l) (AnimationLoop._error l)
            (AnimationLoop._waiters l)
            (list_set r_idx (Renderer.slot s') (AnimationLoop._active_bufs l)))) /\
      Renderer.at_pc s' = p /\
      exists buf rest,
        Renderer._active_q r = buf :: rest /\
        Renderer.slot s' = Some buf /\
        Renderer._active_q (Renderer.rend s') = rest /\
        Renderer._avail_q (Renderer.rend s')
        = Renderer._avail_q r ++ slot_layer sl /\
        forall old, sl = Some old ->
          Renderer.layers s'
          = store_update old (fun x => Layer.clear (Layer.lock false x))
              (layer_store w)
  | Renderer.Suspended =>
      Renderer._active_q r = [] /\
      AnimationLoop._dequeue_nowait r_idx (w, l) = (Ok false, (w, l))
  | Renderer.Crashed e =>
      e = QueueFull /\
      (NUM_BUFFERS <= length (Renderer._avail_q r))%nat /\
      fst (AnimationLoop._dequeue_nowait r_idx (w, l)) = Raise QueueFull
  end.
Proof.
  intros Hrun Ha Hr Hsl.
  assert (Hlen : (r_idx < length (AnimationLoop._renderers l))%nat)
    by (apply nth_error_Some; congruence).
  assert (Hdq : AnimationLoop._dequeue_nowait r_idx (w, l)
          = match Renderer._active_q r with
            | [] => (Ok false, (w, l))
            | buf :: rest =>
                let w1 :=
                  mkWorld (frame_control w) (layer_store w)
                    (list_set a (Renderer.with_queues r (Renderer._avail_q r) rest)
                       (renderer_store w)) in
                let '(res, w2) :=
                  match sl with
                  | Some o => on_renderer a (Renderer._free_layer o) w1
                  | None => (Ok tt, w1)
                  end in
                match res with
                | Raise e => (Raise e, (w2, l))
                | Ok _ =>
                    (Ok true,
                     (w2, AnimationLoop.mk (AnimationLoop._renderers l)
                            (AnimationLoop._default_blend_mode l)
                            (AnimationLoop._running l)
                            (AnimationLoop._anim_task l)
                            (AnimationLoop._error l)
                            (AnimationLoop._waiters l)
                            (list_set r_idx (Some buf)
                               (AnimationLoop._active_bufs l))))
                end
            end).
  { unfold AnimationLoop._dequeue_nowait. cbv beta iota zeta.
    rewrite Hrun. cbn [negb orb].
    destruct (Nat.leb_spec (length (AnimationLoop._renderers l)) r_idx); [lia|].
    unfold renderer_ref in *.
    rewrite (nth_error_nth _ _ 0%nat Ha), Hr, Hsl. reflexivity. }
  rewrite Hdq. clear Hdq. unfold Renderer.step.
  cbn [Renderer.rend Renderer.slot Renderer.layers Renderer.at_pc].
  destruct (Renderer._active_q r) as [|buf rest] eqn:Eq.
  - split; reflexivity.
  - destruct sl as [old|].
    + unfold on_renderer, Renderer._free_layer.
      cbn [renderer_store layer_store frame_control].
      rewrite ExclusiveFacts.nth_error_list_set_same
        by (apply nth_error_Some; congruence).
      cbn [Renderer.with_queues Renderer._avail_q Renderer._active_q
           Renderer.class_of Renderer.zorder Renderer._running].
      destruct (Nat.ltb_spec (length (Renderer._avail_q r)) NUM_BUFFERS).
      * rewrite list_set_twice. split; [reflexivity|]. split; [reflexivity|].
        exists buf, rest. repeat split. intros o [= <-]. reflexivity.
      * repeat split. assumption.
    + split; [reflexivity|]. split; [reflexivity|].
      exists buf, rest. cbn [slot_layer]. rewrite app_nil_r.
      repeat split. intros o [=].
Qed.

Lemma dequeue_nowait_outside w l r_idx :
  AnimationLoop._running l = false \/
  (length (AnimationLoop._renderers l) <= r_idx)%nat ->
  AnimationLoop._dequeue_nowait r_idx (w, l) = (Ok false, (w, l)).
Proof.
  intros [H|H]; unfold AnimationLoop._dequeue_nowait.
  - now rewrite H.
  - destruct (Nat.leb_spec (length (AnimationLoop._renderers l)) r_idx); [|lia].
    now rewrite orb_true_r.
Qed.

Lemma dequeue_nowait_is_compose_event_witness :
  AnimationLoop._running running_loop = true /\
  nth_error (AnimationLoop._renderers running_loop) 0 = Some 0%nat /\
  nth_error (renderer_store finished_world) 0
  = Some (Renderer.mk plasma 0 true [1%nat] [0%nat]) /\
  nth_error (AnimationLoop._active_bufs running_loop) 0 = Some None /\
  fst (AnimationLoop._dequeue_nowait 0 (finished_world, running_loop)) = Ok true.
Proof.
  assert (H1 : AnimationLoop._running running_loop = true) by reflexivity.
  assert (H2 : nth_error (AnimationLoop._renderers running_loop) 0
               = Some 0%nat) by reflexivity.
  assert (H3 : nth_error (renderer_store finished_world) 0
               = Some (Renderer.mk plasma 0 true [1%nat] [0%nat]))
    by reflexivity.
  assert (H4 : nth_error (AnimationLoop._active_bufs running_loop) 0 = Some None)
    by reflexivity.
  repeat (split; [assumption|]).
  pose proof (dequeue_nowait_is_compose_event finished_world running_loop
                0%nat 0%nat _ None Renderer.AtTick H1 H2 H3 H4) as H.
  remember (AnimationLoop._dequeue_nowait 0 (finished_world, running_loop))
    as res eqn:E in H |- *.
  simpl in H. destruct H as [H _]. rewrite H. reflexivity.
Defined.

(** X18.  [add_renderer] refuses without touching anything: for a name
    that is not in [renderer_info], and for a class whose constructor
    raises [ImportError], it returns -1; any other exception of the
    constructor is passed on; in all three cases the manager, the
    renderers and the frame are as before. *)
Theorem add_renderer_refuses name traits w m :
  (AnimationManager.lookup name (AnimationManager.renderer_info m) = None ->
   AnimationManager.add_renderer name traits (w, m) = (Ok (-1), (w, m))) /\
  (forall k,
     AnimationManager.lookup name (AnimationManager.renderer_info m) = Some k ->
     Renderer.construct k traits = Some ImportError ->
     AnimationManager.add_renderer name traits (w, m) = (Ok (-1), (w, m))) /\
  (forall k e,
     AnimationManager.lookup name (AnimationManager.renderer_info m) = Some k ->
     Renderer.construct k traits = Some e ->
     e <> ImportError ->
     AnimationManager.add_renderer name traits (w, m) = (Raise e, (w, m))).
Proof.
  unfold AnimationManager.add_renderer, AnimationManager._get_renderer, bind.
  repeat split.
  - intros Hk. now rewrite Hk.
  - intros k Hk Hc. now rewrite Hk, Hc.
  - intros k e Hk Hc Hne. rewrite Hk, Hc. destruct e; congruence.
Qed.

Lemma zorder_ok_valid w m i ref :
  zorder_ok w m ->
  nth_error (AnimationManager.renderers m) i = Some ref ->
  (ref < length (renderer_store w))%nat.
Proof.
  intros Hz Hi. specialize (Hz i ref Hi).
  apply nth_error_Some. intros E. rewrite E in Hz. discriminate.
Qed.

Lemma zorder_ok_grow w m extra :
  zorder_ok w m ->
  zorder_ok (mkWorld (frame_control w) (layer_store w)
               (renderer_store w ++ extra)) m.
Proof.
  intros Hz i ref Hi. cbn [renderer_store].
  rewrite nth_error_app1 by exact (zorder_ok_valid w m i ref Hz Hi).
  now apply Hz.
Qed.

(** X19.  Z-order is the position in the list.  If every configured
    renderer sits at the position its z-order names, this is still so
    after [add_renderer], however it ends.  The call never removes or
    reorders renderers and never changes the running flag: either the
    list is unchanged, or one renderer is appended, the call returns
    the previous length of the list, and that is the z-order of the new
    renderer. *)
Theorem add_renderer_keeps_zorder name traits w m :
  zorder_ok w m ->
  let r := AnimationManager.add_renderer name traits (w, m) in
  let w' := fst (snd r) in
  let m' := snd (snd r) in
  zorder_ok w' m' /\
  AnimationManager.running m' = AnimationManager.running m /\
  AnimationManager.renderer_info m' = AnimationManager.renderer_info m /\
  (AnimationManager.renderers m' = AnimationManager.renderers m /\
   fst r <> Ok (Z.of_nat (length (AnimationManager.renderers m)))
   \/
   exists ref,
     AnimationManager.renderers m' = AnimationManager.renderers m ++ [ref] /\
     fst r = Ok (Z.of_nat (length (AnimationManager.renderers m))) /\
     option_map Renderer.zorder (nth_error (renderer_store w') ref)
     = Some (Z.of_nat (length (AnimationManager.renderers m)))).
Proof.
  intros Hz.
  unfold AnimationManager.add_renderer, AnimationManager._get_renderer, bind.
  destruct (AnimationManager.lookup name (AnimationManager.renderer_info m))
    as [k|].
  2:{ cbn. repeat split; try assumption. left. split; [reflexivity|].
      intros E. injection E as E. lia. }
  destruct (Renderer.construct k traits) as [e|].
  { assert (He : forall x : result Z * (World * AnimationManager.t),
              snd x = (w, m) ->
              fst x <> Ok (Z.of_nat (length (AnimationManager.renderers m))) ->
              zorder_ok (fst (snd x)) (snd (snd x)) /\
              AnimationManager.running (snd (snd x)) = AnimationManager.running m /\
              AnimationManager.renderer_info (snd (snd x))
              = AnimationManager.renderer_info m /\
              (AnimationManager.renderers (snd (snd x))
               = AnimationManager.renderers m /\
               fst x <> Ok (Z.of_nat (length (AnimationManager.renderers m)))
               \/
               exists ref,
                 AnimationManager.renderers (snd (snd x))
                 = AnimationManager.renderers m ++ [ref] /\
                 fst x = Ok (Z.of_nat (length (AnimationManager.renderers m))) /\
                 option_map Renderer.zorder
                   (nth_error (renderer_store (fst (snd x))) ref)
                 = Some (Z.of_nat (length (AnimationManager.renderers m))))).
    { intros [res [w0 m0]] [= -> ->] Hne. cbn. repeat split; try assumption.
      left. split; [reflexivity | assumption]. }
    destruct e; apply He; try reflexivity; cbn; try discriminate.
    intros E. injection E as E. lia. }
  cbn [renderer_store].
  rewrite nth_error_app2 by lia. rewrite Nat.sub_diag. cbn [nth_error].
  cbn [Renderer.class_of Renderer.new].
  pose proof (zorder_ok_grow w m
                [Renderer.new k (Z.of_nat (length (AnimationManager.renderers m)))]
                Hz) as Hz'.
  destruct (Renderer.init k) as [[|]|e].
  - cbn. split; [|split; [reflexivity|split; [reflexivity|]]].
    + intros i ref Hi. cbn [AnimationManager.renderers renderer_store] in *.
      destruct (Nat.lt_ge_cases i (length (AnimationManager.renderers m)))
        as [Hlt|Hge].
      * rewrite nth_error_app1 in Hi by assumption. now apply Hz'.
      * rewrite nth_error_app2 in Hi by assumption.
        destruct (i - length (AnimationManager.renderers m))%nat as [|j] eqn:Ej;
          cbn in Hi; [|destruct j; discriminate].
        injection Hi as <-.
        rewrite nth_error_app2 by lia. rewrite Nat.sub_diag. cbn.
        do 2 f_equal. lia.
    + right. exists (length (renderer_store w)). repeat split.
      rewrite nth_error_app2 by lia. rewrite Nat.sub_diag. reflexivity.
  - destruct (Renderer.has_name k); cbn; repeat split; try assumption;
      left; (split; [reflexivity|]); try discriminate.
    intros E. injection E as E. lia.
  - cbn. repeat split; try assumption. left. split; [reflexivity | discriminate].
Qed.

Lemma add_renderer_keeps_zorder_witness :
  zorder_ok one_renderer_world idle_manager /\
  zorder_ok
    (fst (snd (AnimationManager.add_renderer "uchroma.fxlib.Plasma" []
                 (one_renderer_world, idle_manager))))
    (snd (snd (AnimationManager.add_renderer "uchroma.fxlib.Plasma" []
                 (one_renderer_world, idle_manager)))).
Proof.
  assert (H : zorder_ok one_renderer_world idle_manager).
  { intros [|[|i]] ref Hi; cbn in Hi; try discriminate.
    injection Hi as <-. reflexivity. }
  split; [exact H|].
  exact (proj1 (add_renderer_keeps_zorder "uchroma.fxlib.Plasma" []
                  one_renderer_world idle_manager H)).
Defined.

Lemma list_set_app_last {A} (l : list A) (x v : A) :
  list_set (length l) v (l ++ [x]) = l ++ [v].
Proof. induction l as [|h t IH]; simpl; [reflexivity | now rewrite IH]. Qed.

Lemma store_update_last {A} (f : A -> A) (l : list A) (x : A) :
  store_update (length l) f (l ++ [x]) = l ++ [f x].
Proof.
  unfold store_update. rewrite nth_error_app2 by lia.
  rewrite Nat.sub_diag. cbn [nth_error]. apply list_set_app_last.
Qed.

Section StartFacts.

Variable rgba2rgb : Frame.Color -> rgba -> list byte.
Variable create_layer : Frame.t -> result Layer.t.

(** One more layer for the renderer at [a], when its free queue has
    room. *)
Lemma give_layer_ok blend a w r layer :
  nth_error (renderer_store w) a = Some r ->
  create_layer (frame_control w) = Ok layer ->
  (length (Renderer._avail_q r) < NUM_BUFFERS)%nat ->
  AnimationLoop.give_layers create_layer blend a 1 w
  = (Ok tt,
     mkWorld (frame_control w) (layer_store w ++ [handed_out blend layer])
       (list_set a
          (Renderer.with_queues r
             (Renderer._avail_q r ++ [length (layer_store w)])
             (Renderer._active_q r))
          (renderer_store w))).
Proof.
  intros Hr Hcl Hroom. cbn [AnimationLoop.give_layers]. unfold bind, ret.
  rewrite Hcl. unfold on_renderer. cbn [renderer_store layer_store frame_control].
  rewrite Hr. unfold Renderer._free_layer.
  rewrite store_update_last.
  destruct (Nat.ltb_spec (length (Renderer._avail_q r)) NUM_BUFFERS); [|lia].
  reflexivity.
Qed.

Lemma give_layer_full blend a w r layer :
  nth_error (renderer_store w) a = Some r ->
  create_layer (frame_control w) = Ok layer ->
  (NUM_BUFFERS <= length (Renderer._avail_q r))%nat ->
  forall n, fst (AnimationLoop.give_layers create_layer blend a (S n) w)
            = Raise QueueFull.
Proof.
  intros Hr Hcl Hfull n. cbn [AnimationLoop.give_layers]. unfold bind.
  rewrite Hcl. unfold on_renderer. cbn [renderer_store layer_store frame_control].
  rewrite Hr. unfold Renderer._free_layer.
  destruct (Nat.ltb_spec (length (Renderer._avail_q r)) NUM_BUFFERS); [lia|].
  reflexivity.
Qed.

Lemma give_layers_split blend a n w :
  AnimationLoop.give_layers create_layer blend a (S n) w
  = match AnimationLoop.give_layers create_layer blend a 1 w with
    | (Ok _, w') => AnimationLoop.give_layers create_layer blend a n w'
    | (Raise e, w') => (Raise e, w')
    end.
Proof.
  cbn [AnimationLoop.give_layers]. unfold bind, ret.
  match goal with
  | |- context [match ?x with _ => _ end] => destruct x as [[u|e] w']
  end; reflexivity.
Qed.

(** The two layers of one renderer whose free queue is empty. *)
Lemma give_two_layers blend a w r layer :
  nth_error (renderer_store w) a = Some r ->
  create_layer (frame_control w) = Ok layer ->
  Renderer._avail_q r = [] ->
  AnimationLoop.give_layers create_layer blend a NUM_BUFFERS w
  = (Ok tt,
     mkWorld (frame_control w)
       (layer_store w ++ [handed_out blend layer; handed_out blend layer])
       (list_set a
          (Renderer.with_queues r
             [length (layer_store w); S (length (layer_store w))]
             (Renderer._active_q r))
          (renderer_store w))).
Proof.
  intros Hr Hcl Hav. unfold NUM_BUFFERS.
  rewrite give_layers_split.
  rewrite (give_layer_ok blend a w r layer Hr Hcl)
    by (rewrite Hav; unfold NUM_BUFFERS; simpl; lia).
  rewrite give_layers_split.
  erewrite give_layer_ok; cycle 1.
  - cbn [renderer_store]. apply ExclusiveFacts.nth_error_list_set_same.
    apply nth_error_Some. congruence.
  - exact Hcl.
  - cbn. rewrite Hav. unfold NUM_BUFFERS. simpl. lia.
  - cbn [AnimationLoop.give_layers ret frame_control layer_store renderer_store
         Renderer.with_queues Renderer._avail_q Renderer._active_q].
    rewrite Hav, list_set_twice, length_app, <- app_assoc. cbn [length app].
    rewrite Nat.add_1_r. reflexivity.
Qed.

(** What [_create_buffers] does to the renderers [rs], counted from the
    number [n0] of layers there were. *)
Lemma load_renderers_ok blend layer : forall rs w,
  idle_renderers w rs ->
  create_layer (frame_control w) = Ok layer ->
  exists w',
    AnimationLoop.load_renderers create_layer blend rs w = (Ok tt, w') /\
    frame_control w' = frame_control w /\
    layer_store w'
    = layer_store w ++ repeat (handed_out blend layer) (2 * length rs) /\
    (forall i a,
       nth_error rs i = Some a ->
       option_map Renderer._avail_q (nth_error (renderer_store w') a)
       = Some [(length (layer_store w) + 2 * i)%nat;
               S (length (layer_store w) + 2 * i)] /\
       option_map Renderer._active_q (nth_error (renderer_store w') a) = Some [] /\
       option_map Renderer._running (nth_error (renderer_store w') a)
       = Some false) /\
    (forall a, ~ In a rs ->
       nth_error (renderer_store w') a = nth_error (renderer_store w) a).
Proof.
  induction rs as [|a rest IH]; intros w [Hnd Hidle] Hcl.
  - exists w. split; [reflexivity|]. split; [reflexivity|].
    split; [cbn; now rewrite app_nil_r|].
    split; [intros [|i] b Hi; discriminate Hi | reflexivity].
  - inversion Hnd as [|? ? Hnotin Hnd']; subst.
    destruct (nth_error (renderer_store w) a) as [r|] eqn:Hr.
    2:{ specialize (Hidle a (or_introl eq_refl)). rewrite Hr in Hidle.
        discriminate. }
    assert (Hrun : Renderer._running r = false).
    { specialize (Hidle a (or_introl eq_refl)). rewrite Hr in Hidle.
      now injection Hidle. }
    cbn [AnimationLoop.load_renderers]. unfold bind at 1.
    unfold on_renderer at 1. rewrite Hr.
    set (w0 := mkWorld (frame_control w) (layer_store w)
                 (list_set a (Renderer._flush r) (renderer_store w))).
    assert (Hr0 : nth_error (renderer_store w0) a = Some (Renderer._flush r)).
    { apply ExclusiveFacts.nth_error_list_set_same.
      apply nth_error_Some. congruence. }
    assert (Hflush : Renderer._flush r = Renderer.with_queues r [] [])
      by (unfold Renderer._flush; now rewrite Hrun).
    unfold bind.
    rewrite (give_two_layers blend a w0 _ layer Hr0 Hcl)
      by (rewrite Hflush; reflexivity).
    clear Hr0. subst w0.
    cbn [frame_control layer_store renderer_store]. rewrite list_set_twice.
    set (w1 := mkWorld _ _ _).
    destruct (IH w1) as (w' & Hload & Hf & Hls & Hin & Hout).
    { split; [assumption|]. intros b Hb. unfold w1. cbn [renderer_store].
      rewrite ExclusiveFacts.nth_error_list_set_other
        by (intros ->; contradiction).
      apply Hidle. now right. }
    { exact Hcl. }
    exists w'. rewrite Hload. split; [reflexivity|].
    split; [rewrite Hf; reflexivity|].
    split.
    { rewrite Hls. unfold w1. cbn [layer_store length].
      rewrite <- app_assoc. f_equal.
      replace (2 * S (length rest))%nat with (S (S (2 * length rest))) by lia.
      reflexivity. }
    split.
    + intros [|i] b Hi; cbn in Hi.
      * injection Hi as <-. rewrite (Hout a Hnotin). unfold w1.
        cbn [renderer_store].
        rewrite ExclusiveFacts.nth_error_list_set_same
          by (apply nth_error_Some; congruence).
        rewrite Hflush. cbn. rewrite Hrun, Nat.add_0_r. repeat split.
      * destruct (Hin i b Hi) as (Hav & Hac & Hrn). unfold w1 in Hav.
        cbn [layer_store] in Hav. rewrite length_app in Hav. cbn in Hav.
        repeat split; try assumption.
        rewrite Hav. do 2 f_equal; [|f_equal]; lia.
    + intros b Hb. rewrite Hout by (intros Hb'; apply Hb; now right).
      unfold w1. cbn [renderer_store].
      apply ExclusiveFacts.nth_error_list_set_other.
      intros ->. apply Hb. now left.
Qed.

End StartFacts.

Section StartTheorems.

Variable rgba2rgb : Frame.Color -> rgba -> list byte.
Variable create_layer : Frame.t -> result Layer.t.

Lemma loop_start_ok blend w rs layer :
  rs <> [] ->
  idle_renderers w rs ->
  fst (Frame.reset rgba2rgb None (frame_control w)) = Ok tt ->
  (forall f, create_layer f = Ok layer) ->
  exists w',
    AnimationLoop.start rgba2rgb create_layer (w, AnimationLoop.new rs blend)
    = (Ok true,
       (w', AnimationLoop.mk rs blend true true false
              (repeat None (length rs)) (repeat None (length rs)))) /\
    frame_control w' = snd (Frame.reset rgba2rgb None (frame_control w)) /\
    layer_store w'
    = layer_store w ++ repeat (handed_out blend layer) (2 * length rs) /\
    (forall i a,
       nth_error rs i = Some a ->
       option_map Renderer._avail_q (nth_error (renderer_store w') a)
       = Some [(length (layer_store w) + 2 * i)%nat;
               S (length (layer_store w) + 2 * i)] /\
       option_map Renderer._active_q (nth_error (renderer_store w') a) = Some [] /\
       option_map Renderer._running (nth_error (renderer_store w') a)
       = Some false) /\
    (forall a, ~ In a rs ->
       nth_error (renderer_store w') a = nth_error (renderer_store w) a).
Proof.
  intros Hne Hidle Hreset Hcl.
  unfold AnimationLoop.start.
  change (AnimationLoop._running (AnimationLoop.new rs blend)) with false.
  change (AnimationLoop._renderers (AnimationLoop.new rs blend)) with rs.
  cbv iota.
  destruct rs as [|a0 rest0] eqn:Ers; [contradiction|]. rewrite <- Ers in *.
  replace (length rs =? 0)%nat with false
    by (rewrite Ers; reflexivity).
  unfold bind, on_fst, on_snd, on_frame.
  destruct (Frame.reset rgba2rgb None (frame_control w)) as [r0 f1] eqn:Ef.
  cbn [fst snd] in *. subst r0.
  cbn [AnimationLoop.set_running].
  unfold AnimationLoop._create_buffers, bind, on_snd, on_fst.
  cbn [AnimationLoop.set_bookkeeping AnimationLoop._renderers
       AnimationLoop._default_blend_mode].
  destruct (load_renderers_ok create_layer blend layer rs
              (mkWorld f1 (layer_store w) (renderer_store w)))
    as (w' & Hload & Hf & Hls & Hin & Hout).
  { exact Hidle. }
  { apply Hcl. }
  cbn [frame_control layer_store renderer_store] in Hf, Hls, Hin, Hout.
  unfold AnimationLoop.new.
  cbn [AnimationLoop._renderers AnimationLoop._default_blend_mode].
  rewrite Hload.
  cbn [AnimationLoop.set_anim_task ret AnimationLoop._renderers
       AnimationLoop._default_blend_mode AnimationLoop._running
       AnimationLoop._anim_task AnimationLoop._error AnimationLoop._waiters
       AnimationLoop._active_bufs].
  exists w'. repeat split; try assumption;
    destruct (Hin i a H) as (Hav & Hac & Hr); assumption.
Qed.

(** [start] on a manager at rest whose renderers are all different and
    idle, over a frame that hands out layers and whose reset goes
    through. *)
Lemma manager_start_ok blend w m layer :
  AnimationManager.running m = false ->
  AnimationManager.renderers m <> [] ->
  idle_renderers w (AnimationManager.renderers m) ->
  fst (Frame.reset rgba2rgb None (frame_control w)) = Ok tt ->
  (forall f, create_layer f = Ok layer) ->
  let rs := AnimationManager.renderers m in
  let r := AnimationManager.start rgba2rgb create_layer blend (w, m) in
  let w' := fst (snd r) in
  fst r = Ok true /\
  snd (snd r)
  = AnimationManager.mk rs (AnimationManager.renderer_info m) true
      (Some (AnimationLoop.mk rs blend true true false
               (repeat None (length rs)) (repeat None (length rs)))) /\
  frame_control w' = snd (Frame.reset rgba2rgb None (frame_control w)) /\
  layer_store w'
  = layer_store w ++ repeat (handed_out blend layer) (NUM_BUFFERS * length rs) /\
  forall i a,
    nth_error rs i = Some a ->
    option_map Renderer._avail_q (nth_error (renderer_store w') a)
    = Some [(length (layer_store w) + 2 * i)%nat;
            S (length (layer_store w) + 2 * i)] /\
    option_map Renderer._active_q (nth_error (renderer_store w') a) = Some [].
Proof.
  intros Hrun Hne Hidle Hreset Hcl. cbv zeta.
  destruct (loop_start_ok blend w (AnimationManager.renderers m) layer
              Hne Hidle Hreset Hcl)
    as (w1 & Hstart & Hf & Hls & Hin & _).
  unfold AnimationManager.start. rewrite Hrun.
  destruct (length (AnimationManager.renderers m) =? 0)%nat eqn:E.
  { apply Nat.eqb_eq in E.
    destruct (AnimationManager.renderers m); [contradiction|discriminate]. }
  rewrite Hstart. cbn [fst snd]. repeat split; try assumption;
    destruct (Hin i a H) as (Hav & Hac & _); assumption.
Qed.


(** X20.  [start] with renderers that are not running and a frame that
    hands out layers.  When the manager is not running, its renderers
    are all different and idle, the frame's reset goes through and
    [create_layer] returns a layer, [start] returns [True] with the
    manager's flag and the new loop's flag set and the loop's task
    scheduled; the loop has one empty slot per renderer, and each
    renderer has exactly [NUM_BUFFERS] = 2 new layers on its free
    queue, of its own, unlocked, cleared and tagged with the default
    blend mode, and nothing on its queue of finished layers. *)
Theorem start_hands_out_two_layers blend w m layer :
  AnimationManager.running m = false ->
  AnimationManager.renderers m <> [] ->
  idle_renderers w (AnimationManager.renderers m) ->
  fst (Frame.reset rgba2rgb None (frame_control w)) = Ok tt ->
  (forall f, create_layer f = Ok layer) ->
  let rs := AnimationManager.renderers m in
  let r := AnimationManager.start rgba2rgb create_layer blend (w, m) in
  let w' := fst (snd r) in
  fst r = Ok true /\
  snd (snd r)
  = AnimationManager.mk rs (AnimationManager.renderer_info m) true
      (Some (AnimationLoop.mk rs blend true true false
               (repeat None (length rs)) (repeat None (length rs)))) /\
  frame_control w' = snd (Frame.reset rgba2rgb None (frame_control w)) /\
  layer_store w'
  = layer_store w ++ repeat (handed_out blend layer) (NUM_BUFFERS * length rs) /\
  forall i a,
    nth_error rs i = Some a ->
    option_map Renderer._avail_q (nth_error (renderer_store w') a)
    = Some [(length (layer_store w) + 2 * i)%nat;
            S (length (layer_store w) + 2 * i)] /\
    option_map Renderer._active_q (nth_error (renderer_store w') a) = Some [].
Proof.
  intros Hrun Hne Hidle Hreset Hcl. cbv zeta.
  destruct (loop_start_ok blend w (AnimationManager.renderers m) layer
              Hne Hidle Hreset Hcl)
    as (w1 & Hstart & Hf & Hls & Hin & _).
  unfold AnimationManager.start. rewrite Hrun.
  destruct (length (AnimationManager.renderers m) =? 0)%nat eqn:E.
  { apply Nat.eqb_eq in E.
    destruct (AnimationManager.renderers m); [contradiction|discriminate]. }
  rewrite Hstart. cbn [fst snd]. repeat split; try assumption;
    destruct (Hin i a H) as (Hav & Hac & _); assumption.
Qed.

(** C6, as amended.  Starting the manager, or the loop, with no
    renderer configured or while already running returns false and
    changes nothing: the running flag keeps the value it had, false in
    the first case when nothing runs, true in the second.  With at
    least one renderer and not running, on a frame that hands out
    layers, when the renderers are all different and idle and the
    frame's reset goes through, [start] allocates [NUM_BUFFERS] = 2
    layers per renderer, each renderer getting its own two on its free
    queue, and returns true with the manager's flag and the loop's flag
    set. *)
Theorem start_refused_or_started :
  (forall blend w m,
     AnimationManager.running m = true \/ AnimationManager.renderers m = [] ->
     AnimationManager.start rgba2rgb create_layer blend (w, m)
     = (Ok false, (w, m))) /\
  (forall w l,
     AnimationLoop._running l = true \/ AnimationLoop._renderers l = [] ->
     AnimationLoop.start rgba2rgb create_layer (w, l) = (Ok false, (w, l))) /\
  (forall blend w m layer,
     AnimationManager.running m = false ->
     AnimationManager.renderers m <> [] ->
     idle_renderers w (AnimationManager.renderers m) ->
     fst (Frame.reset rgba2rgb None (frame_control w)) = Ok tt ->
     (forall f, create_layer f = Ok layer) ->
     let rs := AnimationManager.renderers m in
     let r := AnimationManager.start rgba2rgb create_layer blend (w, m) in
     let w' := fst (snd r) in
     fst r = Ok true /\
     AnimationManager.running (snd (snd r)) = true /\
     option_map AnimationLoop._running (AnimationManager._loop (snd (snd r)))
     = Some true /\
     AnimationManager.renderers (snd (snd r)) = rs /\
     layer_store w'
     = layer_store w ++ repeat (handed_out blend layer) (NUM_BUFFERS * length rs) /\
     length (layer_store w')
     = (length (layer_store w) + NUM_BUFFERS * length rs)%nat /\
     forall i a,
       nth_error rs i = Some a ->
       option_map Renderer._avail_q (nth_error (renderer_store w') a)
       = Some [(length (layer_store w) + 2 * i)%nat;
               S (length (layer_store w) + 2 * i)]).
Proof.
  split; [|split].
  - intros blend w m. apply manager_start_refused.
  - intros w l. apply loop_start_refused.
  - intros blend w m layer Hrun Hne Hidle Hreset Hcl.
    pose proof (manager_start_ok blend w m layer Hrun Hne Hidle Hreset Hcl)
      as H.
    cbv zeta in H |- *. destruct H as (H1 & H2 & _ & H4 & H5).
    rewrite H2. cbn [AnimationManager.running AnimationManager._loop
                     AnimationManager.renderers option_map
                     AnimationLoop._running].
    repeat split; try assumption.
    + rewrite H4, length_app, repeat_length. reflexivity.
    + intros i a Hi. exact (proj1 (H5 i a Hi)).
Qed.

Lemma load_renderers_busy blend w (a : renderer_ref)
    (rest : list renderer_ref) r layer :
  nth_error (renderer_store w) a = Some r ->
  Renderer._running r = true ->
  Renderer._avail_q r <> [] ->
  (forall f, create_layer f = Ok layer) ->
  exists w',
    AnimationLoop.load_renderers create_layer blend (a :: rest) w
    = (Raise QueueFull, w') /\
    frame_control w' = frame_control w.
Proof.
  intros Hr Hbusy Hav Hcl.
  cbn [AnimationLoop.load_renderers]. unfold bind at 1.
  unfold on_renderer at 1. rewrite Hr.
  assert (Hflush : Renderer._flush r = r)
    by (unfold Renderer._flush; now rewrite Hbusy).
  rewrite Hflush.
  set (w0 := mkWorld (frame_control w) (layer_store w)
               (list_set a r (renderer_store w))).
  assert (Hr0 : nth_error (renderer_store w0) a = Some r).
  { apply ExclusiveFacts.nth_error_list_set_same.
    apply nth_error_Some. congruence. }
  assert (Hgive : exists w2,
            AnimationLoop.give_layers create_layer blend a NUM_BUFFERS w0
            = (Raise QueueFull, w2) /\ frame_control w2 = frame_control w).
  { destruct (Nat.lt_ge_cases (length (Renderer._avail_q r)) NUM_BUFFERS)
      as [Hroom|Hfull].
    - unfold NUM_BUFFERS at 1. rewrite give_layers_split.
      rewrite (give_layer_ok create_layer blend a w0 r layer Hr0 (Hcl _) Hroom).
      set (w1 := mkWorld _ _ _).
      assert (Hr1 : nth_error (renderer_store w1) a
                    = Some (Renderer.with_queues r
                              (Renderer._avail_q r ++ [length (layer_store w0)])
                              (Renderer._active_q r))).
      { apply ExclusiveFacts.nth_error_list_set_same.
        apply nth_error_Some. congruence. }
      cbn [AnimationLoop.give_layers Nat.add]. unfold bind.
      rewrite Hcl. unfold on_renderer.
      cbn [renderer_store layer_store frame_control] in *.
      rewrite Hr1. unfold Renderer._free_layer.
      cbn [Renderer.with_queues Renderer._avail_q].
      rewrite length_app. cbn [length].
      destruct (Renderer._avail_q r) as [|x q]; [contradiction|].
      cbn [length] in *. unfold NUM_BUFFERS in *.
      destruct (Nat.ltb_spec (S (length q) + 1) 2); [lia|].
      eexists. split; reflexivity.
    - unfold NUM_BUFFERS at 1. cbn [AnimationLoop.give_layers]. unfold bind.
      rewrite Hcl. unfold on_renderer.
      cbn [renderer_store layer_store frame_control] in *.
      rewrite Hr0. unfold Renderer._free_layer.
      destruct (Nat.ltb_spec (length (Renderer._avail_q r)) NUM_BUFFERS); [lia|].
      eexists. split; reflexivity. }
  destruct Hgive as (w2 & Hg & Hf2).
  unfold bind. rewrite Hg. exists w2. split; [reflexivity|exact Hf2].
Qed.

Lemma manager_start_busy blend w m a rest r layer :
  AnimationManager.running m = false ->
  AnimationManager.renderers m = a :: rest ->
  nth_error (renderer_store w) a = Some r ->
  Renderer._running r = true ->
  Renderer._avail_q r <> [] ->
  fst (Frame.reset rgba2rgb None (frame_control w)) = Ok tt ->
  (forall f, create_layer f = Ok layer) ->
  let res := AnimationManager.start rgba2rgb create_layer blend (w, m) in
  fst res = Raise QueueFull /\
  AnimationManager.running (snd (snd res)) = false /\
  frame_control (fst (snd res))
  = snd (Frame.reset rgba2rgb None (frame_control w)).
Proof.
  intros Hrun Hrs Hr Hbusy Hav Hreset Hcl res. subst res.
  unfold AnimationManager.start. rewrite Hrun, Hrs. cbn [length Nat.eqb].
  unfold AnimationLoop.start, AnimationLoop.new.
  cbn [AnimationLoop._running AnimationLoop._renderers length Nat.eqb].
  unfold bind, on_fst, on_snd, on_frame.
  destruct (Frame.reset rgba2rgb None (frame_control w)) as [r0 f1] eqn:Ef.
  cbn [fst snd] in *. subst r0. cbn [AnimationLoop.set_running].
  unfold AnimationLoop._create_buffers, bind, on_snd, on_fst.
  cbn [AnimationLoop.set_bookkeeping AnimationLoop._renderers
       AnimationLoop._default_blend_mode].
  destruct (load_renderers_busy blend
              (mkWorld f1 (layer_store w) (renderer_store w)) a rest r layer
              Hr Hbusy Hav Hcl) as (w2 & Hload & Hf2).
  cbn [frame_control] in Hf2.
  unfold AnimationLoop.new.
  cbn [AnimationLoop._renderers AnimationLoop._default_blend_mode].
  rewrite Hload. cbn [fst snd AnimationManager.running].
  repeat split; try assumption.
Qed.


(** X21.  [start] right after a loop was told to stop.  A renderer that
    is still marked running is not flushed by [_create_buffers]; if its
    free queue is not empty there is no room for two more layers and
    [start] raises [QueueFull], after the frame has been reset, with
    the manager's flag still false. *)
Theorem start_with_busy_renderer_overflows blend w m a rest r layer :
  AnimationManager.running m = false ->
  AnimationManager.renderers m = a :: rest ->
  nth_error (renderer_store w) a = Some r ->
  Renderer._running r = true ->
  Renderer._avail_q r <> [] ->
  fst (Frame.reset rgba2rgb None (frame_control w)) = Ok tt ->
  (forall f, create_layer f = Ok layer) ->
  let res := AnimationManager.start rgba2rgb create_layer blend (w, m) in
  fst res = Raise QueueFull /\
  AnimationManager.running (snd (snd res)) = false /\
  frame_control (fst (snd res))
  = snd (Frame.reset rgba2rgb None (frame_control w)).
Proof.
  intros Hrun Hrs Hr Hbusy Hav Hreset Hcl.
  exact (manager_start_busy blend w m a rest r layer
           Hrun Hrs Hr Hbusy Hav Hreset Hcl).
Qed.

(** X22.  Stopping and starting again at once.  [stop] on a running
    manager whose loop is running returns [True] and clears the
    manager's flag only: [AnimationLoop.stop] schedules [_stop] and
    returns, so the loop and its renderers are still marked running.
    Until that task has run, a second [stop] returns [False], and a
    [start] builds a new loop over the same renderers, finds the first
    of them still running with layers on its free queue, and raises
    [QueueFull]. *)
Theorem stop_then_start_overflows blend w m l a rest r layer :
  AnimationManager.running m = true ->
  AnimationManager._loop m = Some l ->
  AnimationLoop._running l = true ->
  AnimationManager.renderers m = a :: rest ->
  nth_error (renderer_store w) a = Some r ->
  Renderer._running r = true ->
  Renderer._avail_q r <> [] ->
  fst (Frame.reset rgba2rgb None (frame_control w)) = Ok tt ->
  (forall f, create_layer f = Ok layer) ->
  exists m1,
    AnimationManager_stop m = (Ok true, m1) /\
    m1 = AnimationManager.mk (AnimationManager.renderers m)
           (AnimationManager.renderer_info m) false (Some l) /\
    AnimationManager_stop m1 = (Ok false, m1) /\
    fst (AnimationManager.start rgba2rgb create_layer blend (w, m1))
    = Raise QueueFull.
Proof.
  intros Hrun Hloop Hl Hrs Hr Hbusy Hav Hreset Hcl.
  eexists. split; [|split; [reflexivity|split]].
  - unfold AnimationManager_stop, AnimationLoop_stop.
    rewrite Hrun, Hloop, Hl. reflexivity.
  - reflexivity.
  - apply (manager_start_busy blend w _ a rest r layer); try assumption;
      reflexivity.
Qed.

End StartTheorems.

(** ** The loop and the manager at concrete inputs *)

Lemma add_renderer_refuses_witness :
  AnimationManager.lookup "uchroma.fxlib.Nope"
    (AnimationManager.renderer_info idle_manager) = None /\
  AnimationManager.add_renderer "uchroma.fxlib.Nope" []
    (one_renderer_world, idle_manager)
  = (Ok (-1), (one_renderer_world, idle_manager)).
Proof.
  split; [reflexivity|].
  apply (proj1 (add_renderer_refuses "uchroma.fxlib.Nope" []
                  one_renderer_world idle_manager)).
  reflexivity.
Defined.

Lemma one_renderer_idle :
  idle_renderers one_renderer_world (AnimationManager.renderers idle_manager).
Proof.
  split.
  - repeat constructor. intros [].
  - intros a [<-|[]]. reflexivity.
Defined.

Lemma start_refused_or_started_witness :
  (AnimationManager.running running_manager = true \/
   AnimationManager.renderers running_manager = []) /\
  AnimationManager.start sample_rgba2rgb some_create_layer None
    (one_renderer_world, running_manager)
  = (Ok false, (one_renderer_world, running_manager)) /\
  (AnimationLoop._running (AnimationLoop.new [] None) = true \/
   AnimationLoop._renderers (AnimationLoop.new [] None) = []) /\
  AnimationLoop.start sample_rgba2rgb some_create_layer
    (one_renderer_world, AnimationLoop.new [] None)
  = (Ok false, (one_renderer_world, AnimationLoop.new [] None)) /\
  AnimationManager.running idle_manager = false /\
  AnimationManager.renderers idle_manager <> [] /\
  fst (Frame.reset sample_rgba2rgb None (frame_control one_renderer_world))
  = Ok tt /\
  let r := AnimationManager.start sample_rgba2rgb some_create_layer None
             (one_renderer_world, idle_manager) in
  fst r = Ok true /\
  AnimationManager.running (snd (snd r)) = true /\
  length (layer_store (fst (snd r))) = 2%nat.
Proof.
  assert (H1 : AnimationManager.running running_manager = true \/
               AnimationManager.renderers running_manager = [])
    by (left; reflexivity).
  assert (H2 : AnimationLoop._running (AnimationLoop.new [] None) = true \/
               AnimationLoop._renderers (AnimationLoop.new [] None) = [])
    by (right; reflexivity).
  assert (H3 : AnimationManager.running idle_manager = false) by reflexivity.
  assert (H4 : AnimationManager.renderers idle_manager <> []) by discriminate.
  assert (H5 : fst (Frame.reset sample_rgba2rgb None
                      (frame_control one_renderer_world)) = Ok tt)
    by reflexivity.
  destruct (start_refused_or_started sample_rgba2rgb some_create_layer)
    as (Hm & Hl & Hs).
  pose proof (Hs None one_renderer_world idle_manager blank_layer
                H3 H4 one_renderer_idle H5 (fun _ => eq_refl)) as H.
  cbv zeta in H |- *. destruct H as (E & Hr & _ & _ & _ & Hlen & _).
  split; [exact H1|]. split; [exact (Hm None _ _ H1)|].
  split; [exact H2|]. split; [exact (Hl _ _ H2)|].
  split; [exact H3|]. split; [exact H4|]. split; [exact H5|].
  split; [exact E|]. split; [exact Hr|exact Hlen].
Defined.

Lemma start_hands_out_two_layers_witness :
  let r := AnimationManager.start sample_rgba2rgb some_create_layer None
             (one_renderer_world, idle_manager) in
  fst r = Ok true /\
  layer_store (fst (snd r))
  = [handed_out None blank_layer; handed_out None blank_layer] /\
  option_map Renderer._avail_q (nth_error (renderer_store (fst (snd r))) 0)
  = Some [0%nat; 1%nat].
Proof.
  pose proof (start_hands_out_two_layers sample_rgba2rgb some_create_layer
                None one_renderer_world idle_manager blank_layer
                eq_refl ltac:(discriminate) one_renderer_idle eq_refl
                (fun _ => eq_refl)) as H.
  cbv zeta in H |- *.
  destruct H as (H1 & _ & _ & H4 & H5).
  split; [exact H1|]. split; [exact H4|].
  exact (proj1 (H5 0%nat 0%nat eq_refl)).
Defined.

Lemma start_with_busy_renderer_overflows_witness :
  Renderer._avail_q (Renderer.mk plasma 0 true [0%nat] []) <> [] /\
  fst (AnimationManager.start sample_rgba2rgb some_create_layer None
         (busy_world, idle_manager))
  = Raise QueueFull.
Proof.
  split; [discriminate|].
  apply (start_with_busy_renderer_overflows sample_rgba2rgb some_create_layer
           None busy_world idle_manager 0%nat [] 
           (Renderer.mk plasma 0 true [0%nat] []) blank_layer);
    try reflexivity; discriminate.
Defined.

Lemma stop_then_start_overflows_witness :
  AnimationManager.running running_manager = true /\
  exists m1,
    AnimationManager_stop running_manager = (Ok true, m1) /\
    fst (AnimationManager.start sample_rgba2rgb some_create_layer None
           (busy_world, m1))
    = Raise QueueFull.
Proof.
  split; [reflexivity|].
  destruct (stop_then_start_overflows sample_rgba2rgb some_create_layer
              None busy_world running_manager
              (AnimationLoop.mk [0%nat] None true true false [None] [None])
              0%nat [] (Renderer.mk plasma 0 true [0%nat] []) blank_layer
              eq_refl eq_refl eq_refl eq_refl eq_refl eq_refl
              ltac:(discriminate) eq_refl (fun _ => eq_refl))
    as (m1 & H1 & _ & _ & H4).
  exists m1. split; assumption.
Defined.

(** * More of the frame: its animation task *)

Section AnimationFacts.

Variable rgba2rgb : Frame.Color -> rgba -> list byte.

Lemma set_frame_data_accepted frame_id f :
  Frame.shape_ok f ->
  accepts (Frame._driver f) ->
  exists ts,
    Frame._set_frame_data rgba2rgb frame_id f
    = (Ok tt, Frame.with_driver f (sends (Frame._driver f) ts)).
Proof.
  intros (HH & HW & Hs0 & Hs1 & Hlen & Hrows) Hacc.
  unfold Frame._set_frame_data.
  destruct (Z.eqb_spec (Frame._height f) 1) as [H1|Hne].
  - unfold Frame._set_frame_data_single.
    destruct (nth_error (Frame._as_img rgba2rgb f) 0) as [row|] eqn:Hrow.
    2:{ apply nth_error_None in Hrow.
        rewrite as_img_length, Hlen, Hs0, H1 in Hrow. simpl in Hrow. lia. }
    unfold Frame.driver_call, run_command. rewrite (Hacc _ _).
    eexists [_]. reflexivity.
  - unfold Frame._set_frame_data_matrix, py_range.
    eexists.
    apply (send_rows_accepted _ _ _ _ _ (Z.to_nat (Frame._height f)) 0%nat f Hacc).
    rewrite as_img_length, Hlen, Hs0. lia.
Qed.

Lemma update_accepted frame_id f :
  Frame.frame_ok f ->
  accepts (Frame._driver f) ->
  exists ts,
    Frame.update rgba2rgb frame_id f
    = (Ok tt, Frame.with_driver f (sends (Frame._driver f) ts)).
Proof.
  intros [Hok Hw] Hacc. rewrite (update_unfold rgba2rgb).
  destruct (set_frame_data_accepted frame_id (read_only f) Hok Hacc)
    as (ts & ->).
  unfold Frame.commit, Frame.driver_call, custom_frame, run_command.
  cbn [Frame._driver Frame.with_driver sends respond issued
       quirk_custom_frame_80 read_only Frame.with_matrix].
  rewrite (Hacc _ _).
  exists (ts ++ [mkTransaction CUSTOM_FRAME [] None None]).
  destruct f as [d w h [s0 s1 cs wr] bc]. cbn in Hw. subst wr.
  unfold writable, sends, Frame.with_driver, Frame.with_matrix, setflags.
  cbn. now rewrite app_assoc.
Qed.

Lemma reset_accepted frame_id f :
  Frame.frame_ok f ->
  accepts (Frame._driver f) ->
  exists ts,
    Frame.reset rgba2rgb frame_id f
    = (Ok tt,
       Frame.mk (sends (Frame._driver f) ts) (Frame._width f) (Frame._height f)
         (mkArray (shape0 (Frame._matrix f)) (shape1 (Frame._matrix f))
            (zeroed (cells (Frame._matrix f))) true)
         (Frame._base_color f)).
Proof.
  intros [Hok Hw] Hacc.
  unfold Frame.reset, bind, Frame.clear, fill_zero. rewrite Hw.
  match goal with
  | |- context [Frame.update _ _ ?g] =>
      destruct (update_accepted frame_id g) as (ts & ->)
  end.
  - destruct Hok as (HH & HW & Hs0 & Hs1 & Hlen & Hrows).
    split; [|reflexivity]. repeat split; cbn; try assumption; try lia.
    + now rewrite length_map.
    + apply Forall_forall. intros r Hr.
      apply in_map_iff in Hr. destruct Hr as (r0 & <- & Hr0).
      rewrite length_map. rewrite Forall_forall in Hrows. now apply Hrows.
  - exact Hacc.
  - exists ts. reflexivity.
Qed.

Lemma reset_accepted_ok frame_id f :
  Frame.frame_ok f ->
  accepts (Frame._driver f) ->
  fst (Frame.reset rgba2rgb frame_id f) = Ok tt /\
  Frame.frame_ok (snd (Frame.reset rgba2rgb frame_id f)) /\
  accepts (Frame._driver (snd (Frame.reset rgba2rgb frame_id f))) /\
  cells (Frame._matrix (snd (Frame.reset rgba2rgb frame_id f)))
  = zeroed (cells (Frame._matrix f)).
Proof.
  intros Hf Hacc.
  destruct (reset_accepted frame_id f Hf Hacc) as (ts & ->).
  destruct Hf as [(HH & HW & Hs0 & Hs1 & Hlen & Hrows) Hw].
  cbn [fst snd Frame._driver Frame._matrix cells].
  split; [reflexivity|]. split; [|split; [|reflexivity]].
  - split; [|reflexivity]. repeat split; cbn; try assumption; try lia.
    + unfold zeroed. now rewrite length_map.
    + apply Forall_forall. intros r Hr.
      apply in_map_iff in Hr. destruct Hr as (r0 & <- & Hr0).
      rewrite length_map. rewrite Forall_forall in Hrows. now apply Hrows.
  - now apply accepts_sends.
Qed.

Lemma start_animation_unfold fps a q :
  Animation._running a = false ->
  requested_period fps = Ok q ->
  Animation.start_animation rgba2rgb fps a
  = (let '(r, f) := Frame.reset rgba2rgb None (Animation.frame a) in
     match r with
     | Ok _ => (Ok tt, Animation.mk f q true (Some Animation.Scheduled) true)
     | Raise e =>
         (Raise e,
          Animation.mk f q false (Animation._anim_task a) true)
     end).
Proof.
  intros Hrun Hq. unfold Animation.start_animation. rewrite Hrun.
  unfold requested_period in Hq. unfold bind at 1. rewrite Hq.
  unfold bind, Animation.set_fps, Animation.set_defer_close,
    Animation.on_frame, Animation.set_running, Animation.set_anim_task.
  cbn [Animation.frame Animation._fps Animation._running
       Animation._anim_task Animation.defer_close].
  destruct (Frame.reset rgba2rgb None (Animation.frame a)) as [[u|e] f];
    cbn; now rewrite ?Hrun.
Qed.

Lemma start_animation_period_error fps a e :
  Animation._running a = false ->
  requested_period fps = Raise e ->
  Animation.start_animation rgba2rgb fps a = (Raise e, a).
Proof.
  intros Hrun Hq. unfold Animation.start_animation. rewrite Hrun.
  unfold requested_period in Hq. unfold bind at 1. now rewrite Hq.
Qed.

Lemma stop_animation_unfold a k :
  Animation._running a = true ->
  Animation._anim_task a = Some k ->
  Animation.stop_animation rgba2rgb a
  = (let '(r, f) := Frame.reset rgba2rgb None (Animation.frame a) in
     match r with
     | Ok _ =>
         (Ok tt,
          Animation.mk f (Animation._fps a) false
            (Some (Animation.cancel k)) false)
     | Raise e =>
         (Raise e,
          Animation.mk f (Animation._fps a) false
            (Some (Animation.cancel k)) (Animation.defer_close a))
     end).
Proof.
  intros Hrun Hk. unfold Animation.stop_animation. rewrite Hrun.
  unfold bind, Animation.set_running, Animation.cancel_anim_task,
    Animation.set_anim_task, Animation.on_frame, Animation.set_defer_close.
  cbn [Animation.frame Animation._fps Animation._running
       Animation._anim_task Animation.defer_close].
  rewrite Hk.
  cbn [Animation.frame Animation._fps Animation._running
       Animation._anim_task Animation.defer_close].
  destruct (Frame.reset rgba2rgb None (Animation.frame a)) as [[u|e] f];
    reflexivity.
Qed.

(** X23.  [start_animation] on a frame at rest whose transport accepts
    the writes.  The frame period [1.0 / fps] is computed first.  When
    that raises, [ZeroDivisionError] for an [fps] of zero and
    [OverflowError] for an integer too large for a float, the error is
    passed on and nothing has changed: nothing is sent and
    [defer_close] is not set.  Otherwise the period is stored, the
    frame is blanked and sent once, as by [reset], the driver's
    [defer_close] is set, the frame is marked running and its task
    scheduled; while it runs a second [start_animation], whatever its
    [fps], changes nothing and sends nothing: the frame rate is not
    updated. *)
Theorem start_animation_resets_once fps fps2 a :
  Animation._running a = false ->
  Frame.frame_ok (Animation.frame a) ->
  accepts (Frame._driver (Animation.frame a)) ->
  (forall q,
     requested_period fps = Ok q ->
     exists a',
       Animation.start_animation rgba2rgb fps a = (Ok tt, a') /\
       Animation._fps a' = q /\
       Animation.frame a' = snd (Frame.reset rgba2rgb None (Animation.frame a)) /\
       cells (Frame._matrix (Animation.frame a'))
       = zeroed (cells (Frame._matrix (Animation.frame a))) /\
       Animation._running a' = true /\
       Animation._anim_task a' = Some Animation.Scheduled /\
       Animation.defer_close a' = true /\
       Animation.start_animation rgba2rgb fps2 a' = (Ok tt, a')) /\
  (forall e,
     requested_period fps = Raise e ->
     Animation.start_animation rgba2rgb fps a = (Raise e, a)) /\
  Animation.start_animation rgba2rgb (Some 0) a = (Raise ZeroDivisionError, a) /\
  (forall n,
     float_of_int n = Raise OverflowError ->
     Animation.start_animation rgba2rgb (Some n) a = (Raise OverflowError, a)).
Proof.
  intros Hrun Hf Hacc. split; [|split; [|split]].
  - intros q Hq.
    destruct (reset_accepted_ok None _ Hf Hacc) as (Hr & _ & _ & Hc).
    rewrite (start_animation_unfold fps a q Hrun Hq).
    destruct (Frame.reset rgba2rgb None (Animation.frame a)) as [r f].
    cbn [fst snd] in *. subst r.
    eexists. split; [reflexivity|].
    cbn [Animation.frame Animation._running Animation._anim_task
         Animation.defer_close Animation._fps].
    repeat split; assumption.
  - intros e He. now apply start_animation_period_error.
  - now apply start_animation_period_error.
  - intros n Hn. apply start_animation_period_error; [exact Hrun|].
    unfold requested_period, Animation.frame_period. now rewrite Hn.
Qed.

(** X24.  A transport error leaves [defer_close] set.  When the [reset]
    inside [start_animation] raises, after the frame period was
    computed, the error is passed on, the frame is not running, and the
    driver's [defer_close] is already true; when the [reset] inside
    [stop_animation] raises, the frame is already marked stopped and
    its task cancelled, and [defer_close] is not cleared.  In both
    cases a later [stop_animation] returns at once and clears
    nothing. *)
Theorem transport_error_leaves_defer_close a e :
  fst (Frame.reset rgba2rgb None (Animation.frame a)) = Raise e ->
  (forall fps q,
     Animation._running a = false ->
     requested_period fps = Ok q ->
     exists a',
       Animation.start_animation rgba2rgb fps a = (Raise e, a') /\
       Animation.frame a' = snd (Frame.reset rgba2rgb None (Animation.frame a)) /\
       Animation._running a' = false /\
       Animation._anim_task a' = Animation._anim_task a /\
       Animation.defer_close a' = true /\
       Animation.stop_animation rgba2rgb a' = (Ok tt, a')) /\
  (forall k,
     Animation._running a = true ->
     Animation._anim_task a = Some k ->
     exists a',
       Animation.stop_animation rgba2rgb a = (Raise e, a') /\
       Animation.frame a' = snd (Frame.reset rgba2rgb None (Animation.frame a)) /\
       Animation._running a' = false /\
       Animation._anim_task a' = Some (Animation.cancel k) /\
       Animation.defer_close a' = Animation.defer_close a /\
       Animation.stop_animation rgba2rgb a' = (Ok tt, a')).
Proof.
  intros He. split.
  - intros fps q Hrun Hq. rewrite (start_animation_unfold fps a q Hrun Hq).
    destruct (Frame.reset rgba2rgb None (Animation.frame a)) as [r f].
    cbn [fst snd] in *. subst r.
    eexists. split; [reflexivity|]. repeat split.
  - intros k Hrun Hk. rewrite (stop_animation_unfold a k Hrun Hk).
    destruct (Frame.reset rgba2rgb None (Animation.frame a)) as [r f].
    cbn [fst snd] in *. subst r.
    eexists. split; [reflexivity|]. repeat split.
Qed.

(** X25.  [start_animation] followed by [stop_animation], on a frame at
    rest whose transport accepts the writes and with an [fps] whose
    frame period [1.0 / fps] can be computed: both return, the frame is
    blanked and sent twice, as by two calls of [reset], and at the end
    the frame is at rest again, blank, not running, its task cancelled
    and the driver's [defer_close] cleared.  A second [stop_animation]
    changes nothing. *)
Theorem start_then_stop_animation fps q a :
  Animation._running a = false ->
  requested_period fps = Ok q ->
  Frame.frame_ok (Animation.frame a) ->
  accepts (Frame._driver (Animation.frame a)) ->
  exists a1 a2,
    Animation.start_animation rgba2rgb fps a = (Ok tt, a1) /\
    Animation.stop_animation rgba2rgb a1 = (Ok tt, a2) /\
    Animation.frame a2
    = snd (Frame.reset rgba2rgb None
             (snd (Frame.reset rgba2rgb None (Animation.frame a)))) /\
    Frame.frame_ok (Animation.frame a2) /\
    cells (Frame._matrix (Animation.frame a2))
    = zeroed (cells (Frame._matrix (Animation.frame a))) /\
    Animation._running a2 = false /\
    Animation._anim_task a2 = Some Animation.Cancelled /\
    Animation.defer_close a2 = false /\
    Animation.stop_animation rgba2rgb a2 = (Ok tt, a2).
Proof.
  intros Hrun Hq Hf Hacc.
  destruct (reset_accepted_ok None _ Hf Hacc) as (Hr1 & Hf1 & Hacc1 & Hc1).
  destruct (reset_accepted_ok None _ Hf1 Hacc1) as (Hr2 & Hf2 & _ & Hc2).
  destruct (Frame.reset rgba2rgb None (Animation.frame a)) as [r1 f1] eqn:E1.
  cbn [fst snd] in *. subst r1.
  destruct (Frame.reset rgba2rgb None f1) as [r2 f2] eqn:E2.
  cbn [fst snd] in *. subst r2.
  exists (Animation.mk f1 q true (Some Animation.Scheduled) true),
         (Animation.mk f2 q false (Some Animation.Cancelled) false).
  split; [|split].
  - rewrite (start_animation_unfold fps a q Hrun Hq).
    now rewrite E1.
  - rewrite (stop_animation_unfold
               (Animation.mk f1 q true (Some Animation.Scheduled) true)
               Animation.Scheduled eq_refl eq_refl).
    cbn [Animation.frame Animation._fps]. now rewrite E2.
  - cbn [Animation.frame Animation._running Animation._anim_task
         Animation.defer_close].
    repeat split; try apply Hf2.
    rewrite Hc2, Hc1. unfold zeroed. rewrite map_map.
    apply map_ext. intros r. now rewrite map_map.
Qed.

End AnimationFacts.

(** ** The animation task at concrete inputs *)

Lemma still_animation_at_rest :
  Animation._running still_animation = false /\
  Frame.frame_ok (Animation.frame still_animation) /\
  accepts (Frame._driver (Animation.frame still_animation)).
Proof.
  split; [reflexivity|]. split.
  - unfold Frame.frame_ok, Frame.shape_ok, array_ok. simpl.
    repeat split; try lia; repeat constructor.
  - intros log t. reflexivity.
Defined.

Lemma start_animation_resets_once_witness :
  Animation._running still_animation = false /\
  requested_period (Some 60) = Ok (round_to binary64 (1 # 60)) /\
  float_of_int (2 ^ 1024) = Raise OverflowError /\
  (exists a',
     Animation.start_animation sample_rgba2rgb (Some 60) still_animation
     = (Ok tt, a') /\
     Animation._fps a' = round_to binary64 (1 # 60) /\
     Animation._running a' = true /\
     Animation.start_animation sample_rgba2rgb None a' = (Ok tt, a')) /\
  Animation.start_animation sample_rgba2rgb (Some (2 ^ 1024)) still_animation
  = (Raise OverflowError, still_animation).
Proof.
  destruct still_animation_at_rest as (H1 & H2 & H3).
  assert (H4 : requested_period (Some 60) = Ok (round_to binary64 (1 # 60)))
    by (vm_compute; reflexivity).
  assert (H5 : float_of_int (2 ^ 1024) = Raise OverflowError)
    by (vm_compute; reflexivity).
  split; [exact H1|]. split; [exact H4|]. split; [exact H5|].
  destruct (start_animation_resets_once sample_rgba2rgb (Some 60) None
              still_animation H1 H2 H3)
    as (Hstart & _ & _ & Hover).
  split.
  - destruct (Hstart _ H4) as (a' & E & Hfps & _ & _ & Hr & _ & _ & E2).
    exists a'. repeat split; assumption.
  - exact (Hover _ H5).
Defined.

Lemma transport_error_leaves_defer_close_witness :
  fst (Frame.reset sample_rgba2rgb None (Animation.frame flaky_animation))
  = Raise (DeviceError 5) /\
  Animation._running flaky_animation = false /\
  requested_period None = Ok (round_to binary64 (1 # 30)) /\
  exists a',
    Animation.start_animation sample_rgba2rgb None flaky_animation
    = (Raise (DeviceError 5), a') /\
    Animation.defer_close a' = true /\
    Animation.stop_animation sample_rgba2rgb a' = (Ok tt, a').
Proof.
  assert (H1 : fst (Frame.reset sample_rgba2rgb None
                      (Animation.frame flaky_animation))
               = Raise (DeviceError 5)) by reflexivity.
  assert (H2 : Animation._running flaky_animation = false) by reflexivity.
  assert (H3 : requested_period None = Ok (round_to binary64 (1 # 30)))
    by (vm_compute; reflexivity).
  split; [exact H1|]. split; [exact H2|]. split; [exact H3|].
  destruct (proj1 (transport_error_leaves_defer_close sample_rgba2rgb
                     flaky_animation (DeviceError 5) H1) None _ H2 H3)
    as (a' & E & _ & _ & _ & Hd & Es).
  exists a'. repeat split; assumption.
Defined.

Lemma start_then_stop_animation_witness :
  Animation._running still_animation = false /\
  requested_period None = Ok (round_to binary64 (1 # 30)) /\
  exists a1 a2,
    Animation.start_animation sample_rgba2rgb None still_animation = (Ok tt, a1) /\
    Animation.stop_animation sample_rgba2rgb a1 = (Ok tt, a2) /\
    Animation.defer_close a2 = false.
Proof.
  destruct still_animation_at_rest as (H1 & H2 & H3).
  assert (H4 : requested_period None = Ok (round_to binary64 (1 # 30)))
    by (vm_compute; reflexivity).
  split; [exact H1|]. split; [exact H4|].
  destruct (start_then_stop_animation sample_rgba2rgb None _ still_animation
              H1 H4 H2 H3)
    as (a1 & a2 & E1 & E2 & _ & _ & _ & _ & _ & Hd & _).
  exists a1, a2. repeat split; assumption.
Defined.
